(** * dcmedit: the hierarchical dataset model (src/models/Dataset_model.cpp)

    A shallow embedding of [Dataset_model], the tree model that projects a
    DICOM dataset onto rows and columns, filters rows by the three-tag edit
    whitelist and brackets structural edits with notifications.

    - DCMTK objects ([DcmItem], [DcmSequenceOfItems], leaf [DcmElement]s) are
      an inductive tree; a [DcmObject*] is a path of raw child positions from
      the dataset of the current file, [None] being the null pointer.
    - Every member function is a computation over the model state (current
      file, its unsaved-changes flag, and the chronological trace of log
      lines, Qt notifications and DCMTK calls), ending in a normal return, a
      thrown [std::runtime_error], or undefined behaviour ([Fault]: a null or
      dangling pointer is dereferenced).
    - What DCMTK decides by value representation (string encoding, value
      multiplicity, status codes) is left abstract in the record [Dcmtk].
    - Embedded are the edit policy, the addressing functions ([get_object],
      [index], [parent], [rowCount], [columnCount], [flags]) and the
      mutations ([add_item], [delete_index], [set_value],
      [set_value_from_file], [setData]), the display functions ([data],
      [headerData]) and the tag path handler of the batch dialog
      (src/ui/edit_all_files_dialog/Edit_all_files_view.cpp); [reset_model]
      and [add_element], which goes through Dicom_util::set_element, are
      not. *)

From Stdlib Require Import ZArith Lia Strings.String Strings.Byte Strings.Ascii.
From Stdlib Require Import DecimalString.
From stdpp Require Import base tactics option list numbers.
Import ListNotations.

Local Open Scope Z_scope.

(* ------------------------------------------------------------------------- *)
(** ** Machine integers *)

(** [int] is 32 bits wide, [unsigned long] 64 and [uint32_t] 32; conversions
    between them wrap. *)
Definition to_int (z : Z) : Z := (z + 2 ^ 31) mod 2 ^ 32 - 2 ^ 31.
Definition to_ulong (z : Z) : Z := z mod 2 ^ 64.
Definition to_uint32 (z : Z) : Z := z mod 2 ^ 32.

(* ------------------------------------------------------------------------- *)
(** ** DCMTK data: tags, value representations, conditions *)

Record DcmTagKey := mkDcmTagKey { group : Z; element : Z }.

(** [DcmTagKey::operator==] *)
Definition DcmTagKey_eqb (a b : DcmTagKey) : bool :=
  (group a =? group b) && (element a =? element b).

(** The identifiers [DcmObject::ident] can return; the leaf value
    representations are not told apart by the model code, so a handful of
    them stands for all. *)
Inductive DcmEVR :=
| EVR_AE | EVR_CS | EVR_DA | EVR_LO | EVR_OB | EVR_OW | EVR_PN | EVR_SH
| EVR_TM | EVR_UI | EVR_UL | EVR_US | EVR_UN
| EVR_SQ | EVR_item | EVR_metainfo | EVR_dataset | EVR_dirRecord
| EVR_UNKNOWN.

Inductive OFCondition :=
| EC_Normal
| EC_Bad (text : string).

Definition bad (status : OFCondition) : bool :=
  match status with EC_Normal => false | EC_Bad _ => true end.

Definition text_of (status : OFCondition) : string :=
  match status with EC_Normal => "Normal"%string | EC_Bad t => t end.

(** The classes derived from [DcmItem], told apart by [ident]. *)
Inductive DcmItemClass :=
| Class_DcmItem | Class_DcmDataset | Class_DcmMetaInfo | Class_DcmDirectoryRecord.

(** A [DcmElement] is a leaf (tag, VR, length field, value bytes) or a
    [DcmSequenceOfItems], which is itself a [DcmElement] in DCMTK; a
    [DcmItem] owns an ordered list of elements, a sequence an ordered list of
    items. *)
Inductive DcmElement :=
| Leaf (tag : DcmTagKey) (vr : DcmEVR) (length_field : Z) (value : list byte)
| DcmSequenceOfItems (tag : DcmTagKey) (itemList : list DcmItem)
with DcmItem :=
| MkDcmItem (cls : DcmItemClass) (elementList : list DcmElement).

(** What a [DcmObject*] can point to. *)
Inductive DcmObject :=
| ObjElement (e : DcmElement)
| ObjItem (it : DcmItem).

Definition getTag (e : DcmElement) : DcmTagKey :=
  match e with
  | Leaf tag _ _ _ => tag
  | DcmSequenceOfItems tag _ => tag
  end.

(** [DcmTag::getXTag]: the (group, element) key of the tag. *)
Definition getXTag (t : DcmTagKey) : DcmTagKey := t.

Definition ident (o : DcmObject) : DcmEVR :=
  match o with
  | ObjElement (Leaf _ vr _ _) => vr
  | ObjElement (DcmSequenceOfItems _ _) => EVR_SQ
  | ObjItem (MkDcmItem Class_DcmItem _) => EVR_item
  | ObjItem (MkDcmItem Class_DcmDataset _) => EVR_dataset
  | ObjItem (MkDcmItem Class_DcmMetaInfo _) => EVR_metainfo
  | ObjItem (MkDcmItem Class_DcmDirectoryRecord _) => EVR_dirRecord
  end.

Definition DcmEVR_eqb (a b : DcmEVR) : bool :=
  match a, b with
  | EVR_AE, EVR_AE | EVR_CS, EVR_CS | EVR_DA, EVR_DA | EVR_LO, EVR_LO
  | EVR_OB, EVR_OB | EVR_OW, EVR_OW | EVR_PN, EVR_PN | EVR_SH, EVR_SH
  | EVR_TM, EVR_TM | EVR_UI, EVR_UI | EVR_UL, EVR_UL | EVR_US, EVR_US
  | EVR_UN, EVR_UN | EVR_SQ, EVR_SQ | EVR_item, EVR_item
  | EVR_metainfo, EVR_metainfo | EVR_dataset, EVR_dataset
  | EVR_dirRecord, EVR_dirRecord | EVR_UNKNOWN, EVR_UNKNOWN => true
  | _, _ => false
  end.

Definition isLeaf (o : DcmObject) : bool :=
  match o with
  | ObjElement (Leaf _ _ _ _) => true
  | _ => false
  end.

(** [DcmItem::getElement(num)] and [DcmSequenceOfItems::getItem(num)]: the
    child at raw position [num], null when out of range. *)
Definition getElement (it : DcmItem) (num : Z) : option DcmElement :=
  match it with MkDcmItem _ els => els !! Z.to_nat num end.

Definition getItem (e : DcmElement) (num : Z) : option DcmItem :=
  match e with
  | DcmSequenceOfItems _ its => its !! Z.to_nat num
  | Leaf _ _ _ _ => None
  end.

(** A pointer tested for being non-null, as in [if (elem && ...)]. *)
Definition non_null {A} (ptr : option A) : bool :=
  match ptr with Some _ => true | None => false end.

(** [dynamic_cast<DcmElement*>] on an object that is at hand. *)
Definition as_DcmElement (o : option DcmObject) : option DcmElement :=
  match o with
  | Some (ObjElement e) => Some e
  | _ => None
  end.

(** The behaviour of DCMTK that depends on the value representation or on the
    environment, and is not fixed by the model code. *)
Record Dcmtk := mkDcmtk {
  (** [DcmElement::getNumberOfValues] of a leaf *)
  getVM : DcmElement -> Z;
  (** the condition [DcmSequenceOfItems::append] reports for a sequence *)
  append_status : list DcmItem -> OFCondition;
  (** [DcmElement::putString]: condition and the element afterwards *)
  putString : DcmElement -> string -> OFCondition * DcmElement;
  (** [DcmElement::createValueFromTempFile] for a file path and a length *)
  createValueFromTempFile : DcmElement -> string -> Z -> OFCondition * DcmElement;
  (** [OFStandard::getFileSize], a [size_t] *)
  getFileSize : string -> Z
}.

Definition getNumberOfValues (tk : Dcmtk) (o : DcmObject) : Z :=
  match o with
  | ObjItem (MkDcmItem _ els) => Z.of_nat (length els)
  | ObjElement (DcmSequenceOfItems _ its) => Z.of_nat (length its)
  | ObjElement e => getVM tk e
  end.

(* ------------------------------------------------------------------------- *)
(** ** The edit policy *)

(** [is_allowed_edit_tag], lines 27-51; the argument is a pointer to an
    element and may be null. *)
Definition is_allowed_edit_tag (element : option DcmElement) : bool :=
  match element with
  | None => false
  | Some e =>
      let key := getXTag (getTag e) in
      if DcmTagKey_eqb key (mkDcmTagKey 0x0010 0x0010) then true
      else if DcmTagKey_eqb key (mkDcmTagKey 0x0010 0x0020) then true
      else if DcmTagKey_eqb key (mkDcmTagKey 0x0020 0x000D) then true
      else false
  end.
Arguments is_allowed_edit_tag : simpl never.

(* ------------------------------------------------------------------------- *)
(** ** Pointers into the dataset *)

(** A non-null [DcmObject] pointer: the raw child positions leading from the
    dataset of the current file to the object. Removing a child shifts the
    paths of its later siblings, as a pointer kept across a removal must be
    discarded anyway; no function below keeps one across a removal. *)
Definition DcmPtr := list nat.

Fixpoint DcmPtr_eqb (p q : DcmPtr) : bool :=
  match p, q with
  | [], [] => true
  | i :: p', j :: q' => Nat.eqb i j && DcmPtr_eqb p' q'
  | _, _ => false
  end.

Definition children (o : DcmObject) : list DcmObject :=
  match o with
  | ObjItem (MkDcmItem _ els) => ObjElement <$> els
  | ObjElement (DcmSequenceOfItems _ its) => ObjItem <$> its
  | ObjElement (Leaf _ _ _ _) => []
  end.

Fixpoint resolve (o : DcmObject) (p : DcmPtr) : option DcmObject :=
  match p with
  | [] => Some o
  | i :: p' =>
      match children o !! i with
      | Some c => resolve c p'
      | None => None
      end
  end.

Definition keep_element (e : DcmElement) (o : DcmObject) : DcmElement :=
  match o with ObjElement e' => e' | ObjItem _ => e end.

Definition keep_item (it : DcmItem) (o : DcmObject) : DcmItem :=
  match o with ObjItem it' => it' | ObjElement _ => it end.

(** The tree after the object at [p] was changed in place by [f]. *)
Fixpoint modify (f : DcmObject -> DcmObject) (p : DcmPtr) (o : DcmObject) : DcmObject :=
  match p with
  | [] => f o
  | i :: p' =>
      match o with
      | ObjItem (MkDcmItem c els) =>
          ObjItem (MkDcmItem c
            (alter (fun e => keep_element e (modify f p' (ObjElement e))) i els))
      | ObjElement (DcmSequenceOfItems t its) =>
          ObjElement (DcmSequenceOfItems t
            (alter (fun it => keep_item it (modify f p' (ObjItem it))) i its))
      | ObjElement (Leaf _ _ _ _) => o
      end
  end.

(* ------------------------------------------------------------------------- *)
(** ** Qt: model indexes, flags, roles *)

Record QModelIndex := mkQModelIndex {
  row : Z;
  column : Z;
  internalPointer : option DcmPtr;
  hasModel : bool
}.

(** The default-constructed [QModelIndex()]. *)
Definition QModelIndex_invalid : QModelIndex :=
  mkQModelIndex (-1) (-1) None false.

Definition createIndex (r c : Z) (ptr : DcmPtr) : QModelIndex :=
  mkQModelIndex r c (Some ptr) true.

Definition isValid (i : QModelIndex) : bool :=
  (0 <=? row i) && (0 <=? column i) && hasModel i.

Module Qt.
Definition NoItemFlags : Z := 0.
Definition ItemIsSelectable : Z := 1.
Definition ItemIsEditable : Z := 2.
Definition ItemIsEnabled : Z := 32.
Definition DisplayRole : Z := 0.
Definition EditRole : Z := 2.
Definition ForegroundRole : Z := 9.
End Qt.

(* ------------------------------------------------------------------------- *)
(** ** Model state and the trace of what the model does to its surroundings *)

Inductive LogLevel := Log_debug | Log_info | Log_error.

Inductive Event :=
| Log (level : LogLevel) (msg : string)
| beginInsertRows (parent : QModelIndex) (first last : Z)
| endInsertRows
| beginRemoveRows (parent : QModelIndex) (first last : Z)
| endRemoveRows
| dataChanged (topLeft bottomRight : QModelIndex)
| dataset_changed
| Dcm_append (sq : DcmPtr)
| Dcm_item_remove (item : DcmPtr) (num : Z)
| Dcm_sq_remove (sq : DcmPtr) (num : Z)
| Dcm_delete (obj : option DcmObject)
| Dcm_putString (elem : DcmPtr) (value : string)
| Dcm_createValueFromTempFile (elem : DcmPtr) (path : string) (len : Z).

Record Dicom_file := mkDicom_file {
  dataset : DcmItem;
  unsaved_changes : bool
}.

Record Model := mkModel {
  current_file : option Dicom_file;
  trace : list Event
}.

Inductive result (A : Type) :=
| Ok (a : A) (m : Model)
| Throw (what : string) (m : Model)
| Fault.
Arguments Ok {A} a m.
Arguments Throw {A} what m.
Arguments Fault {A}.

Definition Op (A : Type) : Type := Model -> result A.

Definition ret {A} (a : A) : Op A := fun m => Ok a m.

Definition bind {A B} (c : Op A) (k : A -> Op B) : Op B :=
  fun m =>
    match c m with
    | Ok a m' => k a m'
    | Throw w m' => Throw w m'
    | Fault => Fault
    end.

Definition throw {A} (what : string) : Op A := fun m => Throw what m.

Definition fault {A} : Op A := fun _ => Fault.

(** [try { body } catch (...) { handler }] *)
Definition try_catch {A} (body handler : Op A) : Op A :=
  fun m =>
    match body m with
    | Throw _ m' => handler m'
    | r => r
    end.

Definition emit (e : Event) : Op unit :=
  fun m => Ok tt (mkModel (current_file m) (trace m ++ [e])).

Declare Scope op_scope.
Delimit Scope op_scope with op.
Notation "x <- c ;; k" := (bind c (fun x => k))
  (at level 100, c at next level, right associativity) : op_scope.
Notation "c ;; k" := (bind c (fun _ => k))
  (at level 100, right associativity) : op_scope.
Local Open Scope op_scope.

(** Dereferencing a pointer: undefined when nothing is there. *)
Definition deref (p : DcmPtr) : Op DcmObject :=
  fun m =>
    match current_file m with
    | Some f =>
        match resolve (ObjItem (dataset f)) p with
        | Some o => Ok o m
        | None => Fault
        end
    | None => Fault
    end.

(** A DCMTK call that changes the object at [p] in place. *)
Definition update_at (p : DcmPtr) (f : DcmObject -> DcmObject) : Op unit :=
  fun m =>
    match current_file m with
    | Some file =>
        Ok tt (mkModel
                 (Some (mkDicom_file
                          (keep_item (dataset file) (modify f p (ObjItem (dataset file))))
                          (unsaved_changes file)))
                 (trace m))
    | None => Fault
    end.

(** [object->getParent()]; the dataset of the file stands at the root and
    is taken to have no parent. *)
Definition getParent (p : DcmPtr) : Op (option DcmPtr) :=
  _ <- deref p ;;
  ret (match p with [] => None | _ :: _ => Some (removelast p) end).

(** [dynamic_cast<DcmElement*>(object)] on a pointer, null staying null. *)
Definition dynamic_cast_DcmElement (object : option DcmPtr)
  : Op (option (DcmPtr * DcmElement)) :=
  match object with
  | None => ret None
  | Some p =>
      o <- deref p ;;
      ret (match o with ObjElement e => Some (p, e) | ObjItem _ => None end)
  end.

(** [dynamic_cast<DcmSequenceOfItems*>(object)] *)
Definition dynamic_cast_DcmSequenceOfItems (object : option DcmPtr)
  : Op (option (DcmPtr * list DcmItem)) :=
  match object with
  | None => ret None
  | Some p =>
      o <- deref p ;;
      ret (match o with
           | ObjElement (DcmSequenceOfItems _ its) => Some (p, its)
           | _ => None
           end)
  end.

(** [new DcmItem()] *)
Definition new_DcmItem : DcmItem := MkDcmItem Class_DcmItem [].

(* ------------------------------------------------------------------------- *)
(** ** Dataset_model *)

Definition columns : list string :=
  ["Tag"%string; "VR"%string; "Length"%string; "Value"%string].

Section Dataset_model.

(** DCMTK, as far as it is left open. *)
Variable tk : Dcmtk.

(** [Dicom_util::get_index_nr], whose definition is in common/Dicom_util.cpp:
    the row number reported for an object, given the dataset and a pointer
    to the object. It is taken to return a number without throwing; where a
    statement needs the number not to be negative, it says so. *)
Variable get_index_nr : DcmItem -> DcmPtr -> Z.

(** [std::to_string(vr)]: the decimal value of the enumerator, fixed by
    DCMTK's dcvr.h. *)
Variable to_string_DcmEVR : DcmEVR -> string.

Definition log (level : LogLevel) (msg : string) : Op unit :=
  emit (Log level msg).

(** lines 115-123; the dataset of the current file is the root of all
    pointers. *)
Definition get_dataset : Op (option DcmPtr) :=
  fun m =>
    match current_file m with
    | Some _ => ret (Some []) m
    | None => (log Log_debug "Failed to get dataset" ;; ret None) m
    end.

(** lines 125-135 *)
Definition get_object (index : QModelIndex) : Op (option DcmPtr) :=
  if negb (isValid index) then get_dataset
  else
    match internalPointer index with
    | None => log Log_error "QModelIndex::internalPointer was null." ;; ret None
    | Some p => ret (Some p)
    end.

(** lines 137-143 *)
Definition get_vr (index : QModelIndex) : Op DcmEVR :=
  if negb (isValid index) then ret EVR_UNKNOWN
  else
    object <- get_object index ;;
    match object with
    | Some p => o <- deref p ;; ret (ident o)
    | None => ret EVR_UNKNOWN
    end.

(** Modelled from the spec: [Dicom_file::set_unsaved_changes], which is
    defined outside the model's source. The dirty flag is a boolean per open
    file, owned by the file; the call sets it. *)
Definition set_unsaved_changes (b : bool) (file : Dicom_file) : Dicom_file :=
  mkDicom_file (dataset file) b.

(** lines 448-451; without a current file the call goes through a null
    pointer. *)
Definition mark_as_modified : Op unit :=
  fun m =>
    match current_file m with
    | Some file =>
        emit dataset_changed
             (mkModel (Some (set_unsaved_changes true file)) (trace m))
    | None => Fault
    end.

(** The child the loops of [rowCount] and [index] fetch at position [i]:
    an element of an item or dataset, an item of a sequence, and null for
    any other kind of parent. *)
Definition child_at (object : DcmObject) (i : Z) : option DcmObject :=
  if DcmEVR_eqb (ident object) EVR_item || DcmEVR_eqb (ident object) EVR_dataset then
    match object with
    | ObjItem it => ObjElement <$> getElement it (to_ulong i)
    | ObjElement _ => None
    end
  else if DcmEVR_eqb (ident object) EVR_SQ then
    match object with
    | ObjElement sq => ObjItem <$> getItem sq (to_ulong i)
    | ObjItem _ => None
    end
  else None.

(** The loop of lines 322-334, with [n] iterations left to run. *)
Fixpoint rowCount_loop (object : DcmObject) (n : nat) (i count : Z) : Z :=
  match n with
  | O => count
  | S n' =>
      let child := child_at object i in
      let elem := as_DcmElement child in
      let count' :=
        if non_null elem && is_allowed_edit_tag elem
        then count + 1 else count in
      rowCount_loop object n' (i + 1) count'
  end.

(** lines 313-337 *)
Definition rowCount (parent : QModelIndex) : Op Z :=
  object <- get_object parent ;;
  match object with
  | None => ret 0
  | Some p =>
      o <- deref p ;;
      if isLeaf o then ret 0
      else
        let total := to_int (getNumberOfValues tk o) in
        ret (rowCount_loop o (Z.to_nat total) 0 0)
  end.

(** lines 339-341 *)
Definition columnCount (_ : QModelIndex) : Op Z :=
  ret (to_int (Z.of_nat (length columns))).

(** [QAbstractItemModel::hasIndex] *)
Definition hasIndex (r c : Z) (parent : QModelIndex) : Op bool :=
  if (r <? 0) || (c <? 0) then ret false
  else
    rows <- rowCount parent ;;
    if negb (r <? rows) then ret false
    else
      cols <- columnCount parent ;;
      ret (c <? cols).

(** The loop of lines 275-293; [pp] points to the parent object. *)
Fixpoint index_loop (r c : Z) (pp : DcmPtr) (parentObj : DcmObject)
         (n : nat) (i visibleIndex : Z) : QModelIndex :=
  match n with
  | O => QModelIndex_invalid
  | S n' =>
      let child := child_at parentObj i in
      let elem := as_DcmElement child in
      if non_null elem && is_allowed_edit_tag elem then
        let visibleIndex' := visibleIndex + 1 in
        if visibleIndex' =? r
        then createIndex r c (pp ++ [Z.to_nat (to_ulong i)])
        else index_loop r c pp parentObj n' (i + 1) visibleIndex'
      else index_loop r c pp parentObj n' (i + 1) visibleIndex
  end.

(** lines 263-296 *)
Definition index (r c : Z) (parent : QModelIndex) : Op QModelIndex :=
  has <- hasIndex r c parent ;;
  if negb has then ret QModelIndex_invalid
  else
    parentObj <- get_object parent ;;
    match parentObj with
    | None => ret QModelIndex_invalid
    | Some pp =>
        o <- deref pp ;;
        let total := to_int (getNumberOfValues tk o) in
        ret (index_loop r c pp o (Z.to_nat total) 0 (-1))
    end.

(** lines 299-311 *)
Definition parent (index : QModelIndex) : Op QModelIndex :=
  if negb (isValid index) then ret QModelIndex_invalid
  else
    object <- get_object index ;;
    par <- match object with
           | Some p => getParent p
           | None => ret None
           end ;;
    match par with
    | None => ret QModelIndex_invalid
    | Some pp =>
        ds <- get_dataset ;;
        if match ds with Some d => DcmPtr_eqb pp d | None => false end
        then ret QModelIndex_invalid
        else
          fun m =>
            match current_file m with
            | Some file => ret (createIndex (get_index_nr (dataset file) pp) 0 pp) m
            | None => Fault
            end
    end.

(** [sq->append(new DcmItem())]: on a good condition the item is linked in
    at the end, on a bad one the list stays as it was. *)
Definition sq_append (sq : DcmPtr) : Op OFCondition :=
  o <- deref sq ;;
  match o with
  | ObjElement (DcmSequenceOfItems t its) =>
      emit (Dcm_append sq) ;;
      let status := append_status tk its in
      (if bad status then ret tt
       else
         update_at sq
           (fun _ => ObjElement (DcmSequenceOfItems t (its ++ [new_DcmItem])))) ;;
      ret status
  | _ => fault
  end.

(** lines 157-172 *)
Definition add_item (index : QModelIndex) : Op unit :=
  object <- get_object index ;;
  sq <- dynamic_cast_DcmSequenceOfItems object ;;
  match sq with
  | None => throw "failed to get sequence"
  | Some (p, _) =>
      item_pos <- rowCount index ;;
      emit (beginInsertRows index item_pos item_pos) ;;
      status <- sq_append p ;;
      emit endInsertRows ;;
      mark_as_modified ;;
      if bad status then throw (text_of status) else ret tt
  end.

(** [DcmItem::remove(num)]: unlinks and returns the element at raw position
    [num], or returns null when there is none. *)
Definition item_remove (item : DcmPtr) (num : Z) : Op (option DcmElement) :=
  o <- deref item ;;
  match o with
  | ObjItem (MkDcmItem c els) =>
      emit (Dcm_item_remove item num) ;;
      match els !! Z.to_nat num with
      | Some e =>
          update_at item
            (fun _ => ObjItem (MkDcmItem c (delete (Z.to_nat num) els))) ;;
          ret (Some e)
      | None => ret None
      end
  | _ => fault
  end.

(** [DcmSequenceOfItems::remove(num)] *)
Definition sq_remove (sq : DcmPtr) (num : Z) : Op (option DcmItem) :=
  o <- deref sq ;;
  match o with
  | ObjElement (DcmSequenceOfItems t its) =>
      emit (Dcm_sq_remove sq num) ;;
      match its !! Z.to_nat num with
      | Some it =>
          update_at sq
            (fun _ => ObjElement (DcmSequenceOfItems t (delete (Z.to_nat num) its))) ;;
          ret (Some it)
      | None => ret None
      end
  | _ => fault
  end.

(** lines 174-207 *)
Definition delete_index (index : QModelIndex) : Op unit :=
  if negb (isValid index) then throw "invalid index"
  else
    pidx <- parent index ;;
    par <- get_object pidx ;;
    match par with
    | None => throw "failed to get parent"
    | Some pp =>
        o <- deref pp ;;
        let vr := ident o in
        let r := row index in
        pidx' <- parent index ;;
        emit (beginRemoveRows pidx' r r) ;;
        bad_vr <-
          (if DcmEVR_eqb vr EVR_item || DcmEVR_eqb vr EVR_dataset then
             element <- item_remove pp (to_ulong r) ;;
             emit (Dcm_delete (ObjElement <$> element)) ;;
             ret false
           else if DcmEVR_eqb vr EVR_SQ then
             item <- sq_remove pp (to_ulong r) ;;
             emit (Dcm_delete (ObjItem <$> item)) ;;
             ret false
           else ret true) ;;
        emit endRemoveRows ;;
        mark_as_modified ;;
        if bad_vr : bool
        then throw ("Unexpected VR: " ++ to_string_DcmEVR vr)%string
        else ret tt
    end.

(** [element->putString(value.c_str())] *)
Definition element_putString (elem : DcmPtr) (e : DcmElement) (value : string)
  : Op OFCondition :=
  emit (Dcm_putString elem value) ;;
  let '(status, e') := putString tk e value in
  update_at elem (fun _ => ObjElement e') ;;
  ret status.

(** lines 213-232 *)
Definition set_value (index : QModelIndex) (value : string) : Op unit :=
  object <- get_object index ;;
  element <- dynamic_cast_DcmElement object ;;
  match element with
  | None => throw "failed to get element"
  | Some (p, e) =>
      if negb (is_allowed_edit_tag (Some e)) then
        log Log_info "Ignoring edit to non-whitelisted tag."
      else
        status <- element_putString p e value ;;
        emit (dataChanged index index) ;;
        mark_as_modified ;;
        if bad status then throw (text_of status) else ret tt
  end.

(** [element->createValueFromTempFile(factory, file_size, EBO_LittleEndian)] *)
Definition element_createValueFromTempFile
           (elem : DcmPtr) (e : DcmElement) (file_path : string) (file_size : Z)
  : Op OFCondition :=
  emit (Dcm_createValueFromTempFile elem file_path file_size) ;;
  let '(status, e') := createValueFromTempFile tk e file_path file_size in
  update_at elem (fun _ => ObjElement e') ;;
  ret status.

(** lines 234-259 *)
Definition set_value_from_file (index : QModelIndex) (file_path : string) : Op unit :=
  object <- get_object index ;;
  element <- dynamic_cast_DcmElement object ;;
  match element with
  | None => throw "failed to get element"
  | Some (p, e) =>
      if negb (is_allowed_edit_tag (Some e)) then
        log Log_info "Ignoring file-based edit to non-whitelisted tag."
      else
        let file_size := to_uint32 (getFileSize tk file_path) in
        if negb (file_size mod 2 =? 0) then throw "file size must be even"
        else
          status <- element_createValueFromTempFile p e file_path file_size ;;
          emit (dataChanged index index) ;;
          mark_as_modified ;;
          if bad status then throw (text_of status) else ret tt
  end.

(** lines 343-359 *)
Definition flags (index : QModelIndex) : Op Z :=
  if negb (isValid index) then ret Qt.NoItemFlags
  else
    let fl := Z.lor Qt.ItemIsEnabled Qt.ItemIsSelectable in
    object <- get_object index ;;
    element <- dynamic_cast_DcmElement object ;;
    match element with
    | Some (_, e) =>
        if (column index =? 3) && is_allowed_edit_tag (Some e)
        then ret (Z.lor fl Qt.ItemIsEditable)
        else ret fl
    | None => ret fl
    end.

(** lines 401-432; [value] is the text of the variant. *)
Definition setData (index : QModelIndex) (value : string) (role : Z) : Op bool :=
  if negb (isValid index) then ret false
  else if negb (role =? Qt.EditRole) then ret false
  else
    object <- get_object index ;;
    element <- dynamic_cast_DcmElement object ;;
    match element with
    | None => ret false
    | Some (_, e) =>
        if negb (is_allowed_edit_tag (Some e)) then ret false
        else
          let newValue := value in
          try_catch
            (set_value index newValue ;;
             emit (dataChanged index index) ;;
             ret true)
            (ret false)
    end.

End Dataset_model.

(* ------------------------------------------------------------------------- *)
(** ** Observations used in the statements *)

(** The number of elements of a list for which the edit policy holds. *)
Definition policy_count (els : list DcmElement) : Z :=
  Z.of_nat (length (List.filter (fun e => is_allowed_edit_tag (Some e)) els)).

(** The index [index] is valid and carries the pointer [p], at which the
    object [o] lives in the dataset of the current file. *)
Definition addresses (m : Model) (index : QModelIndex) (p : DcmPtr) (o : DcmObject) : Prop :=
  isValid index = true /\ internalPointer index = Some p /\ deref p m = Ok o m.

(** The dirty flag of the current file. *)
Definition dirty (m : Model) : option bool :=
  unsaved_changes <$> current_file m.

(** The state a run ends in, when it ends by a return or a throw. *)
Definition final_state {A} (r : result A) : option Model :=
  match r with
  | Ok _ m' => Some m'
  | Throw _ m' => Some m'
  | Fault => None
  end.

(** Whether the file is dirty after a run. *)
Definition dirty_after {A} (r : result A) : bool :=
  match final_state r with
  | Some m' => bool_decide (dirty m' = Some true)
  | None => false
  end.

(** The events a run added to a trace that had [n] entries. *)
Definition added {A} (n : nat) (r : result A) : list Event :=
  match final_state r with
  | Some m' => drop n (trace m')
  | None => []
  end.

Definition is_value_write (e : Event) : bool :=
  match e with
  | Dcm_putString _ _ => true
  | Dcm_createValueFromTempFile _ _ _ => true
  | _ => false
  end.

(** Whether a run starting in [m] wrote a value into an element. *)
Definition value_written {A} (m : Model) (r : result A) : bool :=
  existsb is_value_write (added (length (trace m)) r).

(** Where a scan of the trace stands with respect to structural brackets. *)
Inductive Bracket := Outside | InInsert | InRemove.

(** One event of a scan: a begin is accepted only outside of any bracket, an
    end only inside its own kind of bracket, a structural DCMTK call only
    inside the bracket of its kind; the other events are accepted anywhere. *)
Definition bracket_step (s : Bracket) (e : Event) : option Bracket :=
  match e, s with
  | beginInsertRows _ _ _, Outside => Some InInsert
  | beginInsertRows _ _ _, _ => None
  | endInsertRows, InInsert => Some Outside
  | endInsertRows, _ => None
  | beginRemoveRows _ _ _, Outside => Some InRemove
  | beginRemoveRows _ _ _, _ => None
  | endRemoveRows, InRemove => Some Outside
  | endRemoveRows, _ => None
  | Dcm_append _, InInsert => Some InInsert
  | Dcm_append _, _ => None
  | Dcm_item_remove _ _, InRemove => Some InRemove
  | Dcm_item_remove _ _, _ => None
  | Dcm_sq_remove _ _, InRemove => Some InRemove
  | Dcm_sq_remove _ _, _ => None
  | Dcm_delete _, InRemove => Some InRemove
  | Dcm_delete _, _ => None
  | _, _ => Some s
  end.

Fixpoint bracket_scan (s : Bracket) (t : list Event) : option Bracket :=
  match t with
  | [] => Some s
  | e :: t' =>
      match bracket_step s e with
      | Some s' => bracket_scan s' t'
      | None => None
      end
  end.

(** A trace in which every structural DCMTK call lies between a begin and the
    matching end, no bracket opens inside another, and none is left open. *)
Definition well_bracketed (t : list Event) : bool :=
  match bracket_scan Outside t with
  | Some Outside => true
  | _ => false
  end.

(** A run of [c] that starts while the scan of the trace stands at [s]
    extends the trace by events the scan accepts; it stands where [Q] says
    after a return and where [E] says after a throw. *)
Definition scans {A} (c : Op A) (s : Bracket)
           (Q : A -> Bracket -> Prop) (E : Bracket -> Prop) : Prop :=
  forall m,
    match c m with
    | Ok a m' =>
        exists t s', trace m' = trace m ++ t /\ bracket_scan s t = Some s' /\ Q a s'
    | Throw _ m' =>
        exists t s', trace m' = trace m ++ t /\ bracket_scan s t = Some s' /\ E s'
    | Fault => True
    end.

(** A computation that neither opens nor closes a bracket, makes no
    structural DCMTK call and does not throw. *)
Definition quiet {A} (c : Op A) : Prop :=
  forall s, scans c s (fun _ s' => s' = s) (fun _ => False).

(** The kinds of parent object [delete_index] knows how to remove from. *)
Definition expected_parent (vr : DcmEVR) : bool :=
  DcmEVR_eqb vr EVR_item || DcmEVR_eqb vr EVR_dataset || DcmEVR_eqb vr EVR_SQ.

(** Two objects of the same base class. *)
Definition same_kind (a b : DcmObject) : Prop :=
  match a, b with
  | ObjElement _, ObjElement _ => True
  | ObjItem _, ObjItem _ => True
  | _, _ => False
  end.

(* ------------------------------------------------------------------------- *)
(** ** Example data *)

Definition PatientName : DcmTagKey := mkDcmTagKey 0x0010 0x0010.
Definition PatientID : DcmTagKey := mkDcmTagKey 0x0010 0x0020.
Definition StudyInstanceUID : DcmTagKey := mkDcmTagKey 0x0020 0x000D.
Definition StudyDate : DcmTagKey := mkDcmTagKey 0x0008 0x0020.
Definition ReferencedImageSequence : DcmTagKey := mkDcmTagKey 0x0008 0x1140.
Definition DirectoryRecordSequence : DcmTagKey := mkDcmTagKey 0x0004 0x1220.

(** A DCMTK whose calls all succeed and store the text or leave the bytes. *)
Definition dcmtk_good : Dcmtk :=
  mkDcmtk (fun _ => 1)
          (fun _ => EC_Normal)
          (fun e v =>
             (EC_Normal,
              match e with
              | Leaf tag vr _ _ =>
                  Leaf tag vr (Z.of_nat (String.length v)) (list_byte_of_string v)
              | _ => e
              end))
          (fun e _ n =>
             (EC_Normal,
              match e with
              | Leaf tag vr _ value => Leaf tag vr n value
              | _ => e
              end))
          (fun _ => 4).

(** A DCMTK whose [append] reports a failure and whose files are 3 bytes. *)
Definition dcmtk_failing : Dcmtk :=
  mkDcmtk (fun _ => 1)
          (fun _ => EC_Bad "Illegal call, perhaps wrong parameters")
          (putString dcmtk_good)
          (createValueFromTempFile dcmtk_good)
          (fun _ => 3).

(** A row number function: the last raw position of the pointer. *)
Definition last_position (_ : DcmItem) (p : DcmPtr) : Z :=
  Z.of_nat (List.last p 0%nat).

(** A rendering of the enumerators that does not tell them apart. *)
Definition render_DcmEVR (_ : DcmEVR) : string := "EVR"%string.

(** The dataset of the addressing scenario: PatientName, StudyDate,
    PatientID, in this order. *)
Definition scenario_dataset : DcmItem :=
  MkDcmItem Class_DcmDataset
    [ Leaf PatientName EVR_PN 2 [x41; x20];
      Leaf StudyDate EVR_DA 8 [x32; x30; x32; x34; x30; x31; x30; x31];
      Leaf PatientID EVR_LO 2 [x42; x20] ].

(** The same three elements in ascending tag order, the order in which a
    [DcmItem] keeps its elements: StudyDate (0008,0020), PatientName
    (0010,0010), PatientID (0010,0020). *)
Definition tag_ordered_dataset : DcmItem :=
  MkDcmItem Class_DcmDataset
    [ Leaf StudyDate EVR_DA 8 [x32; x30; x32; x34; x30; x31; x30; x31];
      Leaf PatientName EVR_PN 2 [x41; x20];
      Leaf PatientID EVR_LO 2 [x42; x20] ].

(** A dataset with PatientName, a sequence holding two items, and
    StudyDate. *)
Definition nested_dataset : DcmItem :=
  MkDcmItem Class_DcmDataset
    [ Leaf PatientName EVR_PN 2 [x41; x20];
      DcmSequenceOfItems ReferencedImageSequence
        [ MkDcmItem Class_DcmItem [];
          MkDcmItem Class_DcmItem [Leaf PatientID EVR_LO 2 [x42; x20]] ];
      Leaf StudyDate EVR_DA 8 [x32; x30; x32; x34; x30; x31; x30; x31] ].

(** A dataset whose only element is a sequence holding one directory
    record with a single element. *)
Definition directory_dataset : DcmItem :=
  MkDcmItem Class_DcmDataset
    [ DcmSequenceOfItems DirectoryRecordSequence
        [ MkDcmItem Class_DcmDirectoryRecord [Leaf PatientID EVR_LO 2 [x42; x20]] ] ].

Definition loaded (ds : DcmItem) : Model :=
  mkModel (Some (mkDicom_file ds false)) [].

(* ------------------------------------------------------------------------- *)
(** ** Dataset_model: what a cell shows *)

(** What DCMTK answers about the text of an element: the rendering of a tag
    key, the dictionary name and VR name of the element's tag, the VR of the
    tag, the length an object reports, and the string [getOFStringArray]
    leaves in its argument. *)
Record DcmtkText := mkDcmtkText {
  tag_toString : DcmTagKey -> string;
  getTagName : DcmElement -> string;
  getVRName : DcmElement -> string;
  getEVR : DcmElement -> DcmEVR;
  getLength : DcmObject -> Z;
  getOFStringArray : DcmElement -> string
}.

Inductive GlobalColor := Qt_black | Qt_gray.

Definition Qt_Horizontal : Z := 1.
Definition Qt_Vertical : Z := 2.

(** The variants the model hands out: the default-constructed one, a text, an
    unsigned number, a brush of a colour. *)
Inductive QVariant :=
| QVariant_null
| QVariant_string (s : string)
| QVariant_uint (n : Z)
| QVariant_brush (color : GlobalColor).

Definition max_value_display_length : Z := 100.

Definition large_value_text : string :=
  String "<"
    ("Large value, right-click and choose " ++
     String (ascii_of_nat 34) ("Edit" ++ String (ascii_of_nat 34)
       (" for more details." ++ String ">" EmptyString)))%string.

(** [QString::number] of an [int], in base 10. *)
Definition QString_number (n : Z) : string :=
  NilZero.string_of_int (Z.to_int n).

Section Dataset_model_display.

Variable tk : Dcmtk.
Variable tx : DcmtkText.

(** lines 56-68 *)
Definition get_item_data (item : DcmItem) (r c : Z) : QVariant :=
  if c =? 0 then QVariant_string ("Item " ++ QString_number (to_int (r + 1)))
  else if c =? 2 then QVariant_uint (getLength tx (ObjItem item))
  else QVariant_null.

(** lines 70-103 *)
Definition get_element_data (element : DcmElement) (c : Z) : QVariant :=
  let tag := getTag element in
  let len := getLength tx (ObjElement element) in
  if c =? 0 then
    QVariant_string (tag_toString tx tag ++ " " ++ getTagName tx element)
  else if c =? 1 then QVariant_string (getVRName tx element)
  else if c =? 2 then QVariant_uint len
  else if c =? 3 then
    let value :=
      if negb (DcmEVR_eqb (getEVR tx element) EVR_SQ) then
        if len <=? max_value_display_length
        then getOFStringArray tx element
        else large_value_text
      else EmptyString in
    QVariant_string value
  else QVariant_null.

(** lines 361-399; the [static_cast] of the display branch is undefined on
    an object that is neither item, dataset nor element. *)
Definition data (index : QModelIndex) (role : Z) : Op QVariant :=
  object <- get_object index ;;
  match object with
  | None => ret QVariant_null
  | Some p =>
      if negb (isValid index) then ret QVariant_null
      else
        o <- deref p ;;
        let element := as_DcmElement (Some o) in
        let row_is_editable_tag := is_allowed_edit_tag element in
        if role =? Qt.DisplayRole then
          let vr := ident o in
          if DcmEVR_eqb vr EVR_item || DcmEVR_eqb vr EVR_dataset then
            match o with
            | ObjItem item => ret (get_item_data item (row index) (column index))
            | ObjElement _ => fault
            end
          else
            match o with
            | ObjElement elem => ret (get_element_data elem (column index))
            | ObjItem _ => fault
            end
        else if role =? Qt.ForegroundRole then
          if row_is_editable_tag
          then ret (QVariant_brush Qt_black)
          else ret (QVariant_brush Qt_gray)
        else ret QVariant_null
  end.

(** lines 434-439; [columns[section]] is not range-checked. *)
Definition headerData (section orientation role : Z) : Op QVariant :=
  if negb (orientation =? Qt_Horizontal) || negb (role =? Qt.DisplayRole)
  then ret QVariant_null
  else
    match columns !! Z.to_nat (to_ulong section) with
    | Some name => ret (QVariant_string name)
    | None => fault
    end.

End Dataset_model_display.

(* ------------------------------------------------------------------------- *)
(** ** More observations *)

Definition is_log (e : Event) : bool :=
  match e with Log _ _ => true | _ => false end.

(** A computation that returns or runs into undefined behaviour, but does not
    throw, and that leaves the current file as it is and adds nothing but log
    lines to the trace. *)
Definition read_only {A} (c : Op A) : Prop :=
  forall m,
    match c m with
    | Ok _ m' =>
        current_file m' = current_file m /\
        exists logs, trace m' = trace m ++ logs /\ forallb is_log logs = true
    | Throw _ _ => False
    | Fault => True
    end.

(* ------------------------------------------------------------------------- *)
(** ** Edit_all_files_view (src/ui/edit_all_files_dialog) *)

(** Text is a string of 8-bit characters, read as Latin-1. *)

(** [QChar::isSpace] *)
Definition QChar_isSpace (c : ascii) : bool :=
  let n := nat_of_ascii c in
  (Nat.eqb n 32 || (Nat.leb 9 n && Nat.leb n 13) || Nat.eqb n 133 || Nat.eqb n 160)%bool.

(** [QChar::toLower] *)
Definition QChar_toLower (c : ascii) : ascii :=
  let n := nat_of_ascii c in
  if ((Nat.leb 65 n && Nat.leb n 90)
      || (Nat.leb 192 n && Nat.leb n 222 && negb (Nat.eqb n 215)))%bool
  then ascii_of_nat (n + 32)
  else c.

(** [QString::toLower] *)
Fixpoint toLower (s : string) : string :=
  match s with
  | EmptyString => EmptyString
  | String c s' => String (QChar_toLower c) (toLower s')
  end.

Fixpoint trim_left (s : string) : string :=
  match s with
  | EmptyString => EmptyString
  | String c s' => if QChar_isSpace c then trim_left s' else s
  end.

Fixpoint trim_right (s : string) : string :=
  match s with
  | EmptyString => EmptyString
  | String c s' =>
      match trim_right s' with
      | EmptyString => if QChar_isSpace c then EmptyString else String c EmptyString
      | t => String c t
      end
  end.

(** [QString::trimmed]: without the white space at both ends. *)
Definition trimmed (s : string) : string := trim_right (trim_left s).

(** [QString::contains], case sensitive. *)
Fixpoint contains (s needle : string) : bool :=
  String.prefix needle s
  || match s with
     | EmptyString => false
     | String _ s' => contains s' needle
     end.

Inductive Mode := Mode_set | Mode_set_existing | Mode_remove.

(** The widgets of the dialog, as far as the view's code reads or writes
    them. *)
Record Edit_all_files_view := mkEdit_all_files_view {
  m_tag_path_edit_text : string;
  m_value_edit_text : string;
  m_value_edit_enabled : bool;
  m_value_edit_placeholder : string;
  m_set_button_checked : bool;
  m_set_button_enabled : bool;
  m_set_existing_button_checked : bool;
  m_set_existing_button_enabled : bool;
  m_delete_button_checked : bool;
  m_delete_button_enabled : bool
}.

Definition value_placeholder : string :=
  "Enter value. If VM > 1, separate values with '\'.".

Definition study_date_placeholder : string :=
  "Editing StudyDate (0008,0020) is disabled.".

(** The test of the handler, lines 30-31. *)
Definition is_study_date (text : string) : bool :=
  let lowered := toLower (trimmed text) in
  contains lowered "0008,0020" || contains lowered "studydate".

(** The handler connected to [QLineEdit::textChanged], lines 29-53. *)
Definition tag_path_textChanged (text : string) (v : Edit_all_files_view)
  : Edit_all_files_view :=
  let study := is_study_date text in
  mkEdit_all_files_view
    (m_tag_path_edit_text v)
    (if study then EmptyString else m_value_edit_text v)
    (negb study)
    (if study then study_date_placeholder else value_placeholder)
    (m_set_button_checked v)
    (negb study)
    (m_set_existing_button_checked v)
    (negb study)
    (m_delete_button_checked v)
    (negb study).

(** lines 100-102 *)
Definition enable_value (enabled : bool) (v : Edit_all_files_view)
  : Edit_all_files_view :=
  mkEdit_all_files_view
    (m_tag_path_edit_text v) (m_value_edit_text v) enabled
    (m_value_edit_placeholder v)
    (m_set_button_checked v) (m_set_button_enabled v)
    (m_set_existing_button_checked v) (m_set_existing_button_enabled v)
    (m_delete_button_checked v) (m_delete_button_enabled v).

(** lines 104-110 *)
Definition tag_path (v : Edit_all_files_view) : string := m_tag_path_edit_text v.
Definition value (v : Edit_all_files_view) : string := m_value_edit_text v.

(** lines 112-122 *)
Definition mode (v : Edit_all_files_view) : Mode :=
  if m_set_button_checked v then Mode_set
  else if m_set_existing_button_checked v then Mode_set_existing
  else Mode_remove.

(** Two pointers that part ways at some object: neither leads into what the
    other points to. *)
Definition diverge (p q : DcmPtr) : Prop :=
  exists c i j p' q', i <> j /\ p = c ++ i :: p' /\ q = c ++ j :: q'.

(* ------------------------------------------------------------------------- *)
(** * Properties *)

(** ** Machine integers *)

Lemma to_int_small (z : Z) : 0 <= z < 2 ^ 31 -> to_int z = z.
Proof. intros H. unfold to_int. rewrite Z.mod_small; lia. Qed.

Lemma to_ulong_small (z : Z) : 0 <= z < 2 ^ 64 -> to_ulong z = z.
Proof. intros H. unfold to_ulong. apply Z.mod_small. exact H. Qed.

Lemma to_ulong_of_nat (els_len i : nat) :
  (i < els_len)%nat -> Z.of_nat els_len < 2 ^ 31 ->
  Z.to_nat (to_ulong (Z.of_nat i)) = i.
Proof.
  intros Hi Hlen. rewrite to_ulong_small; [apply Nat2Z.id |].
  assert (2 ^ 31 < 2 ^ 64) by (apply Z.pow_lt_mono_r; lia). lia.
Qed.

Lemma to_uint32_parity (z : Z) : to_uint32 z mod 2 = z mod 2.
Proof.
  unfold to_uint32.
  replace (2 ^ 32) with (2 * 2 ^ 31) by reflexivity.
  rewrite Z.rem_mul_r by lia.
  rewrite (Z.mul_comm 2), Z.mod_add by lia.
  apply Z.mod_mod. lia.
Qed.

(** ** The row loops *)

Section Loops.

Variable tk : Dcmtk.

Lemma child_at_sequence t its i :
  as_DcmElement (child_at (ObjElement (DcmSequenceOfItems t its)) i) = None.
Proof.
  unfold child_at. simpl.
  destruct (its !! Z.to_nat (to_ulong i)); reflexivity.
Qed.

(** Under a sequence no child is ever counted. *)
Lemma rowCount_loop_sequence t its n :
  forall i count,
    rowCount_loop (ObjElement (DcmSequenceOfItems t its)) n i count = count.
Proof.
  induction n as [| n IH]; intros i count; [reflexivity |].
  cbn [rowCount_loop]. rewrite child_at_sequence. simpl. apply IH.
Qed.

Lemma index_loop_sequence r c pp t its n :
  forall i v,
    index_loop r c pp (ObjElement (DcmSequenceOfItems t its)) n i v
    = QModelIndex_invalid.
Proof.
  induction n as [| n IH]; intros i v; [reflexivity |].
  cbn [index_loop]. rewrite child_at_sequence. simpl. apply IH.
Qed.

Lemma child_at_item c els i :
  c = Class_DcmItem \/ c = Class_DcmDataset ->
  child_at (ObjItem (MkDcmItem c els)) i
  = ObjElement <$> els !! Z.to_nat (to_ulong i).
Proof. intros [-> | ->]; reflexivity. Qed.

(** Under an item or dataset the loop adds the number of the remaining
    elements that pass the policy. *)
Lemma rowCount_loop_item c els :
  c = Class_DcmItem \/ c = Class_DcmDataset ->
  Z.of_nat (length els) < 2 ^ 31 ->
  forall n i count,
    (i + n = length els)%nat ->
    rowCount_loop (ObjItem (MkDcmItem c els)) n (Z.of_nat i) count
    = count + policy_count (drop i els).
Proof.
  intros Hc Hlen. induction n as [| n IH]; intros i count Hin.
  - cbn [rowCount_loop]. rewrite drop_ge by lia.
    unfold policy_count. simpl. lia.
  - cbn [rowCount_loop]. rewrite child_at_item by exact Hc.
    rewrite (to_ulong_of_nat (length els)) by lia.
    destruct (els !! i) as [e |] eqn:He.
    + rewrite (drop_S _ _ _ He).
      replace (Z.of_nat i + 1) with (Z.of_nat (S i)) by lia.
      rewrite IH by lia.
      unfold policy_count. simpl.
      destruct (is_allowed_edit_tag (Some e)); simpl; lia.
    + apply lookup_ge_None in He. lia.
Qed.

End Loops.

(** ** Resolving addresses *)

Lemma deref_inv p m o m' :
  deref p m = Ok o m' ->
  m' = m /\ exists file,
    current_file m = Some file /\ resolve (ObjItem (dataset file)) p = Some o.
Proof.
  unfold deref. intros H.
  destruct (current_file m) as [file |]; [| discriminate].
  destruct (resolve (ObjItem (dataset file)) p) as [o' |] eqn:Hr; [| discriminate].
  injection H as -> ->. eauto.
Qed.

Lemma deref_live p m file o :
  current_file m = Some file ->
  resolve (ObjItem (dataset file)) p = Some o ->
  deref p m = Ok o m.
Proof. intros Hf Hr. unfold deref. rewrite Hf, Hr. reflexivity. Qed.

Lemma deref_trace p o tr tr' file :
  deref p (mkModel file tr) = Ok o (mkModel file tr) ->
  deref p (mkModel file tr') = Ok o (mkModel file tr').
Proof.
  intros H. apply deref_inv in H as [_ (f & Hf & Hr)]. simpl in Hf.
  eapply deref_live; eauto.
Qed.

Section Addressing.

Variable tk : Dcmtk.

Lemma get_object_valid index p m :
  isValid index = true -> internalPointer index = Some p ->
  get_object index m = Ok (Some p) m.
Proof. intros Hv Hp. unfold get_object. rewrite Hv, Hp. reflexivity. Qed.

Lemma get_object_addresses m index p o :
  addresses m index p o -> get_object index m = Ok (Some p) m.
Proof. intros (Hv & Hp & _). apply get_object_valid; assumption. Qed.

(** [rowCount] of an address of a sequence is 0, however many items the
    sequence holds. *)
Lemma rowCount_sequence m index p t its :
  addresses m index p (ObjElement (DcmSequenceOfItems t its)) ->
  rowCount tk index m = Ok 0 m.
Proof.
  intros H. unfold rowCount, bind.
  rewrite (get_object_addresses _ _ _ _ H).
  destruct H as (_ & _ & ->). simpl.
  unfold ret. f_equal. apply rowCount_loop_sequence.
Qed.

(** [rowCount] of an address of an item or dataset is the number of its
    elements that pass the edit policy. *)
Lemma rowCount_item m index p c els :
  addresses m index p (ObjItem (MkDcmItem c els)) ->
  c = Class_DcmItem \/ c = Class_DcmDataset ->
  Z.of_nat (length els) < 2 ^ 31 ->
  rowCount tk index m = Ok (policy_count els) m.
Proof.
  intros H Hc Hlen. unfold rowCount, bind.
  rewrite (get_object_addresses _ _ _ _ H).
  destruct H as (_ & _ & ->). simpl.
  unfold ret. f_equal.
  rewrite to_int_small by lia. rewrite Nat2Z.id.
  pose proof (rowCount_loop_item c els Hc Hlen (length els) 0%nat 0) as E.
  change (Z.of_nat 0) with 0 in E. rewrite drop_0 in E.
  rewrite E by lia. lia.
Qed.

(** The same for the dataset of the current file, which the invalid index
    addresses. *)
Lemma rowCount_root file tr c els :
  dataset file = MkDcmItem c els ->
  c = Class_DcmItem \/ c = Class_DcmDataset ->
  Z.of_nat (length els) < 2 ^ 31 ->
  rowCount tk QModelIndex_invalid (mkModel (Some file) tr)
  = Ok (policy_count els) (mkModel (Some file) tr).
Proof.
  intros Hds Hc Hlen. unfold rowCount, bind. simpl. rewrite Hds. simpl.
  unfold ret. f_equal.
  rewrite to_int_small by lia. rewrite Nat2Z.id.
  pose proof (rowCount_loop_item c els Hc Hlen (length els) 0%nat 0) as E.
  change (Z.of_nat 0) with 0 in E. rewrite drop_0 in E.
  rewrite E by lia. lia.
Qed.

End Addressing.

(* ------------------------------------------------------------------------- *)
(** ** The edit policy, row counts and addresses *)

(** C2. For every element, leaf or not, the edit policy holds exactly when the
    tag is (0010,0010), (0010,0020) or (0020,000D); for a leaf this is so
    whatever its VR, length field and value bytes are, and the null pointer is
    answered with false. *)
Theorem is_allowed_edit_tag_whitelist :
  (forall e : DcmElement,
      is_allowed_edit_tag (Some e) = true <->
      getTag e = mkDcmTagKey 0x0010 0x0010 \/
      getTag e = mkDcmTagKey 0x0010 0x0020 \/
      getTag e = mkDcmTagKey 0x0020 0x000D) /\
  (forall tag vr len value,
      is_allowed_edit_tag (Some (Leaf tag vr len value)) = true <->
      tag = mkDcmTagKey 0x0010 0x0010 \/
      tag = mkDcmTagKey 0x0010 0x0020 \/
      tag = mkDcmTagKey 0x0020 0x000D) /\
  is_allowed_edit_tag None = false.
Proof.
  assert (Heq : forall a b, DcmTagKey_eqb a b = true <-> a = b).
  { intros [g1 e1] [g2 e2]. unfold DcmTagKey_eqb. simpl.
    rewrite andb_true_iff, !Z.eqb_eq. split.
    - intros [-> ->]. reflexivity.
    - intros H. injection H. auto. }
  assert (Hall : forall e : DcmElement,
      is_allowed_edit_tag (Some e) = true <->
      getTag e = mkDcmTagKey 0x0010 0x0010 \/
      getTag e = mkDcmTagKey 0x0010 0x0020 \/
      getTag e = mkDcmTagKey 0x0020 0x000D).
  { intros e. unfold is_allowed_edit_tag, getXTag.
    destruct (DcmTagKey_eqb (getTag e) (mkDcmTagKey 16 16)) eqn:H1.
    { apply Heq in H1. tauto. }
    destruct (DcmTagKey_eqb (getTag e) (mkDcmTagKey 16 32)) eqn:H2.
    { apply Heq in H2. tauto. }
    destruct (DcmTagKey_eqb (getTag e) (mkDcmTagKey 32 13)) eqn:H3.
    { apply Heq in H3. tauto. }
    split; [discriminate |].
    intros [H | [H | H]]; apply Heq in H; congruence. }
  split; [exact Hall |]. split; [| reflexivity].
  intros tag vr len value. apply (Hall (Leaf tag vr len value)).
Qed.

(** C1, at the input where the code departs from it. The second element of
    [nested_dataset] is a sequence holding two items; [rowCount] of its
    address returns 0, whatever DCMTK is: the items of a sequence are not
    counted as rows. (For items and datasets [rowCount_item] and
    [rowCount_root] give the number of elements that pass the policy.) *)
Theorem rowCount_sequence_of_two_items :
  forall tk : Dcmtk,
    addresses (loaded nested_dataset) (createIndex 0 0 [1%nat]) [1%nat]
      (ObjElement
         (DcmSequenceOfItems ReferencedImageSequence
            [ MkDcmItem Class_DcmItem [];
              MkDcmItem Class_DcmItem [Leaf PatientID EVR_LO 2 [x42; x20]] ])) /\
    rowCount tk (createIndex 0 0 [1%nat]) (loaded nested_dataset)
    = Ok 0 (loaded nested_dataset).
Proof.
  intros tk.
  assert (H : addresses (loaded nested_dataset) (createIndex 0 0 [1%nat]) [1%nat]
      (ObjElement
         (DcmSequenceOfItems ReferencedImageSequence
            [ MkDcmItem Class_DcmItem [];
              MkDcmItem Class_DcmItem [Leaf PatientID EVR_LO 2 [x42; x20]] ]))).
  { repeat split. }
  split; [exact H |]. exact (rowCount_sequence tk _ _ _ _ _ H).
Qed.

(** C3. In a dataset whose elements are, in this order, (0010,0010),
    (0008,0020) and (0010,0020), with any VRs, lengths and values:
    [rowCount] of the root is 2; [index] at row 0 gives the pointer to the
    first element and at row 1 the pointer to the third; for a negative row, a
    row of 2 or more, or a column outside 0..3 [index] returns the invalid
    index; and so it does under a valid parent index whose pointer is null.
    Each of these runs returns normally. *)
Theorem index_scenario :
  forall (tk : Dcmtk) vr1 l1 v1 vr2 l2 v2 vr3 l3 v3 (unsaved : bool) (tr : list Event),
    let name := Leaf PatientName vr1 l1 v1 in
    let date := Leaf StudyDate vr2 l2 v2 in
    let id := Leaf PatientID vr3 l3 v3 in
    let m := mkModel
               (Some (mkDicom_file (MkDcmItem Class_DcmDataset [name; date; id]) unsaved))
               tr in
    rowCount tk QModelIndex_invalid m = Ok 2 m /\
    (index tk 0 0 QModelIndex_invalid m = Ok (createIndex 0 0 [0%nat]) m /\
     addresses m (createIndex 0 0 [0%nat]) [0%nat] (ObjElement name)) /\
    (index tk 1 0 QModelIndex_invalid m = Ok (createIndex 1 0 [2%nat]) m /\
     addresses m (createIndex 1 0 [2%nat]) [2%nat] (ObjElement id)) /\
    (forall r c,
        r < 0 \/ 2 <= r \/ c < 0 \/ 4 <= c ->
        index tk r c QModelIndex_invalid m = Ok QModelIndex_invalid m) /\
    (forall r c pr pc,
        0 <= pr -> 0 <= pc ->
        exists m', index tk r c (mkQModelIndex pr pc None true) m
                   = Ok QModelIndex_invalid m').
Proof.
  intros tk vr1 l1 v1 vr2 l2 v2 vr3 l3 v3 unsaved tr name date id m.
  assert (Hrows : rowCount tk QModelIndex_invalid m = Ok 2 m) by reflexivity.
  split; [exact Hrows |].
  split; [split; [reflexivity | repeat split] |].
  split; [split; [reflexivity | repeat split] |].
  split.
  - intros r c H. unfold index, hasIndex, bind.
    destruct (r <? 0) eqn:Hr; [reflexivity |].
    destruct (c <? 0) eqn:Hc; [reflexivity |].
    cbn [orb]. rewrite Hrows.
    destruct (r <? 2) eqn:Hr2; [| reflexivity].
    cbn [negb]. unfold columnCount, ret.
    change (to_int (Z.of_nat (length columns))) with 4.
    destruct (c <? 4) eqn:Hc4; [| reflexivity].
    lia.
  - intros r c pr pc Hpr Hpc. unfold index, hasIndex, bind.
    destruct ((r <? 0) || (c <? 0)); [eexists; reflexivity |].
    unfold rowCount, bind, get_object, isValid. cbn [row column hasModel internalPointer].
    replace (0 <=? pr) with true by (symmetry; apply Z.leb_le; exact Hpr).
    replace (0 <=? pc) with true by (symmetry; apply Z.leb_le; exact Hpc).
    cbn. destruct (r <? 0); cbn; [destruct (c <? _) |]; eexists; reflexivity.
Qed.
Lemma index_scenario_witness :
  index dcmtk_good 7 0 QModelIndex_invalid (loaded scenario_dataset)
  = Ok QModelIndex_invalid (loaded scenario_dataset).
Proof.
  pose proof (index_scenario dcmtk_good
                EVR_PN 2 [x41; x20]
                EVR_DA 8 [x32; x30; x32; x34; x30; x31; x30; x31]
                EVR_LO 2 [x42; x20] false []) as H.
  cbv zeta in H. destruct H as (_ & _ & _ & H & _).
  apply H. lia.
Defined.

(* ------------------------------------------------------------------------- *)
(** ** Value edits *)

Section Value_edits.

Variable tk : Dcmtk.

Lemma dynamic_cast_DcmElement_live m p o :
  deref p m = Ok o m ->
  dynamic_cast_DcmElement (Some p) m
  = Ok (match o with ObjElement e => Some (p, e) | ObjItem _ => None end) m.
Proof. intros H. unfold dynamic_cast_DcmElement, bind. rewrite H. reflexivity. Qed.

(** What [set_value] does to an element that passes the policy: the
    element is overwritten by what [putString] leaves, the value-changed
    notification is sent and the file marked dirty, and a bad condition is
    thrown after all of that. *)
Lemma set_value_whitelisted file tr index p e value status e' :
  addresses (mkModel (Some file) tr) index p (ObjElement e) ->
  is_allowed_edit_tag (Some e) = true ->
  putString tk e value = (status, e') ->
  let m' :=
    mkModel
      (Some (mkDicom_file
               (keep_item (dataset file)
                  (modify (fun _ => ObjElement e') p (ObjItem (dataset file))))
               true))
      (tr ++ [Dcm_putString p value; dataChanged index index; dataset_changed]) in
  set_value tk index value (mkModel (Some file) tr)
  = if bad status then Throw (text_of status) m' else Ok tt m'.
Proof.
  intros H Hallowed Hput m'. unfold set_value, bind.
  rewrite (get_object_addresses _ _ _ _ H).
  destruct H as (_ & _ & H).
  rewrite (dynamic_cast_DcmElement_live _ _ _ H).
  rewrite Hallowed. cbn [negb].
  unfold element_putString, bind. rewrite Hput. cbn.
  subst m'. rewrite <- !app_assoc. cbn [app].
  destruct (bad status); reflexivity.
Qed.

Lemma set_value_from_file_whitelisted file tr index p e path status e' :
  addresses (mkModel (Some file) tr) index p (ObjElement e) ->
  is_allowed_edit_tag (Some e) = true ->
  Z.even (getFileSize tk path) = true ->
  createValueFromTempFile tk e path (to_uint32 (getFileSize tk path)) = (status, e') ->
  let m' :=
    mkModel
      (Some (mkDicom_file
               (keep_item (dataset file)
                  (modify (fun _ => ObjElement e') p (ObjItem (dataset file))))
               true))
      (tr ++ [Dcm_createValueFromTempFile p path (to_uint32 (getFileSize tk path));
              dataChanged index index; dataset_changed]) in
  set_value_from_file tk index path (mkModel (Some file) tr)
  = if bad status then Throw (text_of status) m' else Ok tt m'.
Proof.
  intros H Hallowed Heven Hcreate m'. unfold set_value_from_file, bind.
  rewrite (get_object_addresses _ _ _ _ H).
  destruct H as (_ & _ & H).
  rewrite (dynamic_cast_DcmElement_live _ _ _ H).
  rewrite Hallowed. cbn [negb].
  rewrite to_uint32_parity, Zmod_even, Heven. cbn [Z.eqb negb].
  unfold element_createValueFromTempFile, bind. rewrite Hcreate. cbn.
  subst m'. rewrite <- !app_assoc. cbn [app].
  destruct (bad status); reflexivity.
Qed.

(** What the two setters do to an element that does not pass the policy:
    a log line and nothing else. *)
Lemma set_value_denied m index p e value :
  addresses m index p (ObjElement e) ->
  is_allowed_edit_tag (Some e) = false ->
  set_value tk index value m
  = Ok tt (mkModel (current_file m)
                   (trace m ++ [Log Log_info "Ignoring edit to non-whitelisted tag."])).
Proof.
  intros H Hdenied. unfold set_value, bind.
  rewrite (get_object_addresses _ _ _ _ H).
  destruct H as (_ & _ & H).
  rewrite (dynamic_cast_DcmElement_live _ _ _ H).
  rewrite Hdenied. reflexivity.
Qed.

Lemma set_value_from_file_denied m index p e path :
  addresses m index p (ObjElement e) ->
  is_allowed_edit_tag (Some e) = false ->
  set_value_from_file tk index path m
  = Ok tt (mkModel (current_file m)
                   (trace m ++
                    [Log Log_info "Ignoring file-based edit to non-whitelisted tag."])).
Proof.
  intros H Hdenied. unfold set_value_from_file, bind.
  rewrite (get_object_addresses _ _ _ _ H).
  destruct H as (_ & _ & H).
  rewrite (dynamic_cast_DcmElement_live _ _ _ H).
  rewrite Hdenied. reflexivity.
Qed.

(** The parity check of [set_value_from_file] comes before any effect. *)
Lemma set_value_from_file_odd m index p e path :
  addresses m index p (ObjElement e) ->
  is_allowed_edit_tag (Some e) = true ->
  Z.odd (getFileSize tk path) = true ->
  set_value_from_file tk index path m = Throw "file size must be even" m.
Proof.
  intros H Hallowed Hodd. unfold set_value_from_file, bind.
  rewrite (get_object_addresses _ _ _ _ H).
  destruct H as (_ & _ & H).
  rewrite (dynamic_cast_DcmElement_live _ _ _ H).
  rewrite Hallowed. cbn [negb].
  rewrite to_uint32_parity, Zmod_odd, Hodd. reflexivity.
Qed.

Lemma flags_element m index p e :
  addresses m index p (ObjElement e) ->
  flags index m
  = Ok (if (column index =? 3) && is_allowed_edit_tag (Some e) then 35 else 33) m.
Proof.
  intros H. unfold flags, bind.
  destruct H as (Hv & Hp & H). rewrite Hv. cbn [negb].
  rewrite (get_object_valid _ _ _ Hv Hp).
  rewrite (dynamic_cast_DcmElement_live _ _ _ H).
  destruct ((column index =? 3) && is_allowed_edit_tag (Some e)); reflexivity.
Qed.

End Value_edits.

(** C5. For an address of an element whose tag is not whitelisted (a leaf in
    particular), [set_value] with any text returns normally; the state it
    leaves differs from the one before only by the log line: the same
    element with the same bytes is at the address, no value-changed
    notification was sent, and the dirty flag is what it was. *)
Theorem set_value_not_whitelisted :
  forall (tk : Dcmtk) m index p e (value : string),
    addresses m index p (ObjElement e) ->
    is_allowed_edit_tag (Some e) = false ->
    exists m',
      set_value tk index value m = Ok tt m' /\
      current_file m' = current_file m /\
      trace m' = trace m ++ [Log Log_info "Ignoring edit to non-whitelisted tag."] /\
      addresses m' index p (ObjElement e) /\
      dirty m' = dirty m.
Proof.
  intros tk [cf tr] index p e value H Hdenied.
  eexists. split; [apply (set_value_denied tk _ _ _ _ value H Hdenied) |].
  cbn. repeat split; try apply H.
  destruct H as (_ & _ & H). eapply deref_trace. exact H.
Qed.

Lemma set_value_not_whitelisted_witness :
  exists m',
    set_value dcmtk_good (createIndex 0 3 [1%nat]) "20250101" (loaded scenario_dataset)
    = Ok tt m' /\
    current_file m' = current_file (loaded scenario_dataset) /\
    trace m' = [Log Log_info "Ignoring edit to non-whitelisted tag."] /\
    addresses m' (createIndex 0 3 [1%nat]) [1%nat]
      (ObjElement (Leaf StudyDate EVR_DA 8 [x32; x30; x32; x34; x30; x31; x30; x31])) /\
    dirty m' = Some false.
Proof.
  apply (set_value_not_whitelisted dcmtk_good (loaded scenario_dataset)
           (createIndex 0 3 [1%nat]) [1%nat]
           (Leaf StudyDate EVR_DA 8 [x32; x30; x32; x34; x30; x31; x30; x31])).
  - repeat split.
  - reflexivity.
Defined.

(** C6. For an address of a whitelisted element and a file of odd size,
    [set_value_from_file] throws "file size must be even" and leaves the
    state as it was: no DCMTK call, no notification, no dirty marking. *)
Theorem set_value_from_file_odd_size :
  forall (tk : Dcmtk) m index p e (file_path : string),
    addresses m index p (ObjElement e) ->
    is_allowed_edit_tag (Some e) = true ->
    Z.odd (getFileSize tk file_path) = true ->
    set_value_from_file tk index file_path m = Throw "file size must be even" m.
Proof.
  intros tk m index p e file_path H Hallowed Hodd.
  unfold set_value_from_file, bind.
  rewrite (get_object_addresses _ _ _ _ H).
  destruct H as (_ & _ & H).
  rewrite (dynamic_cast_DcmElement_live _ _ _ H).
  rewrite Hallowed. cbn [negb].
  assert (Hparity : to_uint32 (getFileSize tk file_path) mod 2 = 1)
    by (rewrite to_uint32_parity, Zmod_odd, Hodd; reflexivity).
  rewrite Hparity. reflexivity.
Qed.

Lemma set_value_from_file_odd_size_witness :
  set_value_from_file dcmtk_failing (createIndex 0 3 [0%nat]) "name.bin"
    (loaded scenario_dataset)
  = Throw "file size must be even" (loaded scenario_dataset).
Proof.
  apply (set_value_from_file_odd_size dcmtk_failing (loaded scenario_dataset)
           (createIndex 0 3 [0%nat]) [0%nat] (Leaf PatientName EVR_PN 2 [x41; x20])).
  - repeat split.
  - reflexivity.
  - reflexivity.
Defined.


Lemma added_app {A} (r : result A) cf tr t :
  final_state r = Some (mkModel cf (tr ++ t)) -> added (length tr) r = t.
Proof. intros H. unfold added. rewrite H. cbn. apply drop_app_length. Qed.

Lemma added_if {A} (b : bool) w (a : A) cf tr t :
  added (length tr)
        (if b then Throw w (mkModel cf (tr ++ t)) else Ok a (mkModel cf (tr ++ t)))
  = t.
Proof. apply (added_app _ cf). destruct b; reflexivity. Qed.

(** C4. For an address of an element, each of the four paths decides by
    [is_allowed_edit_tag] of that element: [set_value] writes a value exactly
    when the predicate holds, [set_value_from_file] exactly when it holds and
    the file size is even, [setData] with the edit role exactly when it
    holds (and otherwise returns false without any effect), and [flags]
    carries the editable bit exactly when it holds and the column is 3. *)
Theorem edit_paths_share_policy :
  forall (tk : Dcmtk) m index p e (value file_path : string),
    addresses m index p (ObjElement e) ->
    let allowed := is_allowed_edit_tag (Some e) in
    value_written m (set_value tk index value m) = allowed /\
    value_written m (set_value_from_file tk index file_path m)
    = allowed && Z.even (getFileSize tk file_path) /\
    value_written m (setData tk index value Qt.EditRole m) = allowed /\
    (allowed = false -> setData tk index value Qt.EditRole m = Ok false m) /\
    exists fl,
      flags index m = Ok fl m /\
      negb (Z.land fl Qt.ItemIsEditable =? 0) = (column index =? 3) && allowed.
Proof.
  intros tk [cf tr] index p e value file_path H allowed.
  assert (Hfile : exists file, cf = Some file).
  { destruct H as (_ & _ & H). apply deref_inv in H as [_ (f & Hf & _)]. eauto. }
  destruct Hfile as [file ->].
  assert (Hset : value_written (mkModel (Some file) tr)
                   (set_value tk index value (mkModel (Some file) tr)) = allowed).
  { unfold value_written. cbn [trace]. subst allowed.
    destruct (is_allowed_edit_tag (Some e)) eqn:Hp.
    - destruct (putString tk e value) as [status e'] eqn:Hput.
      rewrite (set_value_whitelisted tk _ _ _ _ _ _ _ _ H Hp Hput).
      cbv zeta. rewrite added_if. reflexivity.
    - rewrite (set_value_denied tk _ _ _ _ value H Hp).
      erewrite added_app by reflexivity. reflexivity. }
  split; [exact Hset |]. split; [| split; [| split]].
  - unfold value_written. cbn [trace]. subst allowed.
    destruct (is_allowed_edit_tag (Some e)) eqn:Hp.
    + destruct (Z.even (getFileSize tk file_path)) eqn:Heven.
      * destruct (createValueFromTempFile tk e file_path
                    (to_uint32 (getFileSize tk file_path))) as [status e'] eqn:Hc.
        rewrite (set_value_from_file_whitelisted tk _ _ _ _ _ _ _ _ H Hp Heven Hc).
        cbv zeta. rewrite added_if. reflexivity.
      * rewrite (set_value_from_file_odd tk _ _ _ _ file_path H Hp).
        -- unfold added. cbn. rewrite drop_all. reflexivity.
        -- rewrite <- Z.negb_even, Heven. reflexivity.
    + rewrite (set_value_from_file_denied tk _ _ _ _ file_path H Hp).
      erewrite added_app by reflexivity. reflexivity.
  - unfold value_written. cbn [trace]. subst allowed.
    unfold setData, bind.
    destruct H as (Hv & Hpt & H). rewrite Hv.
    change (negb (Qt.EditRole =? Qt.EditRole)) with false. cbn [negb].
    rewrite (get_object_valid _ _ _ Hv Hpt).
    rewrite (dynamic_cast_DcmElement_live _ _ _ H).
    destruct (is_allowed_edit_tag (Some e)) eqn:Hp; cbn [negb].
    + unfold try_catch, bind.
      destruct (putString tk e value) as [status e'] eqn:Hput.
      rewrite (set_value_whitelisted tk _ _ _ _ _ _ _ _ (conj Hv (conj Hpt H)) Hp Hput).
      destruct (bad status).
      * erewrite added_app by reflexivity. reflexivity.
      * erewrite added_app by (cbn; rewrite <- app_assoc; reflexivity). reflexivity.
    + unfold added. cbn. rewrite drop_all. reflexivity.
  - intros Hp. subst allowed. unfold setData, bind.
    destruct H as (Hv & Hpt & H). rewrite Hv.
    change (negb (Qt.EditRole =? Qt.EditRole)) with false. cbn [negb].
    rewrite (get_object_valid _ _ _ Hv Hpt).
    rewrite (dynamic_cast_DcmElement_live _ _ _ H).
    rewrite Hp. reflexivity.
  - rewrite (flags_element _ _ _ _ H). eexists. split; [reflexivity |].
    subst allowed.
    destruct ((column index =? 3) && is_allowed_edit_tag (Some e)); reflexivity.
Qed.

Lemma edit_paths_share_policy_witness :
  value_written (loaded scenario_dataset)
    (set_value dcmtk_good (createIndex 0 3 [0%nat]) "Doe^John" (loaded scenario_dataset))
  = true.
Proof.
  assert (H : addresses (loaded scenario_dataset) (createIndex 0 3 [0%nat]) [0%nat]
                (ObjElement (Leaf PatientName EVR_PN 2 [x41; x20])))
    by (repeat split).
  exact (proj1 (edit_paths_share_policy dcmtk_good _ _ _ _ "Doe^John" "name.bin" H)).
Defined.

(* ------------------------------------------------------------------------- *)
(** ** Paths and in-place changes *)

Lemma resolve_app o p q :
  resolve o (p ++ q) = resolve o p ≫= fun o' => resolve o' q.
Proof.
  revert o. induction p as [| i p IH]; intros o; [reflexivity |].
  cbn [app resolve]. destruct (children o !! i); [apply IH | reflexivity].
Qed.

Lemma resolve_prefix o p q x :
  resolve o (p ++ q) = Some x -> exists y, resolve o p = Some y /\ resolve y q = Some x.
Proof.
  rewrite resolve_app. destruct (resolve o p) as [y |]; [| discriminate].
  cbn. eauto.
Qed.

(** After a change at [p] that keeps the base class, the changed object is
    what [p] leads to. *)
Lemma resolve_modify f p :
  forall o x,
    resolve o p = Some x -> same_kind x (f x) ->
    resolve (modify f p o) p = Some (f x) /\ same_kind o (modify f p o).
Proof.
  induction p as [| i p IH]; intros o x Hr Hk.
  - cbn in *. injection Hr as ->. auto.
  - cbn [resolve] in Hr. cbn [modify resolve].
    destruct o as [[tag vr len v | tag its] | [c els]]; cbn [children] in *.
    + rewrite lookup_nil in Hr. discriminate.
    + rewrite list_lookup_fmap in Hr.
      destruct (its !! i) as [it |] eqn:Hi; [| discriminate]. cbn in Hr.
      destruct (IH _ _ Hr Hk) as [Hr' Hk'].
      split; [| exact I].
      rewrite list_lookup_fmap, list_lookup_alter_eq, Hi. cbn.
      destruct (modify f p (ObjItem it)) as [? | it']; [destruct Hk' |].
      exact Hr'.
    + rewrite list_lookup_fmap in Hr.
      destruct (els !! i) as [e |] eqn:Hi; [| discriminate]. cbn in Hr.
      destruct (IH _ _ Hr Hk) as [Hr' Hk'].
      split; [| exact I].
      rewrite list_lookup_fmap, list_lookup_alter_eq, Hi. cbn.
      destruct (modify f p (ObjElement e)) as [e' | ?]; [| destruct Hk'].
      exact Hr'.
Qed.

Lemma resolve_modify_dataset f p ds x :
  resolve (ObjItem ds) p = Some x -> same_kind x (f x) ->
  resolve (ObjItem (keep_item ds (modify f p (ObjItem ds)))) p = Some (f x).
Proof.
  intros Hr Hk. destruct (resolve_modify f p _ _ Hr Hk) as [Hr' Hk'].
  destruct (modify f p (ObjItem ds)) as [? | ds']; [destruct Hk' |].
  exact Hr'.
Qed.

Lemma DcmPtr_eqb_nil p : DcmPtr_eqb p [] = true <-> p = [].
Proof. destruct p; cbn; split; congruence. Qed.

(* ------------------------------------------------------------------------- *)
(** ** Bracket scans of computations *)

Lemma bracket_scan_app s t1 t2 :
  bracket_scan s (t1 ++ t2) = bracket_scan s t1 ≫= fun s' => bracket_scan s' t2.
Proof.
  revert s. induction t1 as [| e t1 IH]; intros s; [reflexivity |].
  cbn. destruct (bracket_step s e); [apply IH | reflexivity].
Qed.

Lemma scans_ret {A} (a : A) s (Q : A -> Bracket -> Prop) E :
  Q a s -> scans (ret a) s Q E.
Proof. intros H m. exists [], s. rewrite app_nil_r. auto. Qed.

Lemma scans_throw {A} w s (Q : A -> Bracket -> Prop) (E : Bracket -> Prop) :
  E s -> scans (throw w) s Q E.
Proof. intros H m. exists [], s. rewrite app_nil_r. auto. Qed.

Lemma scans_fault {A} s (Q : A -> Bracket -> Prop) E : scans fault s Q E.
Proof. intros m. exact I. Qed.

Lemma scans_emit e s s' (Q : unit -> Bracket -> Prop) E :
  bracket_step s e = Some s' -> Q tt s' -> scans (emit e) s Q E.
Proof.
  intros Hstep H m. exists [e], s'. cbn. rewrite Hstep. auto.
Qed.

Lemma scans_bind {A B} (c : Op A) (k : A -> Op B) s Q (Q' : B -> Bracket -> Prop) E :
  scans c s Q E ->
  (forall a s', Q a s' -> scans (k a) s' Q' E) ->
  scans (bind c k) s Q' E.
Proof.
  intros Hc Hk m. unfold bind. specialize (Hc m).
  destruct (c m) as [a m1 | w m1 |]; [| exact Hc | exact I].
  destruct Hc as (t1 & s1 & Ht1 & Hs1 & HQ).
  specialize (Hk a s1 HQ m1).
  destruct (k a m1) as [b m2 | w m2 |]; [| | exact I];
    destruct Hk as (t2 & s2 & Ht2 & Hs2 & H2);
    exists (t1 ++ t2), s2;
    (split; [rewrite Ht2, Ht1, app_assoc; reflexivity |]);
    (split; [rewrite bracket_scan_app, Hs1; exact Hs2 | exact H2]).
Qed.

Lemma scans_weaken {A} (c : Op A) s (Q Q' : A -> Bracket -> Prop) (E E' : Bracket -> Prop) :
  scans c s Q E ->
  (forall a s', Q a s' -> Q' a s') -> (forall s', E s' -> E' s') ->
  scans c s Q' E'.
Proof.
  intros Hc HQ HE m. specialize (Hc m).
  destruct (c m) as [a m1 | w m1 |]; [| | exact I];
    destruct Hc as (t & s' & Ht & Hs & H); exists t, s'; auto.
Qed.

(** A quiet computation in front of [k] leaves the scan where it stood. *)
(** A computation that keeps the scan where it stands, in front of [k]. *)
Lemma scans_keep_bind {A B} (c : Op A) (k : A -> Op B) s (Q : B -> Bracket -> Prop) E :
  scans c s (fun _ s' => s' = s) (fun _ => False) ->
  (forall a, scans (k a) s Q E) ->
  scans (bind c k) s Q E.
Proof.
  intros Hc Hk.
  apply (scans_bind c k s (fun _ s' => s' = s)).
  - eapply scans_weaken; [apply Hc | auto | intros s' []].
  - intros a s' ->. apply Hk.
Qed.

Lemma scans_quiet_bind {A B} (c : Op A) (k : A -> Op B) s (Q : B -> Bracket -> Prop) E :
  quiet c -> (forall a, scans (k a) s Q E) -> scans (bind c k) s Q E.
Proof. intros Hc. apply scans_keep_bind. apply Hc. Qed.

(** An event the scan accepts, in front of [k]. *)
Lemma scans_emit_bind {B} e (k : unit -> Op B) s s' (Q : B -> Bracket -> Prop) E :
  bracket_step s e = Some s' ->
  scans (k tt) s' Q E ->
  scans (bind (emit e) k) s Q E.
Proof.
  intros Hstep Hk.
  apply (scans_bind _ _ _ (fun _ s'' => s'' = s')).
  - apply (scans_emit _ s s'); [exact Hstep | reflexivity].
  - intros [] s'' ->. exact Hk.
Qed.

Lemma quiet_ret {A} (a : A) : quiet (ret a).
Proof. intros s. apply scans_ret. reflexivity. Qed.

Lemma quiet_fault {A} : quiet (@fault A).
Proof. intros s. apply scans_fault. Qed.

Lemma quiet_bind {A B} (c : Op A) (k : A -> Op B) :
  quiet c -> (forall a, quiet (k a)) -> quiet (bind c k).
Proof.
  intros Hc Hk s. apply scans_quiet_bind; [exact Hc |].
  intros a. apply Hk.
Qed.

Lemma quiet_log level msg : quiet (log level msg).
Proof. intros s. apply (scans_emit _ s s); [destruct s |]; reflexivity. Qed.

Lemma quiet_same_trace {A} (c : Op A) :
  (forall m, match c m with
             | Ok _ m' => trace m' = trace m
             | Throw _ _ => False
             | Fault => True
             end) ->
  quiet c.
Proof.
  intros H s m. specialize (H m).
  destruct (c m) as [a m1 | w m1 |]; [| destruct H | exact I].
  exists [], s. rewrite app_nil_r. auto.
Qed.

Lemma quiet_deref p : quiet (deref p).
Proof.
  apply quiet_same_trace. intros m. unfold deref.
  destruct (current_file m) as [f |]; [| exact I].
  destruct (resolve (ObjItem (dataset f)) p); [reflexivity | exact I].
Qed.

Lemma quiet_update_at p f : quiet (update_at p f).
Proof.
  apply quiet_same_trace. intros m. unfold update_at.
  destruct (current_file m); [reflexivity | exact I].
Qed.

Lemma quiet_mark_as_modified : quiet mark_as_modified.
Proof.
  intros s m. unfold mark_as_modified.
  destruct (current_file m); [| exact I].
  cbn. exists [dataset_changed], s. destruct s; auto.
Qed.

Lemma quiet_get_dataset : quiet get_dataset.
Proof.
  intros s m. unfold get_dataset.
  destruct (current_file m).
  - apply quiet_ret.
  - apply quiet_bind; [apply quiet_log | intros; apply quiet_ret].
Qed.

Lemma quiet_get_object index : quiet (get_object index).
Proof.
  unfold get_object. destruct (negb (isValid index)); [apply quiet_get_dataset |].
  destruct (internalPointer index).
  - apply quiet_ret.
  - apply quiet_bind; [apply quiet_log | intros; apply quiet_ret].
Qed.

Lemma quiet_getParent p : quiet (getParent p).
Proof.
  unfold getParent. apply quiet_bind; [apply quiet_deref | intros; apply quiet_ret].
Qed.

Lemma quiet_dynamic_cast_DcmElement object : quiet (dynamic_cast_DcmElement object).
Proof.
  destruct object as [p |]; cbn; [| apply quiet_ret].
  apply quiet_bind; [apply quiet_deref | intros; apply quiet_ret].
Qed.

Lemma quiet_dynamic_cast_DcmSequenceOfItems object :
  quiet (dynamic_cast_DcmSequenceOfItems object).
Proof.
  destruct object as [p |]; cbn; [| apply quiet_ret].
  apply quiet_bind; [apply quiet_deref | intros; apply quiet_ret].
Qed.

Lemma quiet_rowCount tk index : quiet (rowCount tk index).
Proof.
  unfold rowCount. apply quiet_bind; [apply quiet_get_object |].
  intros [p |]; [| apply quiet_ret].
  apply quiet_bind; [apply quiet_deref |].
  intros o. destruct (isLeaf o); apply quiet_ret.
Qed.

Lemma quiet_parent gin index : quiet (parent gin index).
Proof.
  unfold parent. destruct (negb (isValid index)); [apply quiet_ret |].
  apply quiet_bind; [apply quiet_get_object |]. intros object.
  apply quiet_bind.
  { destruct object; [apply quiet_getParent | apply quiet_ret]. }
  intros [pp |]; [| apply quiet_ret].
  apply quiet_bind; [apply quiet_get_dataset |]. intros ds.
  destruct (match ds with Some d => DcmPtr_eqb pp d | None => false end);
    [apply quiet_ret |].
  apply quiet_same_trace. intros m.
  destruct (current_file m); [reflexivity | exact I].
Qed.

Section Structural_scans.

Variable tk : Dcmtk.
Variable get_index_nr : DcmItem -> DcmPtr -> Z.
Variable to_string_DcmEVR : DcmEVR -> string.

Lemma scans_sq_append sq :
  scans (sq_append tk sq) InInsert (fun _ s' => s' = InInsert) (fun _ => False).
Proof.
  unfold sq_append. apply scans_quiet_bind; [apply quiet_deref |].
  intros [[tag vr len v | t its] | it]; try apply scans_fault.
  apply (scans_emit_bind _ _ InInsert InInsert); [reflexivity |].
  apply scans_quiet_bind.
  { destruct (bad (append_status tk its)); [apply quiet_ret | apply quiet_update_at]. }
  intros _. apply scans_ret. reflexivity.
Qed.

Lemma scans_item_remove item num :
  scans (item_remove item num) InRemove (fun _ s' => s' = InRemove) (fun _ => False).
Proof.
  unfold item_remove. apply scans_quiet_bind; [apply quiet_deref |].
  intros [e | [c els]]; [apply scans_fault |].
  apply (scans_emit_bind _ _ InRemove InRemove); [reflexivity |].
  destruct (els !! Z.to_nat num); [| apply scans_ret; reflexivity].
  apply scans_quiet_bind; [apply quiet_update_at |].
  intros _. apply scans_ret. reflexivity.
Qed.

Lemma scans_sq_remove sq num :
  scans (sq_remove sq num) InRemove (fun _ s' => s' = InRemove) (fun _ => False).
Proof.
  unfold sq_remove. apply scans_quiet_bind; [apply quiet_deref |].
  intros [[tag vr len v | t its] | it]; try apply scans_fault.
  apply (scans_emit_bind _ _ InRemove InRemove); [reflexivity |].
  destruct (its !! Z.to_nat num); [| apply scans_ret; reflexivity].
  apply scans_quiet_bind; [apply quiet_update_at |].
  intros _. apply scans_ret. reflexivity.
Qed.

(** [add_item] opens at most one insert bracket, calls [append] inside
    it, and throws only outside of it. *)
Lemma scans_add_item index :
  scans (add_item tk index) Outside
        (fun _ s' => s' = Outside) (fun s' => s' = Outside).
Proof.
  unfold add_item.
  apply scans_quiet_bind; [apply quiet_get_object |]. intros object.
  apply scans_quiet_bind; [apply quiet_dynamic_cast_DcmSequenceOfItems |].
  intros [[p its] |]; [| apply scans_throw; reflexivity].
  apply scans_quiet_bind; [apply quiet_rowCount |]. intros item_pos.
  apply (scans_emit_bind _ _ Outside InInsert); [reflexivity |].
  apply scans_keep_bind; [apply scans_sq_append |]. intros status.
  apply (scans_emit_bind _ _ InInsert Outside); [reflexivity |].
  apply scans_quiet_bind; [apply quiet_mark_as_modified |]. intros _.
  destruct (bad status); [apply scans_throw | apply scans_ret]; reflexivity.
Qed.

(** [delete_index] opens at most one remove bracket, calls [remove] and
    frees the removed object inside it, and throws only outside of it. *)
Lemma scans_delete_index index :
  scans (delete_index get_index_nr to_string_DcmEVR index) Outside
        (fun _ s' => s' = Outside) (fun s' => s' = Outside).
Proof.
  unfold delete_index.
  destruct (negb (isValid index)); [apply scans_throw; reflexivity |].
  apply scans_quiet_bind; [apply quiet_parent |]. intros pidx.
  apply scans_quiet_bind; [apply quiet_get_object |].
  intros [pp |]; [| apply scans_throw; reflexivity].
  apply scans_quiet_bind; [apply quiet_deref |]. intros o.
  apply scans_quiet_bind; [apply quiet_parent |]. intros pidx'.
  apply (scans_emit_bind _ _ Outside InRemove); [reflexivity |].
  apply scans_keep_bind.
  { destruct (DcmEVR_eqb (ident o) EVR_item || DcmEVR_eqb (ident o) EVR_dataset).
    - apply scans_keep_bind; [apply scans_item_remove |]. intros element.
      apply (scans_emit_bind _ _ InRemove InRemove); [reflexivity |].
      apply scans_ret. reflexivity.
    - destruct (DcmEVR_eqb (ident o) EVR_SQ); [| apply scans_ret; reflexivity].
      apply scans_keep_bind; [apply scans_sq_remove |]. intros item.
      apply (scans_emit_bind _ _ InRemove InRemove); [reflexivity |].
      apply scans_ret. reflexivity. }
  intros bad_vr.
  apply (scans_emit_bind _ _ InRemove Outside); [reflexivity |].
  apply scans_quiet_bind; [apply quiet_mark_as_modified |]. intros _.
  destruct bad_vr; [apply scans_throw | apply scans_ret]; reflexivity.
Qed.

End Structural_scans.

(* ------------------------------------------------------------------------- *)
(** ** Structural edits at live addresses *)

Section Structural_edits.

Variable tk : Dcmtk.
Variable get_index_nr : DcmItem -> DcmPtr -> Z.
Variable to_string_DcmEVR : DcmEVR -> string.

Lemma addresses_inv file tr index p o :
  addresses (mkModel (Some file) tr) index p o ->
  isValid index = true /\ internalPointer index = Some p /\
  resolve (ObjItem (dataset file)) p = Some o.
Proof.
  intros (Hv & Hp & H). apply deref_inv in H as [_ (f & Hf & Hr)].
  cbn in Hf. injection Hf as <-. auto.
Qed.

(** What [add_item] does at an address of a sequence. *)
Lemma add_item_sequence file tr index p t its :
  addresses (mkModel (Some file) tr) index p (ObjElement (DcmSequenceOfItems t its)) ->
  let status := append_status tk its in
  let ds' :=
    if bad status then dataset file
    else keep_item (dataset file)
           (modify (fun _ => ObjElement (DcmSequenceOfItems t (its ++ [new_DcmItem])))
                   p (ObjItem (dataset file))) in
  let m' :=
    mkModel (Some (mkDicom_file ds' true))
            (tr ++ [beginInsertRows index 0 0; Dcm_append p; endInsertRows;
                    dataset_changed]) in
  add_item tk index (mkModel (Some file) tr)
  = if bad status then Throw (text_of status) m' else Ok tt m'.
Proof.
  intros H status ds' m'. unfold add_item, bind.
  rewrite (get_object_addresses _ _ _ _ H).
  pose proof (rowCount_sequence tk _ _ _ _ _ H) as Hrows.
  apply addresses_inv in H as (Hv & Hp & Hr).
  unfold dynamic_cast_DcmSequenceOfItems, bind, deref.
  cbn [current_file]. rewrite Hr. cbn [ret]. rewrite Hrows.
  unfold sq_append, bind, deref.
  cbn. rewrite Hr.
  subst m' ds' status.
  destruct (append_status tk its) as [| text]; cbn;
    rewrite <- !app_assoc; reflexivity.
Qed.

(** The parent index of a live address leads to a live object. *)
Lemma parent_live file tr index p o :
  addresses (mkModel (Some file) tr) index p o ->
  exists pidx q po,
    parent get_index_nr index (mkModel (Some file) tr) = Ok pidx (mkModel (Some file) tr) /\
    get_object pidx (mkModel (Some file) tr) = Ok (Some q) (mkModel (Some file) tr) /\
    resolve (ObjItem (dataset file)) q = Some po /\
    isLeaf po = false.
Proof.
  intros H. apply addresses_inv in H as (Hv & Hp & Hr).
  unfold parent, bind. rewrite Hv. cbn [negb].
  rewrite (get_object_valid _ _ _ Hv Hp).
  unfold getParent, bind, deref. cbn. rewrite Hr. cbn.
  destruct p as [| i p'].
  - cbn. exists QModelIndex_invalid, [], (ObjItem (dataset file)). auto.
  - cbn -[removelast].
    destruct (DcmPtr_eqb (removelast (i :: p')) []) eqn:Hroot.
    + exists QModelIndex_invalid, [], (ObjItem (dataset file)). auto.
    + destruct (0 <=? get_index_nr (dataset file) (removelast (i :: p'))) eqn:Hrow.
      * destruct (resolve_prefix (ObjItem (dataset file))
                    (removelast (i :: p')) [List.last (i :: p') 0%nat] o)
          as (po & Hpo & Hlast).
        { rewrite <- app_removelast_last by discriminate. exact Hr. }
        eexists _, (removelast (i :: p')), po.
        split; [reflexivity |]. split; [| split; [exact Hpo |]].
        -- unfold get_object, isValid. cbn -[removelast]. rewrite Hrow. reflexivity.
        -- destruct po as [[tag vr len v | t its] | it]; try reflexivity.
           cbn in Hlast. rewrite lookup_nil in Hlast. discriminate.
      * eexists _, [], (ObjItem (dataset file)).
        split; [reflexivity |]. split; [| split; reflexivity].
        unfold get_object, isValid. cbn -[removelast]. rewrite Hrow. reflexivity.
Qed.

(** The parent index of the [k]-th child of the object at [pp]. *)
Lemma parent_of_child file tr index pp k o :
  addresses (mkModel (Some file) tr) index (pp ++ [k]) o ->
  0 <= get_index_nr (dataset file) pp ->
  let pidx := if DcmPtr_eqb pp [] then QModelIndex_invalid
              else createIndex (get_index_nr (dataset file) pp) 0 pp in
  parent get_index_nr index (mkModel (Some file) tr) = Ok pidx (mkModel (Some file) tr) /\
  get_object pidx (mkModel (Some file) tr) = Ok (Some pp) (mkModel (Some file) tr).
Proof.
  intros H Hrow pidx. apply addresses_inv in H as (Hv & Hp & Hr).
  unfold parent, bind. rewrite Hv. cbn [negb].
  rewrite (get_object_valid _ _ _ Hv Hp).
  unfold getParent, bind, deref. cbn -[removelast]. rewrite Hr. cbn -[removelast].
  destruct (pp ++ [k]) as [| i p'] eqn:Hp'; [destruct pp; discriminate |].
  rewrite <- Hp', removelast_last. cbn -[removelast].
  subst pidx. destruct (DcmPtr_eqb pp []) eqn:Hroot.
  - apply DcmPtr_eqb_nil in Hroot. subst pp. auto.
  - split; [reflexivity |].
    unfold get_object, isValid. cbn.
    replace (0 <=? get_index_nr (dataset file) pp) with true
      by (symmetry; apply Z.leb_le; exact Hrow).
    reflexivity.
Qed.

(** [delete_index] when the parent object is an item or a dataset: the
    element at the raw position given by the row is unlinked and freed
    inside the bracket; when there is none, nothing is unlinked. *)
Lemma delete_index_under_item file tr index pidx q c els :
  isValid index = true ->
  parent get_index_nr index (mkModel (Some file) tr) = Ok pidx (mkModel (Some file) tr) ->
  get_object pidx (mkModel (Some file) tr) = Ok (Some q) (mkModel (Some file) tr) ->
  resolve (ObjItem (dataset file)) q = Some (ObjItem (MkDcmItem c els)) ->
  c = Class_DcmItem \/ c = Class_DcmDataset ->
  let r := row index in
  let n := Z.to_nat (to_ulong r) in
  let ds' :=
    match els !! n with
    | Some _ =>
        keep_item (dataset file)
          (modify (fun _ => ObjItem (MkDcmItem c (delete n els))) q (ObjItem (dataset file)))
    | None => dataset file
    end in
  delete_index get_index_nr to_string_DcmEVR index (mkModel (Some file) tr)
  = Ok tt (mkModel (Some (mkDicom_file ds' true))
                   (tr ++ [beginRemoveRows pidx r r; Dcm_item_remove q (to_ulong r);
                           Dcm_delete (ObjElement <$> els !! n); endRemoveRows;
                           dataset_changed])).
Proof.
  intros Hv Hpar Hobj Hq Hc r n ds'. unfold delete_index, bind.
  rewrite Hv. cbn [negb]. rewrite Hpar, Hobj.
  unfold deref at 1. cbn [current_file]. rewrite Hq. rewrite Hpar.
  replace (DcmEVR_eqb (ident (ObjItem (MkDcmItem c els))) EVR_item
           || DcmEVR_eqb (ident (ObjItem (MkDcmItem c els))) EVR_dataset)
    with true by (destruct Hc as [-> | ->]; reflexivity).
  unfold item_remove, bind, deref. cbn. rewrite Hq. cbn.
  fold r. fold n. subst ds'.
  destruct (els !! n) as [e |]; cbn; rewrite <- !app_assoc; reflexivity.
Qed.

(** [delete_index] when the parent object is a sequence. *)
Lemma delete_index_under_sequence file tr index pidx q t its :
  isValid index = true ->
  parent get_index_nr index (mkModel (Some file) tr) = Ok pidx (mkModel (Some file) tr) ->
  get_object pidx (mkModel (Some file) tr) = Ok (Some q) (mkModel (Some file) tr) ->
  resolve (ObjItem (dataset file)) q = Some (ObjElement (DcmSequenceOfItems t its)) ->
  let r := row index in
  let n := Z.to_nat (to_ulong r) in
  let ds' :=
    match its !! n with
    | Some _ =>
        keep_item (dataset file)
          (modify (fun _ => ObjElement (DcmSequenceOfItems t (delete n its)))
                  q (ObjItem (dataset file)))
    | None => dataset file
    end in
  delete_index get_index_nr to_string_DcmEVR index (mkModel (Some file) tr)
  = Ok tt (mkModel (Some (mkDicom_file ds' true))
                   (tr ++ [beginRemoveRows pidx r r; Dcm_sq_remove q (to_ulong r);
                           Dcm_delete (ObjItem <$> its !! n); endRemoveRows;
                           dataset_changed])).
Proof.
  intros Hv Hpar Hobj Hq r n ds'. unfold delete_index, bind.
  rewrite Hv. cbn [negb]. rewrite Hpar, Hobj.
  unfold deref at 1. cbn [current_file]. rewrite Hq. rewrite Hpar.
  cbn [ident DcmEVR_eqb orb].
  unfold sq_remove, bind, deref. cbn. rewrite Hq. cbn.
  fold r. fold n. subst ds'.
  destruct (its !! n) as [it |]; cbn; rewrite <- !app_assoc; reflexivity.
Qed.

(** [delete_index] when the parent object is of any other kind: the
    bracket is opened and closed around nothing, the file is marked dirty,
    and only then the failure is thrown. *)
Lemma delete_index_unexpected file tr index pidx q po :
  isValid index = true ->
  parent get_index_nr index (mkModel (Some file) tr) = Ok pidx (mkModel (Some file) tr) ->
  get_object pidx (mkModel (Some file) tr) = Ok (Some q) (mkModel (Some file) tr) ->
  resolve (ObjItem (dataset file)) q = Some po ->
  expected_parent (ident po) = false ->
  let r := row index in
  delete_index get_index_nr to_string_DcmEVR index (mkModel (Some file) tr)
  = Throw ("Unexpected VR: " ++ to_string_DcmEVR (ident po))%string
          (mkModel (Some (mkDicom_file (dataset file) true))
                   (tr ++ [beginRemoveRows pidx r r; endRemoveRows; dataset_changed])).
Proof.
  intros Hv Hpar Hobj Hq Hvr r. unfold delete_index, bind.
  rewrite Hv. cbn [negb]. rewrite Hpar, Hobj.
  unfold deref at 1. cbn [current_file]. rewrite Hq. rewrite Hpar.
  unfold expected_parent in Hvr.
  apply orb_false_elim in Hvr as [Hvr ->]. rewrite Hvr.
  cbn. rewrite <- !app_assoc. reflexivity.
Qed.

End Structural_edits.

(** C7, as amended. On a valid index of a loaded file whose pointer is null
    or leads to a live object, so that the run passes the two checks at the
    entry, [delete_index] leaves the file dirty: it returns normally, also
    when the row is out of range and nothing was unlinked, or it throws
    "Unexpected VR" for a parent that is neither item, dataset nor sequence,
    in a state that is already marked dirty. *)
Theorem delete_index_marks_dirty :
  forall (get_index_nr : DcmItem -> DcmPtr -> Z) (to_string_DcmEVR : DcmEVR -> string)
         m file index,
    isValid index = true ->
    current_file m = Some file ->
    match internalPointer index with
    | Some p => is_Some (resolve (ObjItem (dataset file)) p)
    | None => True
    end ->
    exists m',
      dirty m' = Some true /\
      (delete_index get_index_nr to_string_DcmEVR index m = Ok tt m' \/
       exists vr,
         expected_parent vr = false /\
         delete_index get_index_nr to_string_DcmEVR index m
         = Throw ("Unexpected VR: " ++ to_string_DcmEVR vr)%string m').
Proof.
  intros gin ts [cf tr] file index Hv Hf Hlive. cbn in Hf. subst cf.
  destruct (internalPointer index) as [p |] eqn:Hp.
  - destruct Hlive as [o Hr].
    assert (H : addresses (mkModel (Some file) tr) index p o).
    { split; [exact Hv |]. split; [exact Hp |]. eapply deref_live; eauto. }
    destruct (parent_live gin _ _ _ _ _ H) as (pidx & q & po & Hpar & Hobj & Hq & Hleaf).
    destruct (expected_parent (ident po)) eqn:Hexp.
    + destruct po as [[tag vr len v | t its] | [c els]]; [discriminate | |].
      * eexists. split; [| left].
        2: apply (delete_index_under_sequence gin ts _ _ _ _ _ _ _ Hv Hpar Hobj Hq).
        reflexivity.
      * assert (Hc : c = Class_DcmItem \/ c = Class_DcmDataset)
          by (destruct c; try discriminate; auto).
        eexists. split; [| left].
        2: apply (delete_index_under_item gin ts _ _ _ _ _ _ _ Hv Hpar Hobj Hq Hc).
        reflexivity.
    + eexists. split; [| right; exists (ident po); split; [exact Hexp |]].
      2: apply (delete_index_unexpected gin ts _ _ _ _ _ _ Hv Hpar Hobj Hq Hexp).
      reflexivity.
  - unfold delete_index, parent, get_object, bind. rewrite Hv, Hp. cbn.
    destruct (dataset file) as [c els] eqn:Hds.
    destruct c; cbn.
    1, 2: unfold item_remove, bind, deref; cbn; rewrite Hds; cbn;
      destruct (els !! Z.to_nat (to_ulong (row index))); cbn;
      eexists; (split; [| left; reflexivity]); reflexivity.
    + eexists. split; [| right; exists EVR_metainfo; split; reflexivity].
      reflexivity.
    + eexists. split; [| right; exists EVR_dirRecord; split; reflexivity].
      reflexivity.
Qed.

Lemma delete_index_marks_dirty_witness :
  exists m',
    dirty m' = Some true /\
    (delete_index last_position render_DcmEVR (createIndex 0 0 [0; 0; 0]%nat)
       (loaded directory_dataset) = Ok tt m' \/
     exists vr,
       expected_parent vr = false /\
       delete_index last_position render_DcmEVR (createIndex 0 0 [0; 0; 0]%nat)
         (loaded directory_dataset)
       = Throw ("Unexpected VR: " ++ render_DcmEVR vr)%string m').
Proof.
  apply (delete_index_marks_dirty last_position render_DcmEVR
           (loaded directory_dataset) (mkDicom_file directory_dataset false)
           (createIndex 0 0 [0; 0; 0]%nat)).
  - reflexivity.
  - reflexivity.
  - cbn. eexists. reflexivity.
Defined.

(** The unexpected parent is reachable: an element of a directory record is
    addressed, the bracket is opened and closed around nothing, the file is
    marked dirty, and then the failure is thrown. *)
Example delete_index_under_directory_record :
  delete_index last_position render_DcmEVR (createIndex 0 0 [0; 0; 0]%nat)
    (loaded directory_dataset)
  = Throw "Unexpected VR: EVR"
      (mkModel (Some (mkDicom_file directory_dataset true))
         [beginRemoveRows (createIndex 0 0 [0; 0]%nat) 0 0; endRemoveRows;
          dataset_changed]).
Proof. reflexivity. Qed.

(** The removal that removes nothing: row 5 of a dataset of three elements.
    The file is marked dirty all the same. *)
Example delete_index_out_of_range :
  delete_index last_position render_DcmEVR (createIndex 5 0 [0]%nat)
    (loaded scenario_dataset)
  = Ok tt
      (mkModel (Some (mkDicom_file scenario_dataset true))
         [beginRemoveRows QModelIndex_invalid 5 5; Dcm_item_remove [] 5;
          Dcm_delete None; endRemoveRows; dataset_changed]).
Proof. reflexivity. Qed.

(** C7, as stated, fails on an invalid index: the run ends at the first check
    and the file of a freshly loaded dataset stays clean. *)
Lemma delete_index_invalid_index_stays_clean :
  delete_index last_position render_DcmEVR QModelIndex_invalid (loaded scenario_dataset)
  = Throw "invalid index" (loaded scenario_dataset) /\
  dirty_after
    (delete_index last_position render_DcmEVR QModelIndex_invalid (loaded scenario_dataset))
  = false.
Proof. split; reflexivity. Qed.

Lemma scans_well_bracketed {A} (c : Op A) m m' :
  scans c Outside (fun _ s' => s' = Outside) (fun s' => s' = Outside) ->
  final_state (c m) = Some m' ->
  exists t, trace m' = trace m ++ t /\ well_bracketed t = true.
Proof.
  intros Hc Hfinal. specialize (Hc m). unfold well_bracketed.
  destruct (c m) as [a m1 | w m1 |]; [| | discriminate];
    injection Hfinal as ->;
    destruct Hc as (t & s' & Ht & Hs & ->);
    exists t; rewrite Hs; auto.
Qed.

(** The events a run of [add_item] or of [delete_index] adds to the trace
    are well bracketed, whatever the index and the state: [append], [remove]
    and the freeing of the removed object lie between a begin and the
    matching end, and no bracket opens inside another. At an address of a
    sequence [add_item] adds begin-insert, [append], end-insert and the
    dataset-changed event, in this order. *)
Lemma structural_edits_well_bracketed :
  forall (tk : Dcmtk) (get_index_nr : DcmItem -> DcmPtr -> Z)
         (to_string_DcmEVR : DcmEVR -> string),
    (forall index m m',
        final_state (add_item tk index m) = Some m' ->
        exists t, trace m' = trace m ++ t /\ well_bracketed t = true) /\
    (forall index m m',
        final_state (delete_index get_index_nr to_string_DcmEVR index m) = Some m' ->
        exists t, trace m' = trace m ++ t /\ well_bracketed t = true) /\
    (forall file tr index p t its,
        addresses (mkModel (Some file) tr) index p (ObjElement (DcmSequenceOfItems t its)) ->
        exists m',
          final_state (add_item tk index (mkModel (Some file) tr)) = Some m' /\
          trace m' = tr ++ [beginInsertRows index 0 0; Dcm_append p; endInsertRows;
                            dataset_changed]).
Proof.
  intros tk gin ts. split; [| split].
  - intros index m m'. apply scans_well_bracketed. apply scans_add_item.
  - intros index m m'. apply scans_well_bracketed. apply scans_delete_index.
  - intros file tr index p t its H.
    rewrite (add_item_sequence tk _ _ _ _ _ _ H). cbv zeta.
    destruct (bad (append_status tk its)); eexists; split; reflexivity.
Qed.

(** C8. Deleting row 0 under a dataset does not free the element of row 0
    when a hidden element stands in front of it. In the dataset holding
    StudyDate, PatientName and PatientID in tag order, [index] gives row 0
    to PatientName, at raw position 1. [delete_index] on that index
    announces the removal of row 0 of the root, and between begin-remove and
    end-remove it unlinks and frees the element at raw position 0, which is
    StudyDate. Afterwards PatientName is still in the dataset, the pointer
    of the index leads to PatientID, and [rowCount] of the root is 2 as it
    was before. The bracket itself is in order. *)
Theorem delete_index_row_0_frees_hidden_element :
  let m := loaded tag_ordered_dataset in
  let study_date := Leaf StudyDate EVR_DA 8 [x32; x30; x32; x34; x30; x31; x30; x31] in
  let patient_name := Leaf PatientName EVR_PN 2 [x41; x20] in
  let patient_id := Leaf PatientID EVR_LO 2 [x42; x20] in
  let idx := createIndex 0 0 [1]%nat in
  let removal := [beginRemoveRows QModelIndex_invalid 0 0; Dcm_item_remove [] 0;
                  Dcm_delete (Some (ObjElement study_date)); endRemoveRows;
                  dataset_changed] in
  let m' := mkModel
              (Some (mkDicom_file
                       (MkDcmItem Class_DcmDataset [patient_name; patient_id]) true))
              removal in
  index dcmtk_good 0 0 QModelIndex_invalid m = Ok idx m /\
  addresses m idx [1]%nat (ObjElement patient_name) /\
  rowCount dcmtk_good QModelIndex_invalid m = Ok 2 m /\
  delete_index last_position render_DcmEVR idx m = Ok tt m' /\
  well_bracketed removal = true /\
  deref [0]%nat m' = Ok (ObjElement patient_name) m' /\
  deref [1]%nat m' = Ok (ObjElement patient_id) m' /\
  rowCount dcmtk_good QModelIndex_invalid m' = Ok 2 m'.
Proof.
  cbv zeta. split; [reflexivity |].
  split; [repeat split |]. split; [reflexivity |].
  split; [reflexivity |]. split; [reflexivity |].
  split; [reflexivity |]. split; reflexivity.
Qed.

(** C10. At an address of a sequence, when [append] reports a failure,
    [add_item] throws the text of that condition, and the state it throws in
    has the insert bracket closed (begin, [append], end, in this order), the
    dataset-changed event sent and the file marked dirty; the dataset itself
    is as before. *)
Theorem add_item_append_failure :
  forall (tk : Dcmtk) file tr index p t its text,
    addresses (mkModel (Some file) tr) index p (ObjElement (DcmSequenceOfItems t its)) ->
    append_status tk its = EC_Bad text ->
    add_item tk index (mkModel (Some file) tr)
    = Throw text
        (mkModel (Some (mkDicom_file (dataset file) true))
                 (tr ++ [beginInsertRows index 0 0; Dcm_append p; endInsertRows;
                         dataset_changed])).
Proof.
  intros tk file tr index p t its text H Hbad.
  rewrite (add_item_sequence tk _ _ _ _ _ _ H). rewrite Hbad. reflexivity.
Qed.

Lemma add_item_append_failure_witness :
  add_item dcmtk_failing (createIndex 0 0 [1]%nat) (loaded nested_dataset)
  = Throw "Illegal call, perhaps wrong parameters"
      (mkModel (Some (mkDicom_file nested_dataset true))
         [beginInsertRows (createIndex 0 0 [1]%nat) 0 0; Dcm_append [1]%nat;
          endInsertRows; dataset_changed]).
Proof.
  apply (add_item_append_failure dcmtk_failing (mkDicom_file nested_dataset false) []
           (createIndex 0 0 [1]%nat) [1]%nat ReferencedImageSequence
           [ MkDcmItem Class_DcmItem [];
             MkDcmItem Class_DcmItem [Leaf PatientID EVR_LO 2 [x42; x20]] ]).
  - repeat split.
  - reflexivity.
Defined.

(** Under an address of a sequence [index] hands out no address at all. *)
Lemma index_sequence (tk : Dcmtk) m idx p t its r c :
  addresses m idx p (ObjElement (DcmSequenceOfItems t its)) ->
  index tk r c idx m = Ok QModelIndex_invalid m.
Proof.
  intros H. unfold index, hasIndex, bind.
  destruct ((r <? 0) || (c <? 0)) eqn:Hneg; [reflexivity |].
  rewrite (rowCount_sequence tk _ _ _ _ _ H).
  apply orb_false_elim in Hneg as [-> _]. reflexivity.
Qed.

(** C9. At an address of a sequence, with an [append] that succeeds and row
    numbers that are not negative: after [add_item] the new item is at the
    end of the sequence; [delete_index] on an index of the new item, whatever
    row and column the index carries, returns normally; and [rowCount] of the
    sequence address is afterwards what it was before the insertion. When the
    row of the index is the raw position of the new item, the sequence holds
    again the items it held before. (The model itself hands out no index
    for the new item: [index] under the sequence address is invalid for every
    row, [delete_index] refuses the invalid index, and [rowCount] is then
    still what it was.) *)
Theorem insert_then_delete_row_count :
  forall (tk : Dcmtk) (get_index_nr : DcmItem -> DcmPtr -> Z)
         (to_string_DcmEVR : DcmEVR -> string)
         file tr sq_index p t its r c,
    addresses (mkModel (Some file) tr) sq_index p (ObjElement (DcmSequenceOfItems t its)) ->
    append_status tk its = EC_Normal ->
    (forall ds q, 0 <= get_index_nr ds q) ->
    0 <= r -> 0 <= c ->
    let m := mkModel (Some file) tr in
    let new_ptr := p ++ [length its] in
    let new_index := createIndex r c new_ptr in
    exists n m1 m2,
      rowCount tk sq_index m = Ok n m /\
      add_item tk sq_index m = Ok tt m1 /\
      addresses m1 new_index new_ptr (ObjItem new_DcmItem) /\
      delete_index get_index_nr to_string_DcmEVR new_index m1 = Ok tt m2 /\
      rowCount tk sq_index m2 = Ok n m2 /\
      (r = Z.of_nat (length its) -> r < 2 ^ 64 ->
       addresses m2 sq_index p (ObjElement (DcmSequenceOfItems t its))) /\
      (forall r' c',
          index tk r' c' sq_index m1 = Ok QModelIndex_invalid m1 /\
          delete_index get_index_nr to_string_DcmEVR QModelIndex_invalid m1
          = Throw "invalid index" m1 /\
          rowCount tk sq_index m1 = Ok n m1).
Proof.
  intros tk gin ts file tr sq_index p t its r c H Hgood Hgin Hr Hc m new_ptr new_index.
  pose proof (rowCount_sequence tk _ _ _ _ _ H) as Hrows.
  pose proof (add_item_sequence tk _ _ _ _ _ _ H) as Hadd.
  cbv zeta in Hadd. rewrite Hgood in Hadd. cbn [bad] in Hadd.
  destruct (addresses_inv _ _ _ _ _ H) as (Hv & Hp & Hres).
  set (seq1 := ObjElement (DcmSequenceOfItems t (its ++ [new_DcmItem]))) in *.
  set (ds1 := keep_item (dataset file)
                (modify (fun _ => seq1) p (ObjItem (dataset file)))) in *.
  set (tr1 := tr ++ [beginInsertRows sq_index 0 0; Dcm_append p; endInsertRows;
                     dataset_changed]) in *.
  set (file1 := mkDicom_file ds1 true) in *.
  assert (Hres1 : resolve (ObjItem (dataset file1)) p = Some seq1).
  { apply (resolve_modify_dataset (fun _ => seq1) p _ _ Hres). exact I. }
  assert (Hnew : resolve (ObjItem (dataset file1)) new_ptr = Some (ObjItem new_DcmItem)).
  { unfold new_ptr. rewrite resolve_app, Hres1. cbn.
    rewrite list_lookup_fmap, list_lookup_middle by reflexivity. reflexivity. }
  assert (Hv' : isValid new_index = true).
  { unfold new_index, isValid. cbn.
    apply Z.leb_le in Hr, Hc. rewrite Hr, Hc. reflexivity. }
  assert (H1 : addresses (mkModel (Some file1) tr1) new_index new_ptr (ObjItem new_DcmItem)).
  { split; [exact Hv' |]. split; [reflexivity |]. eapply deref_live; eauto. }
  destruct (parent_of_child gin _ _ _ _ _ _ H1 (Hgin _ _)) as [Hpar Hobj].
  pose proof (delete_index_under_sequence gin ts _ _ _ _ _ _ _ Hv' Hpar Hobj Hres1)
    as Hdel.
  cbv zeta in Hdel.
  set (n' := Z.to_nat (to_ulong (row new_index))) in *.
  set (seq2 := ObjElement (DcmSequenceOfItems t (delete n' (its ++ [new_DcmItem])))) in *.
  assert (Hres2 : exists its2,
    resolve (ObjItem
      match (its ++ [new_DcmItem]) !! n' with
      | Some _ =>
          keep_item (dataset file1) (modify (fun _ => seq2) p (ObjItem (dataset file1)))
      | None => dataset file1
      end) p = Some (ObjElement (DcmSequenceOfItems t its2)) /\
    (r = Z.of_nat (length its) -> r < 2 ^ 64 -> its2 = its)).
  { destruct ((its ++ [new_DcmItem]) !! n') as [it |] eqn:Hlook.
    - exists (delete n' (its ++ [new_DcmItem])). split.
      + apply (resolve_modify_dataset (fun _ => seq2) p _ _ Hres1). exact I.
      + intros -> Hlt. subst n'. cbn [row new_index createIndex].
        rewrite to_ulong_small by lia. rewrite Nat2Z.id.
        rewrite delete_middle. apply app_nil_r.
    - exists (its ++ [new_DcmItem]). split; [exact Hres1 |].
      intros -> Hlt. subst n'. cbn [row new_index createIndex] in Hlook.
      rewrite to_ulong_small in Hlook by lia. rewrite Nat2Z.id in Hlook.
      rewrite list_lookup_middle in Hlook by reflexivity. discriminate. }
  destruct Hres2 as (its2 & Hres2 & Hsame).
  eexists 0, _, _.
  split; [exact Hrows |]. split; [exact Hadd |]. split; [exact H1 |].
  split; [exact Hdel |].
  assert (H2 : forall tr2,
    addresses
      (mkModel
         (Some (mkDicom_file
            match (its ++ [new_DcmItem]) !! n' with
            | Some _ =>
                keep_item (dataset file1) (modify (fun _ => seq2) p (ObjItem (dataset file1)))
            | None => dataset file1
            end true)) tr2)
      sq_index p (ObjElement (DcmSequenceOfItems t its2))).
  { intros tr2. split; [exact Hv |]. split; [exact Hp |].
    eapply deref_live; [reflexivity | exact Hres2]. }
  assert (H1' : addresses (mkModel (Some file1) tr1) sq_index p seq1).
  { split; [exact Hv |]. split; [exact Hp |]. eapply deref_live; eauto. }
  split; [| split].
  - apply (rowCount_sequence tk _ _ _ _ _ (H2 _)).
  - intros Hrow Hlt. specialize (Hsame Hrow Hlt). subst its2. apply H2.
  - intros r' c'. split; [| split].
    + apply (index_sequence tk _ _ _ _ _ _ _ H1').
    + reflexivity.
    + apply (rowCount_sequence tk _ _ _ _ _ H1').
Qed.

Lemma insert_then_delete_row_count_witness :
  exists n m1 m2,
    rowCount dcmtk_good (createIndex 0 0 [1]%nat) (loaded nested_dataset)
    = Ok n (loaded nested_dataset) /\
    add_item dcmtk_good (createIndex 0 0 [1]%nat) (loaded nested_dataset) = Ok tt m1 /\
    addresses m1 (createIndex 2 0 [1; 2]%nat) [1; 2]%nat (ObjItem new_DcmItem) /\
    delete_index last_position render_DcmEVR (createIndex 2 0 [1; 2]%nat) m1 = Ok tt m2 /\
    rowCount dcmtk_good (createIndex 0 0 [1]%nat) m2 = Ok n m2 /\
    (2 = 2 -> 2 < 2 ^ 64 ->
     addresses m2 (createIndex 0 0 [1]%nat) [1]%nat
       (ObjElement
          (DcmSequenceOfItems ReferencedImageSequence
             [ MkDcmItem Class_DcmItem [];
               MkDcmItem Class_DcmItem [Leaf PatientID EVR_LO 2 [x42; x20]] ]))) /\
    (forall r' c',
        index dcmtk_good r' c' (createIndex 0 0 [1]%nat) m1 = Ok QModelIndex_invalid m1 /\
        delete_index last_position render_DcmEVR QModelIndex_invalid m1
        = Throw "invalid index" m1 /\
        rowCount dcmtk_good (createIndex 0 0 [1]%nat) m1 = Ok n m1).
Proof.
  apply (insert_then_delete_row_count dcmtk_good last_position render_DcmEVR
           (mkDicom_file nested_dataset false) [] (createIndex 0 0 [1]%nat) [1]%nat
           ReferencedImageSequence
           [ MkDcmItem Class_DcmItem [];
             MkDcmItem Class_DcmItem [Leaf PatientID EVR_LO 2 [x42; x20]] ]
           2 0).
  - repeat split.
  - reflexivity.
  - intros ds q. unfold last_position. lia.
  - lia.
  - lia.
Defined.

(* ------------------------------------------------------------------------- *)
(** ** More on addressing: what [index] hands out *)

Lemma to_int_range (z : Z) : - 2 ^ 31 <= to_int z < 2 ^ 31.
Proof.
  unfold to_int.
  pose proof (Z.mod_pos_bound (z + 2 ^ 31) (2 ^ 32) ltac:(lia)). lia.
Qed.

Lemma to_int_le (z : Z) : 0 <= z -> to_int z <= z.
Proof.
  intros Hz. destruct (Z_lt_ge_dec z (2 ^ 31)) as [Hlt | Hge].
  - rewrite to_int_small; lia.
  - pose proof (to_int_range z). lia.
Qed.

Lemma policy_count_app (l1 l2 : list DcmElement) :
  policy_count (l1 ++ l2) = policy_count l1 + policy_count l2.
Proof.
  unfold policy_count. rewrite List.filter_app, length_app. lia.
Qed.

Lemma policy_count_nonneg (l : list DcmElement) : 0 <= policy_count l.
Proof. unfold policy_count. lia. Qed.

Lemma policy_count_le_length (l : list DcmElement) :
  policy_count l <= Z.of_nat (length l).
Proof.
  unfold policy_count. pose proof (List.filter_length_le
    (fun e => is_allowed_edit_tag (Some e)) l). lia.
Qed.

Lemma policy_count_take_S (els : list DcmElement) i e :
  els !! i = Some e ->
  policy_count (take (S i) els)
  = policy_count (take i els) + (if is_allowed_edit_tag (Some e) then 1 else 0).
Proof.
  intros He. rewrite (take_S_r _ _ _ He), policy_count_app.
  unfold policy_count at 2. simpl.
  destruct (is_allowed_edit_tag (Some e)); reflexivity.
Qed.

Lemma policy_count_take_le (els : list DcmElement) i :
  policy_count (take i els) <= policy_count els.
Proof.
  rewrite <- (take_drop i els) at 2. rewrite policy_count_app.
  pose proof (policy_count_nonneg (drop i els)). lia.
Qed.

(** The loops fetch an element only from an item or a dataset. *)
Lemma child_at_element o i e :
  as_DcmElement (child_at o i) = Some e ->
  exists cls els,
    o = ObjItem (MkDcmItem cls els) /\
    (cls = Class_DcmItem \/ cls = Class_DcmDataset) /\
    els !! Z.to_nat (to_ulong i) = Some e.
Proof.
  destruct o as [[tag vr len v | t its] | [cls els]].
  - unfold child_at. cbn [ident getItem].
    destruct (DcmEVR_eqb vr EVR_item || DcmEVR_eqb vr EVR_dataset);
      [discriminate |].
    destruct (DcmEVR_eqb vr EVR_SQ); discriminate.
  - rewrite child_at_sequence. discriminate.
  - destruct cls; cbn; try discriminate.
    + destruct (els !! Z.to_nat (to_ulong i)) as [e' |] eqn:He; [| discriminate].
      cbn. intros [= ->]. eauto 10.
    + destruct (els !! Z.to_nat (to_ulong i)) as [e' |] eqn:He; [| discriminate].
      cbn. intros [= ->]. eauto 10.
Qed.

(** What the loop of [index] can return: the invalid index, or an index with
    the asked row and column whose pointer leads to a child element that
    passes the policy and stands at a raw position not before the row. *)
Lemma index_loop_result r c pp o n :
  forall i v,
    0 <= i -> v < i -> Z.of_nat n + i <= 2 ^ 31 ->
    index_loop r c pp o n i v = QModelIndex_invalid \/
    exists k e cls els,
      o = ObjItem (MkDcmItem cls els) /\
      (cls = Class_DcmItem \/ cls = Class_DcmDataset) /\
      index_loop r c pp o n i v = createIndex r c (pp ++ [k]) /\
      els !! k = Some e /\
      is_allowed_edit_tag (Some e) = true /\
      v < r <= Z.of_nat k /\ Z.of_nat k < 2 ^ 31.
Proof.
  induction n as [| n IH]; intros i v Hi Hv Hn; [left; reflexivity |].
  cbn [index_loop].
  destruct (as_DcmElement (child_at o i)) as [e |] eqn:Hchild.
  - cbn [non_null andb].
    destruct (is_allowed_edit_tag (Some e)) eqn:Hallowed.
    + destruct (v + 1 =? r) eqn:Hrow.
      * right. apply Z.eqb_eq in Hrow.
        destruct (child_at_element _ _ _ Hchild) as (cls & els & -> & Hcls & He).
        assert (2 ^ 31 < 2 ^ 64) by (apply Z.pow_lt_mono_r; lia).
        rewrite to_ulong_small in He |- * by lia.
        exists (Z.to_nat i), e, cls, els.
        repeat split; auto; lia.
      * destruct (IH (i + 1) (v + 1)) as [-> | H]; try lia; [left; reflexivity |].
        right. destruct H as (k & e' & cls & els & Ho & Hcls & -> & He & Ha & Hr & Hk).
        apply Z.eqb_neq in Hrow.
        exists k, e', cls, els. repeat split; auto; lia.
    + destruct (IH (i + 1) v) as [-> | H]; try lia; [left; reflexivity |].
      right. destruct H as (k & e' & cls & els & Ho & Hcls & -> & He & Ha & Hr & Hk).
      exists k, e', cls, els. repeat split; auto; lia.
  - cbn [non_null andb].
    destruct (IH (i + 1) v) as [-> | H]; try lia; [left; reflexivity |].
    right. destruct H as (k & e' & cls & els & Ho & Hcls & -> & He & Ha & Hr & Hk).
    exists k, e', cls, els. repeat split; auto; lia.
Qed.

(** Under an item or dataset of fewer than 2^31 elements the loop finds the
    element that passes the policy with exactly [r] passing elements in
    front of it, and gives up when there is none. *)
Lemma index_loop_item r c pp cls els :
  cls = Class_DcmItem \/ cls = Class_DcmDataset ->
  Z.of_nat (length els) < 2 ^ 31 ->
  forall n i,
    (i + n = length els)%nat ->
    policy_count (take i els) <= r ->
    (r < policy_count els ->
     exists k e,
       index_loop r c pp (ObjItem (MkDcmItem cls els)) n (Z.of_nat i)
                  (policy_count (take i els) - 1)
       = createIndex r c (pp ++ [k]) /\
       els !! k = Some e /\ is_allowed_edit_tag (Some e) = true /\
       policy_count (take k els) = r) /\
    (policy_count els <= r ->
     index_loop r c pp (ObjItem (MkDcmItem cls els)) n (Z.of_nat i)
                (policy_count (take i els) - 1)
     = QModelIndex_invalid).
Proof.
  intros Hcls Hlen. induction n as [| n IH]; intros i Hin Hr.
  - split; [| reflexivity].
    intros Hlt. rewrite take_ge in Hr by lia. lia.
  - cbn [index_loop]. rewrite child_at_item by exact Hcls.
    rewrite (to_ulong_of_nat (length els)) by lia.
    destruct (els !! i) as [e |] eqn:He;
      [| apply lookup_ge_None in He; lia].
    pose proof (policy_count_take_S els i e He) as Hstep.
    cbn [fmap option_fmap option_map as_DcmElement non_null andb].
    replace (Z.of_nat i + 1) with (Z.of_nat (S i)) by lia.
    destruct (is_allowed_edit_tag (Some e)) eqn:Hallowed.
    + replace (policy_count (take i els) - 1 + 1) with (policy_count (take i els)) by lia.
      destruct (policy_count (take i els) =? r) eqn:Hhit.
      * apply Z.eqb_eq in Hhit. split.
        -- intros _. exists i, e. auto.
        -- intros Hge. pose proof (policy_count_take_le els (S i)). lia.
      * apply Z.eqb_neq in Hhit.
        replace (policy_count (take i els)) with (policy_count (take (S i) els) - 1) by lia.
        apply IH; lia.
    + replace (policy_count (take i els)) with (policy_count (take (S i) els)) by lia.
      apply IH; lia.
Qed.

Section More_addressing.

Variable tk : Dcmtk.

Lemma get_object_cases index m :
  (exists p, get_object index m = Ok (Some p) m) \/
  (exists e, get_object index m
             = Ok None (mkModel (current_file m) (trace m ++ [e])) /\
             is_log e = true).
Proof.
  destruct m as [cf tr]. unfold get_object, get_dataset.
  destruct (negb (isValid index)).
  - destruct cf; [left; eauto | right; eexists; split; reflexivity].
  - destruct (internalPointer index); [left; eauto | right; eexists; split; reflexivity].
Qed.

Lemma rowCount_item_at m par pp cls els :
  get_object par m = Ok (Some pp) m ->
  deref pp m = Ok (ObjItem (MkDcmItem cls els)) m ->
  cls = Class_DcmItem \/ cls = Class_DcmDataset ->
  Z.of_nat (length els) < 2 ^ 31 ->
  rowCount tk par m = Ok (policy_count els) m.
Proof.
  intros Hobj Hderef Hcls Hlen. unfold rowCount, bind.
  rewrite Hobj, Hderef. simpl. unfold ret. f_equal.
  rewrite to_int_small by lia. rewrite Nat2Z.id.
  pose proof (rowCount_loop_item cls els Hcls Hlen (length els) 0%nat 0) as E.
  change (Z.of_nat 0) with 0 in E. rewrite drop_0 in E.
  rewrite E by lia. lia.
Qed.

(** A valid index returned by [index]: nothing was logged, the parent is an
    item or dataset, and the index points to one of its elements that passes
    the policy. *)
Lemma index_valid r c par m idx m' :
  index tk r c par m = Ok idx m' ->
  isValid idx = true ->
  m' = m /\
  exists pp cls els k e,
    get_object par m = Ok (Some pp) m /\
    deref pp m = Ok (ObjItem (MkDcmItem cls els)) m /\
    (cls = Class_DcmItem \/ cls = Class_DcmDataset) /\
    idx = createIndex r c (pp ++ [k]) /\
    els !! k = Some e /\
    is_allowed_edit_tag (Some e) = true /\
    0 <= r <= Z.of_nat k /\ Z.of_nat k < 2 ^ 31 /\ 0 <= c < 4.
Proof.
  intros Hindex Hvalid. unfold index, hasIndex, bind in Hindex.
  destruct ((r <? 0) || (c <? 0)) eqn:Hneg.
  { cbn in Hindex. injection Hindex as <- <-. discriminate. }
  apply orb_false_elim in Hneg as [Hr Hc].
  apply Z.ltb_ge in Hr, Hc.
  unfold rowCount, bind in Hindex.
  destruct (get_object_cases par m) as [[pp Hobj] | (e & Hobj & _)];
    rewrite Hobj in Hindex.
  2: { cbn in Hindex. replace (r <? 0) with false in Hindex
         by (symmetry; apply Z.ltb_ge; lia).
       cbn in Hindex. injection Hindex as <- <-. discriminate. }
  destruct (deref pp m) as [o m1 | w m1 |] eqn:Hderef; try discriminate.
  apply deref_inv in Hderef as Hinv. destruct Hinv as [-> _].
  destruct (isLeaf o) eqn:Hleaf.
  { cbn in Hindex. replace (r <? 0) with false in Hindex
      by (symmetry; apply Z.ltb_ge; lia).
    cbn in Hindex. injection Hindex as <- <-. discriminate. }
  cbn [ret] in Hindex.
  destruct (negb (r <? _)) eqn:Hrows in Hindex.
  { cbn in Hindex. injection Hindex as <- <-. discriminate. }
  unfold columnCount, ret in Hindex.
  change (to_int (Z.of_nat (length columns))) with 4 in Hindex.
  destruct (c <? 4) eqn:Hc4.
  2: { cbn in Hindex. injection Hindex as <- <-. discriminate. }
  cbn [negb] in Hindex. rewrite Hobj, Hderef in Hindex.
  injection Hindex as <- <-. split; [reflexivity |].
  apply Z.ltb_lt in Hc4.
  pose proof (to_int_range (getNumberOfValues tk o)) as Htotal.
  destruct (index_loop_result r c pp o
              (Z.to_nat (to_int (getNumberOfValues tk o))) 0 (-1))
    as [Hinv | (k & e & cls & els & -> & Hcls & Hres & He & Hallowed & Hk & Hk')];
    try lia.
  { rewrite Hinv in Hvalid. discriminate. }
  exists pp, cls, els, k, e. repeat split; auto; lia.
Qed.

End More_addressing.

Lemma policy_count_delete (els : list DcmElement) n x :
  els !! n = Some x ->
  policy_count (delete n els)
  = policy_count els - (if is_allowed_edit_tag (Some x) then 1 else 0).
Proof.
  intros Hx. rewrite delete_take_drop.
  rewrite <- (take_drop_middle els n x Hx) at 3.
  rewrite !policy_count_app.
  change (x :: drop (S n) els) with ([x] ++ drop (S n) els).
  rewrite policy_count_app. unfold policy_count at 4. simpl.
  destruct (is_allowed_edit_tag (Some x)); simpl; lia.
Qed.

Lemma deref_child m pp cls els k e :
  deref pp m = Ok (ObjItem (MkDcmItem cls els)) m ->
  els !! k = Some e ->
  deref (pp ++ [k]) m = Ok (ObjElement e) m.
Proof.
  intros Hpp He. apply deref_inv in Hpp as [_ (file & Hf & Hr)].
  eapply deref_live; [exact Hf |].
  rewrite resolve_app, Hr. cbn. rewrite list_lookup_fmap, He. reflexivity.
Qed.

Lemma deref_same_file p m m' :
  current_file m' = current_file m ->
  forall o, deref p m = Ok o m -> deref p m' = Ok o m'.
Proof.
  intros Hcf o H. apply deref_inv in H as [_ (file & Hf & Hr)].
  eapply deref_live; [rewrite Hcf; exact Hf | exact Hr].
Qed.

Lemma get_object_other_file par pp f tr f' tr' :
  get_object par (mkModel (Some f) tr) = Ok (Some pp) (mkModel (Some f) tr) ->
  get_object par (mkModel (Some f') tr') = Ok (Some pp) (mkModel (Some f') tr').
Proof.
  unfold get_object, get_dataset. destruct (negb (isValid par)); cbn.
  - intros [= <-]. reflexivity.
  - destruct (internalPointer par); cbn; [| discriminate].
    intros [= <-]. reflexivity.
Qed.

Section Handed_out.

Variable tk : Dcmtk.
Variable tx : DcmtkText.
Variable get_index_nr : DcmItem -> DcmPtr -> Z.
Variable to_string_DcmEVR : DcmEVR -> string.

Lemma index_valid_addresses r c par m idx m' :
  index tk r c par m = Ok idx m' ->
  isValid idx = true ->
  m' = m /\ row idx = r /\ column idx = c /\
  exists p e,
    addresses m idx p (ObjElement e) /\ is_allowed_edit_tag (Some e) = true.
Proof.
  intros Hindex Hvalid.
  destruct (index_valid tk _ _ _ _ _ _ Hindex Hvalid)
    as (-> & pp & cls & els & k & e & Hobj & Hderef & Hcls & -> & He & Hallowed & _).
  repeat split; try reflexivity.
  exists (pp ++ [k]), e. split; [| exact Hallowed].
  split; [exact Hvalid |]. split; [reflexivity |].
  eapply deref_child; eauto.
Qed.

Lemma rowCount_element m idx p e :
  addresses m idx p (ObjElement e) -> rowCount tk idx m = Ok 0 m.
Proof.
  intros H. destruct e as [tag vr len v | t its].
  - unfold rowCount, bind. rewrite (get_object_addresses _ _ _ _ H).
    destruct H as (_ & _ & ->). reflexivity.
  - apply (rowCount_sequence tk _ _ _ _ _ H).
Qed.

Lemma index_no_rows m idx r c :
  rowCount tk idx m = Ok 0 m -> index tk r c idx m = Ok QModelIndex_invalid m.
Proof.
  intros Hrows. unfold index, hasIndex, bind.
  destruct ((r <? 0) || (c <? 0)) eqn:Hneg; [reflexivity |].
  rewrite Hrows. apply orb_false_elim in Hneg as [-> _]. reflexivity.
Qed.

Lemma data_foreground m idx p o :
  addresses m idx p o ->
  data tx idx Qt.ForegroundRole m
  = Ok (QVariant_brush
          (if is_allowed_edit_tag (as_DcmElement (Some o)) then Qt_black else Qt_gray))
       m.
Proof.
  intros H. unfold data, bind. rewrite (get_object_addresses _ _ _ _ H).
  destruct H as (Hv & _ & Hd). rewrite Hv. cbn [negb]. rewrite Hd.
  change (Qt.ForegroundRole =? Qt.DisplayRole) with false.
  change (Qt.ForegroundRole =? Qt.ForegroundRole) with true. cbv iota.
  destruct (is_allowed_edit_tag (as_DcmElement (Some o))); reflexivity.
Qed.

End Handed_out.

(** X1. Under a parent that is an item or a dataset with fewer than 2^31
    elements, [index] renumbers densely: for a row from 0 up to the number of
    elements that pass the policy and a column from 0 to 3 it returns the
    index of the element that passes the policy and has exactly that many
    passing elements in front of it; for every other row or column it returns
    the invalid index. *)
Theorem index_dense_renumbering :
  forall (tk : Dcmtk) m par pp cls els r c,
    get_object par m = Ok (Some pp) m ->
    deref pp m = Ok (ObjItem (MkDcmItem cls els)) m ->
    cls = Class_DcmItem \/ cls = Class_DcmDataset ->
    Z.of_nat (length els) < 2 ^ 31 ->
    (0 <= r < policy_count els /\ 0 <= c < 4 ->
     exists k e,
       index tk r c par m = Ok (createIndex r c (pp ++ [k])) m /\
       els !! k = Some e /\
       is_allowed_edit_tag (Some e) = true /\
       policy_count (take k els) = r) /\
    (r < 0 \/ policy_count els <= r \/ c < 0 \/ 4 <= c ->
     index tk r c par m = Ok QModelIndex_invalid m).
Proof.
  intros tk m par pp cls els r c Hobj Hderef Hcls Hlen.
  pose proof (rowCount_item_at tk _ _ _ _ _ Hobj Hderef Hcls Hlen) as Hrows.
  pose proof (index_loop_item r c pp cls els Hcls Hlen (length els) 0%nat) as Hloop.
  rewrite take_0 in Hloop. change (policy_count []) with 0 in Hloop.
  change (Z.of_nat 0) with 0 in Hloop. change (0 - 1) with (-1) in Hloop.
  split.
  - intros [Hr Hc]. destruct Hloop as [Hfound _]; [lia | lia |].
    destruct Hfound as (k & e & Hres & He & Hallowed & Hcount); [lia |].
    exists k, e. repeat split; auto.
    unfold index, hasIndex, bind.
    replace ((r <? 0) || (c <? 0)) with false
      by (symmetry; apply orb_false_intro; apply Z.ltb_ge; lia).
    rewrite Hrows.
    replace (r <? policy_count els) with true by (symmetry; apply Z.ltb_lt; lia).
    cbn [negb]. unfold columnCount, ret.
    change (to_int (Z.of_nat (length columns))) with 4.
    replace (c <? 4) with true by (symmetry; apply Z.ltb_lt; lia).
    cbn [negb]. rewrite Hobj, Hderef. cbn [getNumberOfValues].
    rewrite to_int_small by lia. rewrite Nat2Z.id, Hres. reflexivity.
  - intros Hout. unfold index, hasIndex, bind.
    destruct ((r <? 0) || (c <? 0)) eqn:Hneg; [reflexivity |].
    apply orb_false_elim in Hneg as [Hr Hc]. apply Z.ltb_ge in Hr, Hc.
    rewrite Hrows.
    destruct (r <? policy_count els) eqn:Hlt; [| reflexivity].
    apply Z.ltb_lt in Hlt. cbn [negb]. unfold columnCount, ret.
    change (to_int (Z.of_nat (length columns))) with 4.
    destruct (c <? 4) eqn:Hc4; [| reflexivity].
    apply Z.ltb_lt in Hc4. lia.
Qed.

Lemma index_dense_renumbering_witness :
  exists k e,
    index dcmtk_good 1 3 QModelIndex_invalid (loaded scenario_dataset)
    = Ok (createIndex 1 3 ([] ++ [k])) (loaded scenario_dataset) /\
    [ Leaf PatientName EVR_PN 2 [x41; x20];
      Leaf StudyDate EVR_DA 8 [x32; x30; x32; x34; x30; x31; x30; x31];
      Leaf PatientID EVR_LO 2 [x42; x20] ] !! k = Some e /\
    is_allowed_edit_tag (Some e) = true /\
    policy_count
      (take k [ Leaf PatientName EVR_PN 2 [x41; x20];
                Leaf StudyDate EVR_DA 8 [x32; x30; x32; x34; x30; x31; x30; x31];
                Leaf PatientID EVR_LO 2 [x42; x20] ]) = 1.
Proof.
  apply (index_dense_renumbering dcmtk_good (loaded scenario_dataset)
           QModelIndex_invalid [] Class_DcmDataset
           [ Leaf PatientName EVR_PN 2 [x41; x20];
             Leaf StudyDate EVR_DA 8 [x32; x30; x32; x34; x30; x31; x30; x31];
             Leaf PatientID EVR_LO 2 [x42; x20] ] 1 3).
  - reflexivity.
  - reflexivity.
  - right. reflexivity.
  - vm_compute. reflexivity.
  - vm_compute. repeat split; discriminate.
Defined.

(** X2. Whatever the parent and the state, a valid index returned by [index]
    carries the asked row and column and the pointer to an element that
    passes the edit policy; nothing was logged on the way. *)
Theorem index_hands_out_whitelisted_elements :
  forall (tk : Dcmtk) r c par m idx m',
    index tk r c par m = Ok idx m' ->
    isValid idx = true ->
    m' = m /\ row idx = r /\ column idx = c /\
    exists p e,
      addresses m idx p (ObjElement e) /\ is_allowed_edit_tag (Some e) = true.
Proof.
  intros tk r c par m idx m' Hindex Hvalid.
  destruct (index_valid tk _ _ _ _ _ _ Hindex Hvalid)
    as (-> & pp & cls & els & k & e & Hobj & Hderef & Hcls & -> & He & Hallowed & _).
  repeat split; try reflexivity.
  exists (pp ++ [k]), e. split; [| exact Hallowed].
  split; [exact Hvalid |]. split; [reflexivity |].
  eapply deref_child; eauto.
Qed.

Lemma index_hands_out_whitelisted_elements_witness :
  loaded scenario_dataset = loaded scenario_dataset /\
  row (createIndex 1 3 [2]%nat) = 1 /\ column (createIndex 1 3 [2]%nat) = 3 /\
  exists p e,
    addresses (loaded scenario_dataset) (createIndex 1 3 [2]%nat) p (ObjElement e) /\
    is_allowed_edit_tag (Some e) = true.
Proof.
  apply (index_hands_out_whitelisted_elements dcmtk_good 1 3 QModelIndex_invalid
           (loaded scenario_dataset) (createIndex 1 3 [2]%nat) (loaded scenario_dataset)).
  - reflexivity.
  - reflexivity.
Defined.

(** X3. The tree [index] projects has one level: a valid index returned by
    [index] has no rows, and [index] under it returns the invalid index for
    every row and column. *)
Theorem handed_out_indexes_are_childless :
  forall (tk : Dcmtk) r c par m idx m',
    index tk r c par m = Ok idx m' ->
    isValid idx = true ->
    rowCount tk idx m' = Ok 0 m' /\
    forall r' c', index tk r' c' idx m' = Ok QModelIndex_invalid m'.
Proof.
  intros tk r c par m idx m' Hindex Hvalid.
  destruct (index_valid_addresses tk _ _ _ _ _ _ Hindex Hvalid)
    as (-> & _ & _ & p & e & H & _).
  pose proof (rowCount_element tk _ _ _ _ H) as Hrows.
  split; [exact Hrows |].
  intros r' c'. apply index_no_rows. exact Hrows.
Qed.

Lemma handed_out_indexes_are_childless_witness :
  rowCount dcmtk_good (createIndex 0 0 [0]%nat) (loaded scenario_dataset)
  = Ok 0 (loaded scenario_dataset) /\
  forall r' c',
    index dcmtk_good r' c' (createIndex 0 0 [0]%nat) (loaded scenario_dataset)
    = Ok QModelIndex_invalid (loaded scenario_dataset).
Proof.
  apply (handed_out_indexes_are_childless dcmtk_good 0 0 QModelIndex_invalid
           (loaded scenario_dataset) (createIndex 0 0 [0]%nat) (loaded scenario_dataset)).
  - reflexivity.
  - reflexivity.
Defined.

(** X4. Every cell [index] hands out is drawn in black and never in grey,
    and its flags are enabled and selectable, with the editable flag exactly
    in column 3. *)
Theorem handed_out_cells_are_black_and_editable :
  forall (tk : Dcmtk) (tx : DcmtkText) r c par m idx m',
    index tk r c par m = Ok idx m' ->
    isValid idx = true ->
    data tx idx Qt.ForegroundRole m' = Ok (QVariant_brush Qt_black) m' /\
    flags idx m'
    = Ok (if c =? 3
          then Z.lor (Z.lor Qt.ItemIsEnabled Qt.ItemIsSelectable) Qt.ItemIsEditable
          else Z.lor Qt.ItemIsEnabled Qt.ItemIsSelectable) m'.
Proof.
  intros tk tx r c par m idx m' Hindex Hvalid.
  destruct (index_valid_addresses tk _ _ _ _ _ _ Hindex Hvalid)
    as (-> & _ & Hcol & p & e & H & Hallowed).
  split.
  - rewrite (data_foreground tx _ _ _ _ H). cbn [as_DcmElement].
    rewrite Hallowed. reflexivity.
  - rewrite (flags_element _ _ _ _ H), Hcol, Hallowed, andb_true_r.
    destruct (c =? 3); reflexivity.
Qed.

Lemma handed_out_cells_are_black_and_editable_witness :
  data (mkDcmtkText (fun _ => "(0010,0010)"%string) (fun _ => "PatientName"%string)
          (fun _ => "PN"%string) (fun _ => EVR_PN) (fun _ => 2)
          (fun _ => "A"%string))
       (createIndex 0 3 [0]%nat) Qt.ForegroundRole (loaded scenario_dataset)
  = Ok (QVariant_brush Qt_black) (loaded scenario_dataset) /\
  flags (createIndex 0 3 [0]%nat) (loaded scenario_dataset)
  = Ok (if 3 =? 3
        then Z.lor (Z.lor Qt.ItemIsEnabled Qt.ItemIsSelectable) Qt.ItemIsEditable
        else Z.lor Qt.ItemIsEnabled Qt.ItemIsSelectable) (loaded scenario_dataset).
Proof.
  apply (handed_out_cells_are_black_and_editable dcmtk_good _ 0 3 QModelIndex_invalid
           (loaded scenario_dataset) (createIndex 0 3 [0]%nat) (loaded scenario_dataset)).
  - reflexivity.
  - reflexivity.
Defined.

(** X5. [parent] undoes [index]: for a valid index returned by [index] under
    [par], with row numbers that are not negative, the parent index leads to
    the object [par] leads to, and it is the invalid index when [par] is. *)
Theorem parent_of_handed_out_index :
  forall (tk : Dcmtk) (get_index_nr : DcmItem -> DcmPtr -> Z) r c par m idx m',
    (forall ds q, 0 <= get_index_nr ds q) ->
    index tk r c par m = Ok idx m' ->
    isValid idx = true ->
    exists pidx pp,
      parent get_index_nr idx m' = Ok pidx m' /\
      get_object pidx m' = Ok (Some pp) m' /\
      get_object par m' = Ok (Some pp) m' /\
      (isValid par = false -> pidx = QModelIndex_invalid).
Proof.
  intros tk gin r c par [cf tr] idx m' Hgin Hindex Hvalid.
  destruct (index_valid tk _ _ _ _ _ _ Hindex Hvalid)
    as (-> & pp & cls & els & k & e & Hobj & Hderef & Hcls & -> & He & Hallowed & _).
  assert (Hfile : exists file, cf = Some file).
  { apply deref_inv in Hderef as [_ (f & Hf & _)]. eauto. }
  destruct Hfile as [file ->].
  assert (H : addresses (mkModel (Some file) tr) (createIndex r c (pp ++ [k]))
                (pp ++ [k]) (ObjElement e)).
  { split; [exact Hvalid |]. split; [reflexivity |]. eapply deref_child; eauto. }
  destruct (parent_of_child gin _ _ _ _ _ _ H (Hgin _ _)) as [Hpar Hpobj].
  eexists _, pp. split; [exact Hpar |]. split; [exact Hpobj |].
  split; [exact Hobj |].
  intros Hinvalid. unfold get_object in Hobj. rewrite Hinvalid in Hobj.
  cbn in Hobj. injection Hobj as <-. reflexivity.
Qed.

Lemma parent_of_handed_out_index_witness :
  exists pidx pp,
    parent last_position (createIndex 1 0 [2]%nat) (loaded scenario_dataset)
    = Ok pidx (loaded scenario_dataset) /\
    get_object pidx (loaded scenario_dataset) = Ok (Some pp) (loaded scenario_dataset) /\
    get_object QModelIndex_invalid (loaded scenario_dataset)
    = Ok (Some pp) (loaded scenario_dataset) /\
    (isValid QModelIndex_invalid = false -> pidx = QModelIndex_invalid).
Proof.
  apply (parent_of_handed_out_index dcmtk_good last_position 1 0 QModelIndex_invalid
           (loaded scenario_dataset) (createIndex 1 0 [2]%nat) (loaded scenario_dataset)).
  - intros ds q. unfold last_position. lia.
  - reflexivity.
  - reflexivity.
Defined.

(** X6. [delete_index] takes the row of the index for a raw position. For a
    valid index returned by [index] at row [r], with row numbers that are not
    negative, it returns normally and the parent afterwards holds its
    elements without the one at raw position [r]; when the index points to
    another raw position, the element it points to is still there, one
    position further to the front. *)
Theorem delete_index_removes_raw_row :
  forall (tk : Dcmtk) (get_index_nr : DcmItem -> DcmPtr -> Z)
         (to_string_DcmEVR : DcmEVR -> string) r c par m idx m',
    (forall ds q, 0 <= get_index_nr ds q) ->
    index tk r c par m = Ok idx m' ->
    isValid idx = true ->
    exists pp cls els k e m2,
      deref pp m = Ok (ObjItem (MkDcmItem cls els)) m /\
      internalPointer idx = Some (pp ++ [k]) /\
      els !! k = Some e /\
      delete_index get_index_nr to_string_DcmEVR idx m = Ok tt m2 /\
      deref pp m2 = Ok (ObjItem (MkDcmItem cls (delete (Z.to_nat r) els))) m2 /\
      (Z.of_nat k <> r -> delete (Z.to_nat r) els !! (k - 1)%nat = Some e).
Proof.
  intros tk gin ts r c par [cf tr] idx m' Hgin Hindex Hvalid.
  destruct (index_valid tk _ _ _ _ _ _ Hindex Hvalid)
    as (-> & pp & cls & els & k & e & Hobj & Hderef & Hcls & -> & He & Hallowed
        & Hr & Hk & _).
  assert (Hfile : exists file, cf = Some file).
  { apply deref_inv in Hderef as [_ (f & Hf & _)]. eauto. }
  destruct Hfile as [file ->].
  assert (H : addresses (mkModel (Some file) tr) (createIndex r c (pp ++ [k]))
                (pp ++ [k]) (ObjElement e)).
  { split; [exact Hvalid |]. split; [reflexivity |]. eapply deref_child; eauto. }
  destruct (parent_of_child gin _ _ _ _ _ _ H (Hgin _ _)) as [Hpar Hpobj].
  apply deref_inv in Hderef as Hinv. destruct Hinv as [_ (f & Hf & Hres)].
  cbn in Hf. injection Hf as <-.
  pose proof (delete_index_under_item gin ts _ _ _ _ _ _ _ Hvalid Hpar Hpobj Hres Hcls)
    as Hdel.
  cbv zeta in Hdel. cbn [row createIndex] in Hdel.
  assert (2 ^ 31 < 2 ^ 64) by (apply Z.pow_lt_mono_r; lia).
  rewrite to_ulong_small in Hdel by lia.
  assert (Hlen : (k < length els)%nat) by (eapply lookup_lt_Some; eauto).
  destruct (els !! Z.to_nat r) as [x |] eqn:Hx;
    [| apply lookup_ge_None in Hx; lia].
  eexists pp, cls, els, k, e, _.
  split; [exact Hderef |]. split; [reflexivity |]. split; [exact He |].
  split; [exact Hdel |]. split.
  - eapply deref_live; [reflexivity |]. cbn [dataset].
    apply (resolve_modify_dataset
             (fun _ => ObjItem (MkDcmItem cls (delete (Z.to_nat r) els))) pp _ _ Hres).
    exact I.
  - intros Hne. rewrite list_lookup_delete_ge by lia.
    replace (S (k - 1)) with k by lia. exact He.
Qed.

Lemma delete_index_removes_raw_row_witness :
  exists pp cls els k e m2,
    deref pp (loaded scenario_dataset)
    = Ok (ObjItem (MkDcmItem cls els)) (loaded scenario_dataset) /\
    internalPointer (createIndex 1 0 [2]%nat) = Some (pp ++ [k]) /\
    els !! k = Some e /\
    delete_index last_position render_DcmEVR (createIndex 1 0 [2]%nat)
      (loaded scenario_dataset) = Ok tt m2 /\
    deref pp m2 = Ok (ObjItem (MkDcmItem cls (delete (Z.to_nat 1) els))) m2 /\
    (Z.of_nat k <> 1 -> delete (Z.to_nat 1) els !! (k - 1)%nat = Some e).
Proof.
  apply (delete_index_removes_raw_row dcmtk_good last_position render_DcmEVR 1 0
           QModelIndex_invalid (loaded scenario_dataset) (createIndex 1 0 [2]%nat)
           (loaded scenario_dataset)).
  - intros ds q. unfold last_position. lia.
  - reflexivity.
  - reflexivity.
Defined.

(** X7. After such a [delete_index] under a parent with fewer than 2^31
    elements, [rowCount] of the parent is the number of passing elements
    left: it is one less than before when the element at raw position [r]
    passes the policy, and what it was before when that element does not. *)
Theorem rowCount_after_delete_index :
  forall (tk : Dcmtk) (get_index_nr : DcmItem -> DcmPtr -> Z)
         (to_string_DcmEVR : DcmEVR -> string) r c par m idx m' pp cls els,
    (forall ds q, 0 <= get_index_nr ds q) ->
    index tk r c par m = Ok idx m' ->
    isValid idx = true ->
    get_object par m = Ok (Some pp) m ->
    deref pp m = Ok (ObjItem (MkDcmItem cls els)) m ->
    Z.of_nat (length els) < 2 ^ 31 ->
    exists x m2,
      els !! Z.to_nat r = Some x /\
      rowCount tk par m = Ok (policy_count els) m /\
      delete_index get_index_nr to_string_DcmEVR idx m = Ok tt m2 /\
      rowCount tk par m2
      = Ok (policy_count els - (if is_allowed_edit_tag (Some x) then 1 else 0)) m2.
Proof.
  intros tk gin ts r c par [cf tr] idx m' pp cls els Hgin Hindex Hvalid Hobj Hderef Hlen.
  destruct (index_valid tk _ _ _ _ _ _ Hindex Hvalid)
    as (-> & pp' & cls' & els' & k & e & Hobj' & Hderef' & Hcls & -> & He & Hallowed
        & Hr & Hk & _).
  rewrite Hobj in Hobj'. injection Hobj' as <-.
  rewrite Hderef in Hderef'. injection Hderef' as <- <-.
  assert (Hfile : exists file, cf = Some file).
  { apply deref_inv in Hderef as [_ (f & Hf & _)]. eauto. }
  destruct Hfile as [file ->].
  assert (H : addresses (mkModel (Some file) tr) (createIndex r c (pp ++ [k]))
                (pp ++ [k]) (ObjElement e)).
  { split; [exact Hvalid |]. split; [reflexivity |]. eapply deref_child; eauto. }
  destruct (parent_of_child gin _ _ _ _ _ _ H (Hgin _ _)) as [Hpar Hpobj].
  apply deref_inv in Hderef as Hinv. destruct Hinv as [_ (f & Hf & Hres)].
  cbn in Hf. injection Hf as <-.
  pose proof (delete_index_under_item gin ts _ _ _ _ _ _ _ Hvalid Hpar Hpobj Hres Hcls)
    as Hdel.
  cbv zeta in Hdel. cbn [row createIndex] in Hdel.
  assert (2 ^ 31 < 2 ^ 64) by (apply Z.pow_lt_mono_r; lia).
  rewrite to_ulong_small in Hdel by lia.
  assert (Hklen : (k < length els)%nat) by (eapply lookup_lt_Some; eauto).
  destruct (els !! Z.to_nat r) as [x |] eqn:Hx;
    [| apply lookup_ge_None in Hx; lia].
  eexists x, _. split; [reflexivity |].
  split; [apply (rowCount_item_at tk _ _ _ _ _ Hobj Hderef Hcls Hlen) |].
  split; [exact Hdel |].
  rewrite <- (policy_count_delete els (Z.to_nat r) x Hx).
  apply (rowCount_item_at tk _ par pp cls); auto.
  - apply (get_object_other_file _ _ _ _ _ _ Hobj).
  - eapply deref_live; [reflexivity |]. cbn [dataset].
    apply (resolve_modify_dataset
             (fun _ => ObjItem (MkDcmItem cls (delete (Z.to_nat r) els))) pp _ _ Hres).
    exact I.
  - rewrite length_delete by (exists x; exact Hx). lia.
Qed.

Lemma rowCount_after_delete_index_witness :
  exists x m2,
    [ Leaf PatientName EVR_PN 2 [x41; x20];
      Leaf StudyDate EVR_DA 8 [x32; x30; x32; x34; x30; x31; x30; x31];
      Leaf PatientID EVR_LO 2 [x42; x20] ] !! Z.to_nat 1 = Some x /\
    rowCount dcmtk_good QModelIndex_invalid (loaded scenario_dataset)
    = Ok (policy_count
            [ Leaf PatientName EVR_PN 2 [x41; x20];
              Leaf StudyDate EVR_DA 8 [x32; x30; x32; x34; x30; x31; x30; x31];
              Leaf PatientID EVR_LO 2 [x42; x20] ]) (loaded scenario_dataset) /\
    delete_index last_position render_DcmEVR (createIndex 1 0 [2]%nat)
      (loaded scenario_dataset) = Ok tt m2 /\
    rowCount dcmtk_good QModelIndex_invalid m2
    = Ok (policy_count
            [ Leaf PatientName EVR_PN 2 [x41; x20];
              Leaf StudyDate EVR_DA 8 [x32; x30; x32; x34; x30; x31; x30; x31];
              Leaf PatientID EVR_LO 2 [x42; x20] ]
          - (if is_allowed_edit_tag (Some x) then 1 else 0)) m2.
Proof.
  apply (rowCount_after_delete_index dcmtk_good last_position render_DcmEVR 1 0
           QModelIndex_invalid (loaded scenario_dataset) (createIndex 1 0 [2]%nat)
           (loaded scenario_dataset) [] Class_DcmDataset).
  - intros ds q. unfold last_position. lia.
  - reflexivity.
  - reflexivity.
  - reflexivity.
  - reflexivity.
  - vm_compute. reflexivity.
Defined.

(* ------------------------------------------------------------------------- *)
(** ** More on value edits *)

Lemma deref_not_throw p m w m' : deref p m <> Throw w m'.
Proof.
  unfold deref. destruct (current_file m) as [f |]; [| discriminate].
  destruct (resolve (ObjItem (dataset f)) p); discriminate.
Qed.

(** X8. On an element that passes the policy [set_value] always calls
    [putString], sends one value-changed notification and marks the file
    dirty, also when the text is what the element held already; the element
    at the address is afterwards what [putString] left, and a bad condition
    is thrown only after all of this, with nothing taken back. *)
Theorem set_value_writes_then_reports :
  forall (tk : Dcmtk) file tr index p e (value : string),
    addresses (mkModel (Some file) tr) index p (ObjElement e) ->
    is_allowed_edit_tag (Some e) = true ->
    exists m',
      set_value tk index value (mkModel (Some file) tr)
      = (if bad (fst (putString tk e value))
         then Throw (text_of (fst (putString tk e value))) m'
         else Ok tt m') /\
      trace m' = tr ++ [Dcm_putString p value; dataChanged index index; dataset_changed] /\
      dirty m' = Some true /\
      addresses m' index p (ObjElement (snd (putString tk e value))).
Proof.
  intros tk file tr index p e value H Hallowed.
  destruct (putString tk e value) as [status e'] eqn:Hput.
  pose proof (set_value_whitelisted tk _ _ _ _ _ _ _ _ H Hallowed Hput) as Hset.
  cbv zeta in Hset. eexists. split; [exact Hset |].
  split; [reflexivity |]. split; [reflexivity |].
  destruct (addresses_inv _ _ _ _ _ H) as (Hv & Hp & Hres).
  split; [exact Hv |]. split; [exact Hp |].
  eapply deref_live; [reflexivity |]. cbn [dataset snd].
  apply (resolve_modify_dataset (fun _ => ObjElement e') p _ _ Hres). exact I.
Qed.

Lemma set_value_writes_then_reports_witness :
  exists m',
    set_value dcmtk_good (createIndex 0 3 [0]%nat) "A " (loaded scenario_dataset)
    = (if bad (fst (putString dcmtk_good (Leaf PatientName EVR_PN 2 [x41; x20]) "A "))
       then Throw (text_of (fst (putString dcmtk_good
                                   (Leaf PatientName EVR_PN 2 [x41; x20]) "A "))) m'
       else Ok tt m') /\
    trace m' = [] ++ [Dcm_putString [0]%nat "A ";
                      dataChanged (createIndex 0 3 [0]%nat) (createIndex 0 3 [0]%nat);
                      dataset_changed] /\
    dirty m' = Some true /\
    addresses m' (createIndex 0 3 [0]%nat) [0]%nat
      (ObjElement (snd (putString dcmtk_good (Leaf PatientName EVR_PN 2 [x41; x20]) "A "))).
Proof.
  apply (set_value_writes_then_reports dcmtk_good (mkDicom_file scenario_dataset false) []
           (createIndex 0 3 [0]%nat) [0]%nat (Leaf PatientName EVR_PN 2 [x41; x20]) "A ").
  - repeat split.
  - reflexivity.
Defined.

(** X9. On an element that passes the policy [setData] with the edit role
    returns whether [putString] succeeded. When it failed, [setData] returns
    false although the element was overwritten, the change announced and the
    file marked dirty; when it succeeded, the value-changed notification is
    sent twice. *)
Theorem setData_outcome :
  forall (tk : Dcmtk) file tr index p e (value : string),
    addresses (mkModel (Some file) tr) index p (ObjElement e) ->
    is_allowed_edit_tag (Some e) = true ->
    exists m',
      setData tk index value Qt.EditRole (mkModel (Some file) tr)
      = Ok (negb (bad (fst (putString tk e value)))) m' /\
      trace m'
      = tr ++ [Dcm_putString p value; dataChanged index index; dataset_changed]
           ++ (if bad (fst (putString tk e value)) then []
               else [dataChanged index index]) /\
      dirty m' = Some true /\
      addresses m' index p (ObjElement (snd (putString tk e value))).
Proof.
  intros tk file tr index p e value H Hallowed.
  destruct (putString tk e value) as [status e'] eqn:Hput.
  pose proof (set_value_whitelisted tk _ _ _ _ _ _ _ _ H Hallowed Hput) as Hset.
  cbv zeta in Hset.
  destruct (addresses_inv _ _ _ _ _ H) as (Hv & Hp & Hres).
  assert (Hres' : resolve
            (ObjItem (keep_item (dataset file)
                        (modify (fun _ => ObjElement e') p (ObjItem (dataset file))))) p
          = Some (ObjElement e')).
  { apply (resolve_modify_dataset (fun _ => ObjElement e') p _ _ Hres). exact I. }
  unfold setData, bind. rewrite Hv.
  change (negb (Qt.EditRole =? Qt.EditRole)) with false. cbn [negb].
  rewrite (get_object_valid _ _ _ Hv Hp).
  destruct H as (_ & _ & H). rewrite (dynamic_cast_DcmElement_live _ _ _ H).
  rewrite Hallowed. cbn [negb]. unfold try_catch, bind. rewrite Hset.
  cbn [fst snd]. destruct (bad status).
  - eexists. split; [reflexivity |]. cbn [negb trace].
    split; [rewrite app_nil_r; reflexivity |]. split; [reflexivity |].
    split; [exact Hv |]. split; [exact Hp |].
    eapply deref_live; [reflexivity | exact Hres'].
  - eexists. split; [reflexivity |]. cbn [negb trace].
    split; [rewrite <- app_assoc; reflexivity |]. split; [reflexivity |].
    split; [exact Hv |]. split; [exact Hp |].
    eapply deref_live; [reflexivity | exact Hres'].
Qed.

Lemma setData_outcome_witness :
  exists m',
    setData dcmtk_good (createIndex 0 3 [0]%nat) "A " Qt.EditRole (loaded scenario_dataset)
    = Ok (negb (bad (fst (putString dcmtk_good
                            (Leaf PatientName EVR_PN 2 [x41; x20]) "A ")))) m' /\
    trace m'
    = [] ++ [Dcm_putString [0]%nat "A ";
             dataChanged (createIndex 0 3 [0]%nat) (createIndex 0 3 [0]%nat);
             dataset_changed]
         ++ (if bad (fst (putString dcmtk_good
                            (Leaf PatientName EVR_PN 2 [x41; x20]) "A "))
             then []
             else [dataChanged (createIndex 0 3 [0]%nat) (createIndex 0 3 [0]%nat)]) /\
    dirty m' = Some true /\
    addresses m' (createIndex 0 3 [0]%nat) [0]%nat
      (ObjElement (snd (putString dcmtk_good (Leaf PatientName EVR_PN 2 [x41; x20]) "A "))).
Proof.
  apply (setData_outcome dcmtk_good (mkDicom_file scenario_dataset false) []
           (createIndex 0 3 [0]%nat) [0]%nat (Leaf PatientName EVR_PN 2 [x41; x20]) "A ").
  - repeat split.
  - reflexivity.
Defined.

(** X10. [setData] never throws, whatever the index, the text, the role and
    the state; and it returns true only under the edit role for a valid
    index of an element that passes the policy. *)
Theorem setData_never_throws :
  forall (tk : Dcmtk) index (value : string) role m,
    (forall w m', setData tk index value role m <> Throw w m') /\
    (forall m',
        setData tk index value role m = Ok true m' ->
        role = Qt.EditRole /\
        exists p e,
          addresses m index p (ObjElement e) /\ is_allowed_edit_tag (Some e) = true).
Proof.
  intros tk index value role m. unfold setData, bind.
  destruct (negb (isValid index)) eqn:Hv.
  { split; [discriminate |]. intros m' [=]. }
  destruct (negb (role =? Qt.EditRole)) eqn:Hrole.
  { split; [discriminate |]. intros m' [=]. }
  apply negb_false_iff in Hv, Hrole. apply Z.eqb_eq in Hrole.
  destruct (get_object_cases index m) as [[p Hobj] | (ev & Hobj & _)];
    rewrite Hobj.
  2: { cbn. split; [discriminate |]. intros m' [=]. }
  cbn [dynamic_cast_DcmElement]. unfold bind.
  destruct (deref p m) as [o m1 | w m1 |] eqn:Hderef.
  2: { exfalso. exact (deref_not_throw _ _ _ _ Hderef). }
  2: { split; discriminate. }
  apply deref_inv in Hderef as Hinv. destruct Hinv as [-> _].
  destruct o as [e | it].
  2: { cbn. split; [discriminate |]. intros m' [=]. }
  cbn [ret]. destruct (is_allowed_edit_tag (Some e)) eqn:Hallowed; cbn [negb].
  2: { split; [discriminate |]. intros m' [=]. }
  unfold try_catch.
  destruct (set_value tk index value m) as [[] m1 | w m1 |]; cbn.
  - split; [discriminate |]. intros m' _. split; [exact Hrole |].
    exists p, e. split; [| exact Hallowed].
    split; [exact Hv |]. split; [| exact Hderef].
    unfold get_object in Hobj. rewrite Hv in Hobj. cbn in Hobj.
    destruct (internalPointer index); [| discriminate].
    injection Hobj as ->. reflexivity.
  - split; [discriminate |]. intros m' [=].
  - split; discriminate.
Qed.

(** X11. On an element that passes the policy and a file of even size,
    [set_value_from_file] hands DCMTK the size reduced modulo 2^32, sends one
    value-changed notification and marks the file dirty; a bad condition is
    thrown only afterwards. *)
Theorem set_value_from_file_writes_then_reports :
  forall (tk : Dcmtk) file tr index p e (file_path : string),
    addresses (mkModel (Some file) tr) index p (ObjElement e) ->
    is_allowed_edit_tag (Some e) = true ->
    Z.even (getFileSize tk file_path) = true ->
    let size := getFileSize tk file_path mod 2 ^ 32 in
    let status := fst (createValueFromTempFile tk e file_path size) in
    exists m',
      set_value_from_file tk index file_path (mkModel (Some file) tr)
      = (if bad status then Throw (text_of status) m' else Ok tt m') /\
      trace m' = tr ++ [Dcm_createValueFromTempFile p file_path size;
                        dataChanged index index; dataset_changed] /\
      dirty m' = Some true /\
      addresses m' index p
        (ObjElement (snd (createValueFromTempFile tk e file_path size))).
Proof.
  intros tk file tr index p e file_path H Hallowed Heven size status.
  subst status size. change (getFileSize tk file_path mod 2 ^ 32)
    with (to_uint32 (getFileSize tk file_path)).
  destruct (createValueFromTempFile tk e file_path (to_uint32 (getFileSize tk file_path)))
    as [status e'] eqn:Hcreate.
  pose proof (set_value_from_file_whitelisted tk _ _ _ _ _ _ _ _ H Hallowed Heven Hcreate)
    as Hset.
  cbv zeta in Hset. eexists. split; [exact Hset |].
  split; [reflexivity |]. split; [reflexivity |].
  destruct (addresses_inv _ _ _ _ _ H) as (Hv & Hp & Hres).
  split; [exact Hv |]. split; [exact Hp |].
  eapply deref_live; [reflexivity |]. cbn [dataset snd].
  apply (resolve_modify_dataset (fun _ => ObjElement e') p _ _ Hres). exact I.
Qed.

Lemma set_value_from_file_writes_then_reports_witness :
  let size := getFileSize dcmtk_good "name.bin" mod 2 ^ 32 in
  let status := fst (createValueFromTempFile dcmtk_good
                       (Leaf PatientName EVR_PN 2 [x41; x20]) "name.bin" size) in
  exists m',
    set_value_from_file dcmtk_good (createIndex 0 3 [0]%nat) "name.bin"
      (loaded scenario_dataset)
    = (if bad status then Throw (text_of status) m' else Ok tt m') /\
    trace m' = [] ++ [Dcm_createValueFromTempFile [0]%nat "name.bin" size;
                      dataChanged (createIndex 0 3 [0]%nat) (createIndex 0 3 [0]%nat);
                      dataset_changed] /\
    dirty m' = Some true /\
    addresses m' (createIndex 0 3 [0]%nat) [0]%nat
      (ObjElement (snd (createValueFromTempFile dcmtk_good
                          (Leaf PatientName EVR_PN 2 [x41; x20]) "name.bin" size))).
Proof.
  apply (set_value_from_file_writes_then_reports dcmtk_good
           (mkDicom_file scenario_dataset false) []
           (createIndex 0 3 [0]%nat) [0]%nat (Leaf PatientName EVR_PN 2 [x41; x20])
           "name.bin").
  - repeat split.
  - reflexivity.
  - reflexivity.
Defined.

Lemma setData_never_throws_witness :
  Qt.EditRole = Qt.EditRole /\
  exists p e,
    addresses (loaded scenario_dataset) (createIndex 0 3 [0]%nat) p (ObjElement e) /\
    is_allowed_edit_tag (Some e) = true.
Proof.
  eapply (proj2 (setData_never_throws dcmtk_good (createIndex 0 3 [0]%nat) "A "
                   Qt.EditRole (loaded scenario_dataset))).
  vm_compute. reflexivity.
Defined.

(* ------------------------------------------------------------------------- *)
(** ** Queries leave the file alone *)

Lemma read_only_ret {A} (a : A) : read_only (ret a).
Proof. intros m. split; [reflexivity |]. exists []. rewrite app_nil_r. auto. Qed.

Lemma read_only_fault {A} : read_only (@fault A).
Proof. intros m. exact I. Qed.

Lemma read_only_bind {A B} (c : Op A) (k : A -> Op B) :
  read_only c -> (forall a, read_only (k a)) -> read_only (bind c k).
Proof.
  intros Hc Hk m. unfold bind. specialize (Hc m).
  destruct (c m) as [a m1 | w m1 |]; [| exact Hc | exact I].
  destruct Hc as (Hcf1 & l1 & Ht1 & Hl1).
  specialize (Hk a m1). destruct (k a m1) as [b m2 | w m2 |]; [| exact Hk | exact I].
  destruct Hk as (Hcf2 & l2 & Ht2 & Hl2).
  split; [congruence |].
  exists (l1 ++ l2). split; [rewrite Ht2, Ht1, app_assoc; reflexivity |].
  rewrite forallb_app, Hl1, Hl2. reflexivity.
Qed.

Lemma read_only_log level msg : read_only (log level msg).
Proof. intros m. split; [reflexivity |]. exists [Log level msg]. auto. Qed.

Lemma read_only_deref p : read_only (deref p).
Proof.
  intros [cf tr]. unfold deref. cbn. destruct cf as [f |]; [| exact I].
  destruct (resolve (ObjItem (dataset f)) p); [| exact I].
  split; [reflexivity |]. exists []. rewrite app_nil_r. auto.
Qed.

Lemma read_only_get_dataset : read_only get_dataset.
Proof.
  intros [cf tr]. unfold get_dataset. cbn [current_file]. destruct cf.
  - apply read_only_ret.
  - apply read_only_bind; [apply read_only_log | intros; apply read_only_ret].
Qed.

Lemma read_only_get_object index : read_only (get_object index).
Proof.
  unfold get_object. destruct (negb (isValid index)); [apply read_only_get_dataset |].
  destruct (internalPointer index); [apply read_only_ret |].
  apply read_only_bind; [apply read_only_log | intros; apply read_only_ret].
Qed.

Lemma read_only_dynamic_cast_DcmElement object :
  read_only (dynamic_cast_DcmElement object).
Proof.
  destruct object as [p |]; cbn; [| apply read_only_ret].
  apply read_only_bind; [apply read_only_deref | intros; apply read_only_ret].
Qed.

Lemma read_only_rowCount tk index : read_only (rowCount tk index).
Proof.
  unfold rowCount. apply read_only_bind; [apply read_only_get_object |].
  intros [p |]; [| apply read_only_ret].
  apply read_only_bind; [apply read_only_deref |].
  intros o. destruct (isLeaf o); apply read_only_ret.
Qed.

Lemma read_only_hasIndex tk r c index : read_only (hasIndex tk r c index).
Proof.
  unfold hasIndex. destruct ((r <? 0) || (c <? 0)); [apply read_only_ret |].
  apply read_only_bind; [apply read_only_rowCount |]. intros rows.
  destruct (negb (r <? rows)); [apply read_only_ret |].
  apply read_only_bind; [apply read_only_ret | intros; apply read_only_ret].
Qed.

(** X12. The queries of the model ([rowCount], [columnCount], [index],
    [parent], [flags], [get_vr], [data], [headerData]) never throw and never
    touch the current file, its dataset or its dirty flag; all they add to
    the trace are log lines. *)
Theorem queries_are_read_only :
  forall (tk : Dcmtk) (tx : DcmtkText) (get_index_nr : DcmItem -> DcmPtr -> Z)
         (idx : QModelIndex) (r c role section orientation : Z),
    read_only (rowCount tk idx) /\
    read_only (columnCount idx) /\
    read_only (index tk r c idx) /\
    read_only (parent get_index_nr idx) /\
    read_only (flags idx) /\
    read_only (get_vr idx) /\
    read_only (data tx idx role) /\
    read_only (headerData section orientation role).
Proof.
  intros tk tx gin idx r c role section orientation.
  split; [apply read_only_rowCount |].
  split; [apply read_only_ret |].
  split.
  { unfold index. apply read_only_bind; [apply read_only_hasIndex |].
    intros has. destruct (negb has); [apply read_only_ret |].
    apply read_only_bind; [apply read_only_get_object |].
    intros [pp |]; [| apply read_only_ret].
    apply read_only_bind; [apply read_only_deref | intros; apply read_only_ret]. }
  split.
  { unfold parent. destruct (negb (isValid idx)); [apply read_only_ret |].
    apply read_only_bind; [apply read_only_get_object |]. intros object.
    apply read_only_bind.
    { destruct object; [| apply read_only_ret].
      unfold getParent.
      apply read_only_bind; [apply read_only_deref | intros; apply read_only_ret]. }
    intros [pp |]; [| apply read_only_ret].
    apply read_only_bind; [apply read_only_get_dataset |]. intros ds.
    destruct (match ds with Some d => DcmPtr_eqb pp d | None => false end);
      [apply read_only_ret |].
    intros [cf tr]. cbn [current_file].
    destruct cf; [apply read_only_ret | exact I]. }
  split.
  { unfold flags. destruct (negb (isValid idx)); [apply read_only_ret |].
    apply read_only_bind; [apply read_only_get_object |]. intros object.
    apply read_only_bind; [apply read_only_dynamic_cast_DcmElement |].
    intros [[p e] |]; [| apply read_only_ret].
    destruct ((column idx =? 3) && is_allowed_edit_tag (Some e)); apply read_only_ret. }
  split.
  { unfold get_vr. destruct (negb (isValid idx)); [apply read_only_ret |].
    apply read_only_bind; [apply read_only_get_object |].
    intros [p |]; [| apply read_only_ret].
    apply read_only_bind; [apply read_only_deref | intros; apply read_only_ret]. }
  split.
  { unfold data. apply read_only_bind; [apply read_only_get_object |].
    intros [p |]; [| apply read_only_ret].
    destruct (negb (isValid idx)); [apply read_only_ret |].
    apply read_only_bind; [apply read_only_deref |]. intros o.
    destruct (role =? Qt.DisplayRole).
    - destruct (DcmEVR_eqb (ident o) EVR_item || DcmEVR_eqb (ident o) EVR_dataset);
        destruct o; first [apply read_only_ret | apply read_only_fault].
    - destruct (role =? Qt.ForegroundRole); [| apply read_only_ret].
      destruct (is_allowed_edit_tag (as_DcmElement (Some o))); apply read_only_ret. }
  unfold headerData.
  destruct (negb (orientation =? Qt_Horizontal) || negb (role =? Qt.DisplayRole));
    [apply read_only_ret |].
  destruct (columns !! Z.to_nat (to_ulong section));
    [apply read_only_ret | apply read_only_fault].
Qed.

(* ------------------------------------------------------------------------- *)
(** ** More on insertion *)

(** X13. [add_item] does something only at an address of a sequence: a run
    that ends anywhere else ends by throwing "failed to get sequence", with
    the file as it was and nothing but log lines added to the trace. *)
Theorem add_item_needs_sequence :
  forall (tk : Dcmtk) index m m',
    final_state (add_item tk index m) = Some m' ->
    (exists p t its, addresses m index p (ObjElement (DcmSequenceOfItems t its))) \/
    (add_item tk index m = Throw "failed to get sequence" m' /\
     current_file m' = current_file m /\
     exists logs, trace m' = trace m ++ logs /\ forallb is_log logs = true).
Proof.
  intros tk index m m' Hfinal. unfold add_item, bind in Hfinal |- *.
  destruct (get_object_cases index m) as [[p Hobj] | (ev & Hobj & Hev)];
    rewrite Hobj in Hfinal |- *.
  2: { cbn in Hfinal |- *. injection Hfinal as <-. right.
       split; [reflexivity |]. split; [reflexivity |].
       exists [ev]. cbn. rewrite Hev. auto. }
  cbn [dynamic_cast_DcmSequenceOfItems] in Hfinal |- *. unfold bind in Hfinal |- *.
  destruct (deref p m) as [o m1 | w m1 |] eqn:Hderef.
  2: { exfalso. exact (deref_not_throw _ _ _ _ Hderef). }
  2: { discriminate. }
  apply deref_inv in Hderef as Hinv. destruct Hinv as [-> _].
  assert (Hright : forall x : option (DcmPtr * list DcmItem),
             x = None ->
             final_state (throw (A := unit) "failed to get sequence" m) = Some m' ->
             throw (A := unit) "failed to get sequence" m
             = Throw "failed to get sequence" m' /\
             current_file m' = current_file m /\
             exists logs, trace m' = trace m ++ logs /\ forallb is_log logs = true).
  { intros x _ [= <-]. split; [reflexivity |]. split; [reflexivity |].
    exists []. rewrite app_nil_r. auto. }
  destruct o as [[tag vr len v | t its] | it]; cbn [ret] in Hfinal |- *.
  - right. apply (Hright None eq_refl Hfinal).
  - left. exists p, t, its. unfold get_object in Hobj.
    destruct (isValid index) eqn:Hv; cbn in Hobj.
    + destruct (internalPointer index) eqn:Hp; [| discriminate].
      injection Hobj as ->. repeat split; auto.
    + unfold get_dataset in Hobj. destruct (current_file m); [| discriminate].
      injection Hobj as <-. apply deref_inv in Hderef as [_ (f & _ & Hr)].
      discriminate.
  - right. apply (Hright None eq_refl Hfinal).
Qed.

Lemma add_item_needs_sequence_witness :
  (exists p t its,
      addresses (loaded scenario_dataset) QModelIndex_invalid p
        (ObjElement (DcmSequenceOfItems t its))) \/
  (add_item dcmtk_good QModelIndex_invalid (loaded scenario_dataset)
   = Throw "failed to get sequence" (loaded scenario_dataset) /\
   current_file (loaded scenario_dataset) = current_file (loaded scenario_dataset) /\
   exists logs,
     trace (loaded scenario_dataset) = trace (loaded scenario_dataset) ++ logs /\
     forallb is_log logs = true).
Proof.
  apply (add_item_needs_sequence dcmtk_good QModelIndex_invalid (loaded scenario_dataset)
           (loaded scenario_dataset)).
  reflexivity.
Defined.

(** A change at one pointer is not seen through a pointer that parts ways
    with it. *)
Lemma resolve_modify_diverge f c i j p' q' :
  i <> j ->
  forall o,
    resolve (modify f (c ++ i :: p') o) (c ++ j :: q') = resolve o (c ++ j :: q') /\
    same_kind o (modify f (c ++ i :: p') o).
Proof.
  intros Hne. induction c as [| x c IH]; intros o.
  - cbn [app modify resolve].
    destruct o as [[tag vr len v | t its] | [cls els]]; cbn [children].
    + split; [reflexivity | exact I].
    + split; [| exact I].
      rewrite !list_lookup_fmap, list_lookup_alter_ne by exact Hne. reflexivity.
    + split; [| exact I].
      rewrite !list_lookup_fmap, list_lookup_alter_ne by exact Hne. reflexivity.
  - cbn [app modify resolve].
    destruct o as [[tag vr len v | t its] | [cls els]]; cbn [children].
    + split; [reflexivity | exact I].
    + split; [| exact I].
      rewrite !list_lookup_fmap, list_lookup_alter_eq.
      destruct (its !! x) as [it |]; [| reflexivity]. cbn.
      destruct (IH (ObjItem it)) as [Hr Hk].
      destruct (modify f (c ++ i :: p') (ObjItem it)) as [? | it']; [destruct Hk |].
      exact Hr.
    + split; [| exact I].
      rewrite !list_lookup_fmap, list_lookup_alter_eq.
      destruct (els !! x) as [e |]; [| reflexivity]. cbn.
      destruct (IH (ObjElement e)) as [Hr Hk].
      destruct (modify f (c ++ i :: p') (ObjElement e)) as [e' | ?]; [| destruct Hk].
      exact Hr.
Qed.

Lemma deref_modify_diverge f p q file b tr tr' o :
  diverge p q ->
  deref q (mkModel (Some file) tr) = Ok o (mkModel (Some file) tr) ->
  let m' := mkModel
              (Some (mkDicom_file
                       (keep_item (dataset file) (modify f p (ObjItem (dataset file)))) b))
              tr' in
  deref q m' = Ok o m'.
Proof.
  intros (c & i & j & p' & q' & Hne & -> & ->) H m'.
  apply deref_inv in H as [_ (f0 & Hf & Hr)]. cbn in Hf. injection Hf as <-.
  eapply deref_live; [reflexivity |]. cbn [dataset].
  destruct (resolve_modify_diverge f c i j p' q' Hne (ObjItem (dataset file)))
    as [Hres Hk].
  destruct (modify f (c ++ i :: p') (ObjItem (dataset file))) as [? | ds'];
    [destruct Hk |].
  cbn [keep_item]. rewrite Hres. exact Hr.
Qed.

(** X14. At an address of a sequence, with an [append] that succeeds,
    [add_item] returns normally; afterwards the sequence holds its former
    items followed by one empty item, the file is dirty, and every object a
    pointer leads to that parts ways with the sequence is what it was. *)
Theorem add_item_appends_in_place :
  forall (tk : Dcmtk) file tr index p t its,
    addresses (mkModel (Some file) tr) index p (ObjElement (DcmSequenceOfItems t its)) ->
    append_status tk its = EC_Normal ->
    exists m',
      add_item tk index (mkModel (Some file) tr) = Ok tt m' /\
      dirty m' = Some true /\
      addresses m' index p (ObjElement (DcmSequenceOfItems t (its ++ [new_DcmItem]))) /\
      forall q o,
        diverge p q ->
        deref q (mkModel (Some file) tr) = Ok o (mkModel (Some file) tr) ->
        deref q m' = Ok o m'.
Proof.
  intros tk file tr index p t its H Hgood.
  pose proof (add_item_sequence tk _ _ _ _ _ _ H) as Hadd.
  cbv zeta in Hadd. rewrite Hgood in Hadd. cbn [bad] in Hadd.
  destruct (addresses_inv _ _ _ _ _ H) as (Hv & Hp & Hres).
  eexists. split; [exact Hadd |]. split; [reflexivity |]. split.
  - split; [exact Hv |]. split; [exact Hp |].
    eapply deref_live; [reflexivity |]. cbn [dataset].
    apply (resolve_modify_dataset
             (fun _ => ObjElement (DcmSequenceOfItems t (its ++ [new_DcmItem])))
             p _ _ Hres).
    exact I.
  - intros q o Hdiv Hq. apply (deref_modify_diverge _ p q file true tr _ o Hdiv Hq).
Qed.

Lemma add_item_appends_in_place_witness :
  exists m',
    add_item dcmtk_good (createIndex 0 0 [1]%nat) (loaded nested_dataset) = Ok tt m' /\
    dirty m' = Some true /\
    addresses m' (createIndex 0 0 [1]%nat) [1]%nat
      (ObjElement
         (DcmSequenceOfItems ReferencedImageSequence
            ([ MkDcmItem Class_DcmItem [];
               MkDcmItem Class_DcmItem [Leaf PatientID EVR_LO 2 [x42; x20]] ]
             ++ [new_DcmItem]))) /\
    forall q o,
      diverge [1]%nat q ->
      deref q (loaded nested_dataset) = Ok o (loaded nested_dataset) ->
      deref q m' = Ok o m'.
Proof.
  apply (add_item_appends_in_place dcmtk_good (mkDicom_file nested_dataset false) []
           (createIndex 0 0 [1]%nat) [1]%nat ReferencedImageSequence
           [ MkDcmItem Class_DcmItem [];
             MkDcmItem Class_DcmItem [Leaf PatientID EVR_LO 2 [x42; x20]] ]).
  - repeat split.
  - reflexivity.
Defined.

(** X15. The value setters change one object only: after [set_value] or
    [set_value_from_file] at an address of an element, whether the run
    returns or throws, every object a pointer leads to that parts ways with
    the address is what it was. *)
Theorem value_edits_leave_other_objects_alone :
  forall (tk : Dcmtk) file tr index p e (text : string) q o,
    addresses (mkModel (Some file) tr) index p (ObjElement e) ->
    diverge p q ->
    deref q (mkModel (Some file) tr) = Ok o (mkModel (Some file) tr) ->
    (forall m', final_state (set_value tk index text (mkModel (Some file) tr)) = Some m' ->
                deref q m' = Ok o m') /\
    (forall m', final_state (set_value_from_file tk index text (mkModel (Some file) tr))
                = Some m' ->
                deref q m' = Ok o m').
Proof.
  intros tk file tr index p e text q o H Hdiv Hq. split; intros m' Hfinal.
  - destruct (is_allowed_edit_tag (Some e)) eqn:Hallowed.
    + destruct (putString tk e text) as [status e'] eqn:Hput.
      rewrite (set_value_whitelisted tk _ _ _ _ _ _ _ _ H Hallowed Hput) in Hfinal.
      cbv zeta in Hfinal.
      assert (Hm' : Some (mkModel
                (Some (mkDicom_file
                   (keep_item (dataset file)
                      (modify (fun _ => ObjElement e') p (ObjItem (dataset file)))) true))
                (tr ++ [Dcm_putString p text; dataChanged index index; dataset_changed]))
              = Some m')
        by (destruct (bad status); exact Hfinal).
      injection Hm' as <-.
      apply (deref_modify_diverge _ p q file true tr _ o Hdiv Hq).
    + rewrite (set_value_denied tk _ _ _ _ text H Hallowed) in Hfinal.
      injection Hfinal as <-. eapply deref_trace. exact Hq.
  - destruct (is_allowed_edit_tag (Some e)) eqn:Hallowed.
    + destruct (Z.even (getFileSize tk text)) eqn:Heven.
      * destruct (createValueFromTempFile tk e text (to_uint32 (getFileSize tk text)))
          as [status e'] eqn:Hcreate.
        rewrite (set_value_from_file_whitelisted tk _ _ _ _ _ _ _ _ H Hallowed Heven Hcreate)
          in Hfinal.
        cbv zeta in Hfinal.
        assert (Hm' : Some (mkModel
                  (Some (mkDicom_file
                     (keep_item (dataset file)
                        (modify (fun _ => ObjElement e') p (ObjItem (dataset file)))) true))
                  (tr ++ [Dcm_createValueFromTempFile p text
                            (to_uint32 (getFileSize tk text));
                          dataChanged index index; dataset_changed]))
                = Some m')
          by (destruct (bad status); exact Hfinal).
        injection Hm' as <-.
        apply (deref_modify_diverge _ p q file true tr _ o Hdiv Hq).
      * rewrite (set_value_from_file_odd tk _ _ _ _ text H Hallowed) in Hfinal
          by (rewrite <- Z.negb_even, Heven; reflexivity).
        injection Hfinal as <-. exact Hq.
    + rewrite (set_value_from_file_denied tk _ _ _ _ text H Hallowed) in Hfinal.
      injection Hfinal as <-. eapply deref_trace. exact Hq.
Qed.

Lemma value_edits_leave_other_objects_alone_witness :
  (forall m',
      final_state (set_value dcmtk_good (createIndex 0 3 [0]%nat) "B"
                     (loaded scenario_dataset)) = Some m' ->
      deref [2]%nat m' = Ok (ObjElement (Leaf PatientID EVR_LO 2 [x42; x20])) m') /\
  (forall m',
      final_state (set_value_from_file dcmtk_good (createIndex 0 3 [0]%nat) "B"
                     (loaded scenario_dataset)) = Some m' ->
      deref [2]%nat m' = Ok (ObjElement (Leaf PatientID EVR_LO 2 [x42; x20])) m').
Proof.
  apply (value_edits_leave_other_objects_alone dcmtk_good
           (mkDicom_file scenario_dataset false) [] (createIndex 0 3 [0]%nat) [0]%nat
           (Leaf PatientName EVR_PN 2 [x41; x20]) "B" [2]%nat
           (ObjElement (Leaf PatientID EVR_LO 2 [x42; x20]))).
  - repeat split.
  - exists [], 0%nat, 2%nat, [], []. repeat split. lia.
  - reflexivity.
Defined.

(** X16. [rowCount] fits an [int] and never exceeds the number of children:
    whenever it returns, the count lies between 0 and 2^31 - 1, and it is
    at most the number of children of the object the index leads to. *)
Theorem rowCount_bounds :
  forall (tk : Dcmtk) index m n m',
    rowCount tk index m = Ok n m' ->
    0 <= n < 2 ^ 31 /\
    forall pp o,
      get_object index m = Ok (Some pp) m ->
      deref pp m = Ok o m ->
      n <= Z.of_nat (length (children o)).
Proof.
  assert (Hloop : forall o k i count,
             count <= rowCount_loop o k i count <= count + Z.of_nat k).
  { intros o k. induction k as [| k IH]; intros i count; cbn [rowCount_loop]; [lia |].
    destruct (non_null (as_DcmElement (child_at o i)) &&
              is_allowed_edit_tag (as_DcmElement (child_at o i))).
    - specialize (IH (i + 1) (count + 1)). lia.
    - specialize (IH (i + 1) count). lia. }
  intros tk index m n m' Hrows. unfold rowCount, bind in Hrows.
  destruct (get_object_cases index m) as [[p Hobj] | (ev & Hobj & _)];
    rewrite Hobj in Hrows.
  2: { injection Hrows as <- <-. split; [lia |].
       intros pp o Hobj'. rewrite Hobj in Hobj'. discriminate. }
  destruct (deref p m) as [o m1 | w m1 |] eqn:Hderef; try discriminate.
  apply deref_inv in Hderef as Hinv. destruct Hinv as [-> _].
  assert (Hbound : 0 <= n < 2 ^ 31 /\ n <= Z.of_nat (length (children o))).
  { destruct (isLeaf o) eqn:Hleaf.
    - injection Hrows as <- <-. lia.
    - injection Hrows as <- <-.
      pose proof (to_int_range (getNumberOfValues tk o)) as Hrange.
      pose proof (Hloop o (Z.to_nat (to_int (getNumberOfValues tk o))) 0 0) as Hl.
      assert (Hle : to_int (getNumberOfValues tk o) <= Z.of_nat (length (children o))).
      { destruct o as [[tag vr len v | t its] | [cls els]]; [discriminate | |];
          cbn [getNumberOfValues children]; rewrite length_fmap;
          apply to_int_le; lia. }
      lia. }
  split; [apply Hbound |].
  intros pp o' Hobj' Hderef'. rewrite Hobj in Hobj'. injection Hobj' as <-.
  rewrite Hderef in Hderef'. injection Hderef' as <-. apply Hbound.
Qed.

Lemma rowCount_bounds_witness :
  0 <= 2 < 2 ^ 31 /\
  forall pp o,
    get_object QModelIndex_invalid (loaded scenario_dataset)
    = Ok (Some pp) (loaded scenario_dataset) ->
    deref pp (loaded scenario_dataset) = Ok o (loaded scenario_dataset) ->
    2 <= Z.of_nat (length (children o)).
Proof.
  apply (rowCount_bounds dcmtk_good QModelIndex_invalid (loaded scenario_dataset) 2
           (loaded scenario_dataset)).
  reflexivity.
Defined.

(* ------------------------------------------------------------------------- *)
(** ** What a cell shows *)

(** X17. The value column of an element never decodes more than 100 bytes:
    for an address of an element in column 3, the display text is empty when
    the VR of the tag is SQ, the decoded string when the element reports a
    length of at most 100, and the fixed placeholder when it reports more;
    the decoded string plays no part in the last case. *)
Theorem data_value_column :
  forall (tx : DcmtkText) m index p e,
    addresses m index p (ObjElement e) ->
    column index = 3 ->
    ident (ObjElement e) <> EVR_item ->
    ident (ObjElement e) <> EVR_dataset ->
    (getEVR tx e = EVR_SQ ->
     data tx index Qt.DisplayRole m = Ok (QVariant_string EmptyString) m) /\
    (getEVR tx e <> EVR_SQ -> getLength tx (ObjElement e) <= 100 ->
     data tx index Qt.DisplayRole m = Ok (QVariant_string (getOFStringArray tx e)) m) /\
    (getEVR tx e <> EVR_SQ -> 100 < getLength tx (ObjElement e) ->
     data tx index Qt.DisplayRole m = Ok (QVariant_string large_value_text) m).
Proof.
  intros tx m index p e H Hcol Hitem Hdataset.
  assert (Hdata : data tx index Qt.DisplayRole m
                  = Ok (get_element_data tx e 3) m).
  { unfold data, bind. rewrite (get_object_addresses _ _ _ _ H).
    destruct H as (Hv & _ & Hd). rewrite Hv. cbn [negb]. rewrite Hd.
    change (Qt.DisplayRole =? Qt.DisplayRole) with true. cbv iota.
    replace (DcmEVR_eqb (ident (ObjElement e)) EVR_item
             || DcmEVR_eqb (ident (ObjElement e)) EVR_dataset) with false.
    - rewrite Hcol. reflexivity.
    - symmetry. apply orb_false_intro.
      + destruct (ident (ObjElement e)); try reflexivity. congruence.
      + destruct (ident (ObjElement e)); try reflexivity. congruence. }
  rewrite Hdata. unfold get_element_data. cbn [Z.eqb].
  unfold max_value_display_length.
  split; [| split].
  - intros ->. reflexivity.
  - intros Hvr Hlen.
    replace (DcmEVR_eqb (getEVR tx e) EVR_SQ) with false
      by (destruct (getEVR tx e); try reflexivity; congruence).
    replace (getLength tx (ObjElement e) <=? 100) with true
      by (symmetry; apply Z.leb_le; exact Hlen).
    reflexivity.
  - intros Hvr Hlen.
    replace (DcmEVR_eqb (getEVR tx e) EVR_SQ) with false
      by (destruct (getEVR tx e); try reflexivity; congruence).
    replace (getLength tx (ObjElement e) <=? 100) with false
      by (symmetry; apply Z.leb_gt; exact Hlen).
    reflexivity.
Qed.

Lemma data_value_column_witness :
  data (mkDcmtkText (fun _ => "(0010,0010)"%string) (fun _ => "PatientName"%string)
          (fun _ => "PN"%string) (fun _ => EVR_PN) (fun _ => 150)
          (fun _ => "A"%string))
       (createIndex 0 3 [0]%nat) Qt.DisplayRole (loaded scenario_dataset)
  = Ok (QVariant_string large_value_text) (loaded scenario_dataset).
Proof.
  assert (H : addresses (loaded scenario_dataset) (createIndex 0 3 [0]%nat) [0]%nat
                (ObjElement (Leaf PatientName EVR_PN 2 [x41; x20])))
    by (repeat split).
  apply (data_value_column _ _ _ _ _ H).
  - reflexivity.
  - discriminate.
  - discriminate.
  - discriminate.
  - cbn. lia.
Defined.

(** X18. An item row is labelled with its row counted from one: for an
    address of an item or dataset and a row below 2^31 - 1, the display text
    of column 0 is "Item " followed by the decimal digits of the row plus
    one, column 2 shows the length the item reports, and every other column
    shows nothing. *)
Theorem data_item_row :
  forall (tx : DcmtkText) m index p cls els,
    addresses m index p (ObjItem (MkDcmItem cls els)) ->
    cls = Class_DcmItem \/ cls = Class_DcmDataset ->
    row index < 2 ^ 31 - 1 ->
    data tx index Qt.DisplayRole m
    = Ok (if column index =? 0
          then QVariant_string ("Item " ++ QString_number (row index + 1))
          else if column index =? 2
               then QVariant_uint (getLength tx (ObjItem (MkDcmItem cls els)))
               else QVariant_null) m.
Proof.
  intros tx m index p cls els H Hcls Hrow.
  unfold data, bind. rewrite (get_object_addresses _ _ _ _ H).
  destruct H as (Hv & _ & Hd). rewrite Hv. cbn [negb]. rewrite Hd.
  change (Qt.DisplayRole =? Qt.DisplayRole) with true. cbv iota.
  replace (DcmEVR_eqb (ident (ObjItem (MkDcmItem cls els))) EVR_item
           || DcmEVR_eqb (ident (ObjItem (MkDcmItem cls els))) EVR_dataset)
    with true by (destruct Hcls as [-> | ->]; reflexivity).
  unfold get_item_data, ret.
  assert (Hrow0 : 0 <= row index).
  { unfold isValid in Hv. apply andb_prop in Hv as [Hv _].
    apply andb_prop in Hv as [Hv _]. apply Z.leb_le. exact Hv. }
  rewrite to_int_small by lia. reflexivity.
Qed.

Lemma data_item_row_witness :
  data (mkDcmtkText (fun _ => ""%string) (fun _ => ""%string) (fun _ => ""%string)
          (fun _ => EVR_UN) (fun _ => 0) (fun _ => ""%string))
       (createIndex 1 0 [1; 1]%nat) Qt.DisplayRole (loaded nested_dataset)
  = Ok (QVariant_string "Item 2") (loaded nested_dataset).
Proof.
  apply (data_item_row _ (loaded nested_dataset) (createIndex 1 0 [1; 1]%nat)
           [1; 1]%nat Class_DcmItem [Leaf PatientID EVR_LO 2 [x42; x20]]).
  - repeat split.
  - left. reflexivity.
  - cbn. lia.
Defined.

(** X19. [data] answers with the empty variant, and by a normal return,
    for an invalid index and for a valid index with a null pointer whatever
    the role, and for a live address under every role other than the display
    and the foreground role. *)
Theorem data_shows_nothing :
  forall (tx : DcmtkText) index role m,
    (isValid index = false \/ internalPointer index = None ->
     exists m', data tx index role m = Ok QVariant_null m') /\
    (forall p o,
        addresses m index p o ->
        role <> Qt.DisplayRole -> role <> Qt.ForegroundRole ->
        data tx index role m = Ok QVariant_null m).
Proof.
  intros tx index role m. split.
  - intros Hnothing. unfold data, bind.
    destruct (get_object_cases index m) as [[p Hobj] | (ev & Hobj & _)];
      rewrite Hobj; [| eexists; reflexivity].
    destruct (isValid index) eqn:Hv; [| eexists; reflexivity].
    destruct Hnothing as [Hf | Hnull]; [discriminate |].
    unfold get_object in Hobj. rewrite Hv, Hnull in Hobj. discriminate.
  - intros p o H Hd Hf. unfold data, bind.
    rewrite (get_object_addresses _ _ _ _ H).
    destruct H as (Hv & _ & Hderef). rewrite Hv. cbn [negb]. rewrite Hderef.
    replace (role =? Qt.DisplayRole) with false
      by (symmetry; apply Z.eqb_neq; exact Hd).
    replace (role =? Qt.ForegroundRole) with false
      by (symmetry; apply Z.eqb_neq; exact Hf).
    reflexivity.
Qed.

Lemma data_shows_nothing_witness :
  exists m',
    data (mkDcmtkText (fun _ => ""%string) (fun _ => ""%string) (fun _ => ""%string)
            (fun _ => EVR_UN) (fun _ => 0) (fun _ => ""%string))
         QModelIndex_invalid Qt.DisplayRole (loaded scenario_dataset)
    = Ok QVariant_null m'.
Proof.
  apply (data_shows_nothing _ QModelIndex_invalid Qt.DisplayRole (loaded scenario_dataset)).
  left. reflexivity.
Defined.

(** X20. [headerData] names exactly the columns [columnCount] announces:
    for the horizontal orientation and the display role every section from
    0 below the column count gets a text, in the order Tag, VR, Length,
    Value; for the vertical orientation or another role the answer is the
    empty variant whatever the section. *)
Theorem headerData_names_the_columns :
  forall (index : QModelIndex) (section orientation role : Z) m count m',
    columnCount index m = Ok count m' ->
    count = 4 /\
    (0 <= section < count ->
     exists name,
       [ "Tag"%string; "VR"%string; "Length"%string; "Value"%string ]
         !! Z.to_nat section = Some name /\
       headerData section Qt_Horizontal Qt.DisplayRole m = Ok (QVariant_string name) m) /\
    (orientation <> Qt_Horizontal \/ role <> Qt.DisplayRole ->
     headerData section orientation role m = Ok QVariant_null m).
Proof.
  intros index section orientation role m count m' Hcount.
  injection Hcount as <- <-. change (to_int (Z.of_nat 4)) with 4.
  split; [reflexivity |]. split.
  - intros Hsection. unfold headerData.
    change (negb (Qt_Horizontal =? Qt_Horizontal)
            || negb (Qt.DisplayRole =? Qt.DisplayRole)) with false.
    cbv iota.
    assert (Hcases : section = 0 \/ section = 1 \/ section = 2 \/ section = 3) by lia.
    destruct Hcases as [-> | [-> | [-> | ->]]]; eexists; split; reflexivity.
  - intros Hother. unfold headerData.
    replace (negb (orientation =? Qt_Horizontal) || negb (role =? Qt.DisplayRole))
      with true; [reflexivity |].
    symmetry. apply orb_true_iff.
    destruct Hother as [Ho | Hr]; [left | right];
      apply negb_true_iff; apply Z.eqb_neq; assumption.
Qed.

Lemma headerData_names_the_columns_witness :
  4 = 4 /\
  (0 <= 3 < 4 ->
   exists name,
     [ "Tag"%string; "VR"%string; "Length"%string; "Value"%string ]
       !! Z.to_nat 3 = Some name /\
     headerData 3 Qt_Horizontal Qt.DisplayRole (loaded scenario_dataset)
     = Ok (QVariant_string name) (loaded scenario_dataset)) /\
  (Qt_Vertical <> Qt_Horizontal \/ Qt.DisplayRole <> Qt.DisplayRole ->
   headerData 3 Qt_Vertical Qt.DisplayRole (loaded scenario_dataset)
   = Ok QVariant_null (loaded scenario_dataset)).
Proof.
  apply (headerData_names_the_columns QModelIndex_invalid 3 Qt_Vertical Qt.DisplayRole
           (loaded scenario_dataset) 4 (loaded scenario_dataset)).
  reflexivity.
Defined.

(* ------------------------------------------------------------------------- *)
(** ** No file loaded *)

(** X21. Without a current file the model is empty and refuses every edit
    at the root: for an invalid index, [rowCount] is 0, [index] gives the
    invalid index for every row and column, [data] shows nothing, [add_item]
    throws "failed to get sequence", [set_value] and [set_value_from_file]
    throw "failed to get element"; each of them leaves the model without a
    file and adds nothing to the trace but the debug line of
    [get_dataset]. *)
Theorem no_file_loaded :
  forall (tk : Dcmtk) (tx : DcmtkText) (root : QModelIndex) (r c role : Z)
         (text path : string) (m : Model),
    current_file m = None ->
    isValid root = false ->
    let m1 := mkModel None (trace m ++ [Log Log_debug "Failed to get dataset"]) in
    rowCount tk root m = Ok 0 m1 /\
    (index tk r c root m = Ok QModelIndex_invalid m \/
     index tk r c root m = Ok QModelIndex_invalid m1) /\
    data tx root role m = Ok QVariant_null m1 /\
    add_item tk root m = Throw "failed to get sequence" m1 /\
    set_value tk root text m = Throw "failed to get element" m1 /\
    set_value_from_file tk root path m = Throw "failed to get element" m1.
Proof.
  intros tk tx root r c role text path [cf tr] Hfile Hroot m1. subst m1.
  cbn in Hfile. subst cf. cbn [trace].
  assert (Hobj : get_object root (mkModel None tr)
                 = Ok None (mkModel None (tr ++ [Log Log_debug "Failed to get dataset"]))).
  { unfold get_object. rewrite Hroot. reflexivity. }
  assert (Hrows : rowCount tk root (mkModel None tr)
                  = Ok 0 (mkModel None (tr ++ [Log Log_debug "Failed to get dataset"]))).
  { unfold rowCount, bind. rewrite Hobj. reflexivity. }
  split; [exact Hrows |]. split; [| split; [| split; [| split]]].
  - unfold index, hasIndex, bind. destruct ((r <? 0) || (c <? 0)) eqn:Hneg.
    + left. reflexivity.
    + right. rewrite Hrows.
      replace (r <? 0) with false by (apply orb_false_elim in Hneg as [-> _]; reflexivity).
      reflexivity.
  - unfold data, bind. rewrite Hobj. reflexivity.
  - unfold add_item, bind. rewrite Hobj. reflexivity.
  - unfold set_value, bind. rewrite Hobj. reflexivity.
  - unfold set_value_from_file, bind. rewrite Hobj. reflexivity.
Qed.

Lemma no_file_loaded_witness :
  let m1 := mkModel None ([] ++ [Log Log_debug "Failed to get dataset"]) in
  rowCount dcmtk_good QModelIndex_invalid (mkModel None []) = Ok 0 m1 /\
  (index dcmtk_good 0 0 QModelIndex_invalid (mkModel None [])
   = Ok QModelIndex_invalid (mkModel None []) \/
   index dcmtk_good 0 0 QModelIndex_invalid (mkModel None [])
   = Ok QModelIndex_invalid m1) /\
  data (mkDcmtkText (fun _ => ""%string) (fun _ => ""%string) (fun _ => ""%string)
          (fun _ => EVR_UN) (fun _ => 0) (fun _ => ""%string))
       QModelIndex_invalid Qt.DisplayRole (mkModel None []) = Ok QVariant_null m1 /\
  add_item dcmtk_good QModelIndex_invalid (mkModel None [])
  = Throw "failed to get sequence" m1 /\
  set_value dcmtk_good QModelIndex_invalid "A " (mkModel None [])
  = Throw "failed to get element" m1 /\
  set_value_from_file dcmtk_good QModelIndex_invalid "value.bin" (mkModel None [])
  = Throw "failed to get element" m1.
Proof.
  apply (no_file_loaded dcmtk_good _ QModelIndex_invalid 0 0 Qt.DisplayRole
           "A " "value.bin" (mkModel None [])).
  - reflexivity.
  - reflexivity.
Defined.

(* ------------------------------------------------------------------------- *)
(** ** The tag path field of the batch dialog *)

Section Tag_path_field.

Local Open Scope string_scope.

Lemma prefix_app (n y : string) : String.prefix n (n ++ y) = true.
Proof.
  induction n as [| a n IH]; [destruct y; reflexivity |].
  cbn. destruct (ascii_dec a a); [exact IH | congruence].
Qed.

Lemma contains_unfold (s n : string) :
  contains s n
  = String.prefix n s
    || match s with
       | EmptyString => false
       | String _ s' => contains s' n
       end.
Proof. destruct s; reflexivity. Qed.

Lemma contains_mid (x n y : string) : contains (x ++ n ++ y) n = true.
Proof.
  induction x as [| a x IH].
  - cbn [String.append]. rewrite contains_unfold, prefix_app. reflexivity.
  - cbn [String.append]. rewrite contains_unfold, IH. apply orb_true_r.
Qed.

Lemma toLower_app (a b : string) : toLower (a ++ b) = toLower a ++ toLower b.
Proof. induction a as [| c a IH]; [reflexivity |]. cbn. rewrite IH. reflexivity. Qed.

Lemma QChar_isSpace_toLower (c : ascii) :
  QChar_isSpace (QChar_toLower c) = QChar_isSpace c.
Proof. destruct c as [[] [] [] [] [] [] [] []]; vm_compute; reflexivity. Qed.

Lemma string_app_assoc (a b c : string) : (a ++ b) ++ c = a ++ b ++ c.
Proof. induction a as [| x a IH]; [reflexivity |]. cbn. rewrite IH. reflexivity. Qed.

Lemma trim_right_cons (c : ascii) (y : string) :
  QChar_isSpace c = false -> trim_right (String c y) = String c (trim_right y).
Proof. intros Hc. cbn. rewrite Hc. destruct (trim_right y); reflexivity. Qed.

Lemma trim_right_app_cons (c : ascii) (x y : string) :
  QChar_isSpace c = false ->
  trim_right (x ++ String c y) = x ++ String c (trim_right y).
Proof.
  intros Hc. induction x as [| a x IH].
  - apply trim_right_cons. exact Hc.
  - cbn [String.append trim_right]. rewrite IH.
    destruct x; reflexivity.
Qed.

(** A word without white space survives [trim_right] wherever it stands. *)
Lemma trim_right_keep (w : string) :
  (forall c, In c (list_ascii_of_string w) -> QChar_isSpace c = false) ->
  w <> EmptyString ->
  forall x y, exists y', trim_right (x ++ w ++ y) = x ++ w ++ y'.
Proof.
  induction w as [| c w IH]; intros Hw Hne x y; [congruence |].
  destruct w as [| d w].
  - exists (trim_right y). cbn [String.append]. apply trim_right_app_cons.
    apply Hw. left. reflexivity.
  - destruct (IH (fun a Ha => Hw a (or_intror Ha)) ltac:(discriminate)
                (x ++ String c EmptyString) y) as [y' Hy'].
    exists y'. rewrite !string_app_assoc in Hy'. exact Hy'.
Qed.

Lemma trim_left_keep (c : ascii) (z : string) :
  QChar_isSpace c = false ->
  forall x, exists x', trim_left (x ++ String c z) = x' ++ String c z.
Proof.
  intros Hc. induction x as [| a x [x' IH]].
  - exists EmptyString. cbn. rewrite Hc. reflexivity.
  - cbn [String.append trim_left]. destruct (QChar_isSpace a).
    + exists x'. exact IH.
    + exists (String a x). reflexivity.
Qed.

Lemma trimmed_keep (w : string) :
  (forall c, In c (list_ascii_of_string w) -> QChar_isSpace c = false) ->
  w <> EmptyString ->
  forall x y, exists x' y', trimmed (x ++ w ++ y) = x' ++ w ++ y'.
Proof.
  intros Hw Hne x y. destruct w as [| c w]; [congruence |].
  destruct (trim_left_keep c (w ++ y) (Hw c (or_introl eq_refl)) x) as [x' Hx'].
  destruct (trim_right_keep (String c w) Hw Hne x' y) as [y' Hy'].
  exists x', y'. unfold trimmed. cbn [String.append]. rewrite Hx'. exact Hy'.
Qed.

Lemma no_space_toLower (w : string) :
  (forall c, In c (list_ascii_of_string (toLower w)) -> QChar_isSpace c = false) ->
  forall c, In c (list_ascii_of_string w) -> QChar_isSpace c = false.
Proof.
  induction w as [| a w IH]; intros Hw c Hc; [destruct Hc |].
  destruct Hc as [<- | Hc].
  - rewrite <- QChar_isSpace_toLower. apply Hw. left. reflexivity.
  - apply IH; [| exact Hc]. intros d Hd. apply Hw. right. exact Hd.
Qed.

Lemma is_study_date_needle (x w y : string) :
  toLower w = "studydate"%string \/ toLower w = "0008,0020"%string ->
  is_study_date (x ++ w ++ y) = true.
Proof.
  intros Hw.
  assert (Hns : forall c, In c (list_ascii_of_string w) -> QChar_isSpace c = false).
  { apply no_space_toLower. intros c Hc.
    destruct Hw as [Hw | Hw]; rewrite Hw in Hc; cbn in Hc;
      repeat (destruct Hc as [<- | Hc]; [reflexivity |]); destruct Hc. }
  assert (Hne : w <> EmptyString).
  { intros ->. destruct Hw; discriminate. }
  destruct (trimmed_keep w Hns Hne x y) as (x' & y' & Htrim).
  unfold is_study_date. cbv zeta. rewrite Htrim, !toLower_app.
  destruct Hw as [-> | ->]; rewrite contains_mid.
  - apply orb_true_r.
  - reflexivity.
Qed.

Lemma contains_head_in (a : ascii) (n s : string) :
  contains s (String a n) = true -> In a (list_ascii_of_string s).
Proof.
  induction s as [| b s IH]; intros H.
  - discriminate.
  - cbn in H. destruct (ascii_dec a b) as [-> | Hab].
    + left. reflexivity.
    + right. apply IH. exact H.
Qed.

Lemma In_trim_left (a : ascii) (s : string) :
  In a (list_ascii_of_string (trim_left s)) -> In a (list_ascii_of_string s).
Proof.
  induction s as [| b s IH]; [intros [] |].
  cbn [trim_left]. destruct (QChar_isSpace b).
  - intros H. right. apply IH. exact H.
  - intros H. exact H.
Qed.

Lemma In_trim_right (a : ascii) (s : string) :
  In a (list_ascii_of_string (trim_right s)) -> In a (list_ascii_of_string s).
Proof.
  induction s as [| b s IH]; [intros [] |].
  cbn [trim_right]. destruct (trim_right s) as [| d t].
  - destruct (QChar_isSpace b); [intros [] |].
    intros [<- | []]. left. reflexivity.
  - intros [<- | H]; [left; reflexivity |]. right. apply IH. exact H.
Qed.

Lemma In_toLower (a : ascii) (s : string) :
  In a (list_ascii_of_string (toLower s)) ->
  exists c, In c (list_ascii_of_string s) /\ QChar_toLower c = a.
Proof.
  induction s as [| b s IH]; [intros [] |].
  intros [<- | H].
  - exists b. split; [left |]; reflexivity.
  - destruct (IH H) as (c & Hc & Hlow). exists c. split; [right |]; assumption.
Qed.

(** X22. A tag path that holds the keyword or the number of StudyDate
    anywhere locks the dialog: whatever stands before and after a word whose
    lower-case form is studydate or 0008,0020, the handler of the tag path
    field disables the value field and the three mode buttons, clears the
    value text and shows the StudyDate placeholder; the checked mode and the
    tag path text stay as they were. *)
Theorem study_date_tag_path_locks_dialog :
  forall (before word after : string) (v : Edit_all_files_view),
    toLower word = "studydate"%string \/ toLower word = "0008,0020"%string ->
    let v' := tag_path_textChanged (before ++ word ++ after) v in
    m_value_edit_enabled v' = false /\
    m_set_button_enabled v' = false /\
    m_set_existing_button_enabled v' = false /\
    m_delete_button_enabled v' = false /\
    value v' = EmptyString /\
    m_value_edit_placeholder v' = study_date_placeholder /\
    mode v' = mode v /\
    tag_path v' = tag_path v.
Proof.
  intros before word after v Hword v'. subst v'.
  unfold tag_path_textChanged. cbv zeta.
  rewrite (is_study_date_needle before word after Hword).
  repeat split.
Qed.

Lemma study_date_tag_path_locks_dialog_witness :
  let v' := tag_path_textChanged
              ("  (0010,0010)[0]." ++ "StudyDATE" ++ " ")
              (mkEdit_all_files_view "" "20200101" true value_placeholder
                 false true true true false true) in
  m_value_edit_enabled v' = false /\
  m_set_button_enabled v' = false /\
  m_set_existing_button_enabled v' = false /\
  m_delete_button_enabled v' = false /\
  value v' = EmptyString /\
  m_value_edit_placeholder v' = study_date_placeholder /\
  mode v' = Mode_set_existing /\
  tag_path v' = EmptyString.
Proof.
  apply (study_date_tag_path_locks_dialog "  (0010,0010)[0]." "StudyDATE" " "
           (mkEdit_all_files_view "" "20200101" true value_placeholder
              false true true true false true)).
  left. reflexivity.
Defined.

Lemma prefix_length (n s : string) :
  String.prefix n s = true -> (String.length n <= String.length s)%nat.
Proof.
  revert n. induction s as [| b s IH]; intros [| a n] H.
  - reflexivity.
  - discriminate H.
  - cbn. lia.
  - cbn in H. destruct (ascii_dec a b); [| discriminate H].
    apply IH in H. cbn. lia.
Qed.

Lemma contains_length (n s : string) :
  contains s n = true -> (String.length n <= String.length s)%nat.
Proof.
  induction s as [| b s IH]; intros H; rewrite contains_unfold in H;
    apply orb_true_iff in H as [H | H].
  - apply prefix_length. exact H.
  - discriminate.
  - apply prefix_length. exact H.
  - apply IH in H. cbn. lia.
Qed.

Lemma trim_left_length (s : string) :
  (String.length (trim_left s) <= String.length s)%nat.
Proof.
  induction s as [| b s IH]; [reflexivity |].
  cbn [trim_left]. destruct (QChar_isSpace b); cbn; lia.
Qed.

Lemma trim_right_length (s : string) :
  (String.length (trim_right s) <= String.length s)%nat.
Proof.
  induction s as [| b s IH]; [reflexivity |].
  cbn [trim_right]. destruct (trim_right s) as [| d t].
  - destruct (QChar_isSpace b); cbn; lia.
  - cbn in *. lia.
Qed.

Lemma toLower_length (s : string) : String.length (toLower s) = String.length s.
Proof. induction s as [| b s IH]; [reflexivity |]. cbn. rewrite IH. reflexivity. Qed.

(** X23. The test of the tag path field is textual. A text of fewer than
    nine characters, and a text in which no character is the digit 0 and
    none has the lower-case form s, is never taken for StudyDate: the
    handler enables the value field and the three mode buttons, keeps the
    value text and shows the ordinary placeholder. *)
Theorem short_tag_path_is_open :
  forall (text : string) (v : Edit_all_files_view),
    (String.length text < 9)%nat \/
    (forall c, In c (list_ascii_of_string text) ->
               QChar_toLower c <> "0"%char /\ QChar_toLower c <> "s"%char) ->
    is_study_date text = false /\
    let v' := tag_path_textChanged text v in
    m_value_edit_enabled v' = true /\
    m_set_button_enabled v' = true /\
    m_set_existing_button_enabled v' = true /\
    m_delete_button_enabled v' = true /\
    value v' = value v /\
    m_value_edit_placeholder v' = value_placeholder /\
    mode v' = mode v.
Proof.
  intros text v Htext.
  assert (Hno : forall a n, (a = "0"%char \/ a = "s"%char) -> String.length n = 8%nat ->
                contains (toLower (trimmed text)) (String a n) = false).
  { intros a n Ha Hn. destruct (contains _ _) eqn:Hc; [| reflexivity]. exfalso.
    destruct Htext as [Hshort | Hchars].
    - apply contains_length in Hc. rewrite toLower_length in Hc.
      unfold trimmed in Hc.
      pose proof (trim_right_length (trim_left text)).
      pose proof (trim_left_length text). cbn in Hc. lia.
    - apply contains_head_in, In_toLower in Hc as (c & Hc & Hlow).
      unfold trimmed in Hc. apply In_trim_right, In_trim_left in Hc.
      destruct (Hchars c Hc) as [H0 Hs]. destruct Ha as [-> | ->]; contradiction. }
  assert (Hstudy : is_study_date text = false).
  { unfold is_study_date. cbv zeta.
    rewrite (Hno "0"%char "008,0020" (or_introl eq_refl) eq_refl).
    rewrite (Hno "s"%char "tudydate" (or_intror eq_refl) eq_refl).
    reflexivity. }
  split; [exact Hstudy |]. cbv zeta. unfold tag_path_textChanged. cbv zeta.
  rewrite Hstudy. repeat split.
Qed.

Lemma short_tag_path_is_open_witness :
  is_study_date "8,20" = false /\
  let v' := tag_path_textChanged "8,20"
              (mkEdit_all_files_view "8,20" "20200101" false study_date_placeholder
                 true false false false false false) in
  m_value_edit_enabled v' = true /\
  m_set_button_enabled v' = true /\
  m_set_existing_button_enabled v' = true /\
  m_delete_button_enabled v' = true /\
  value v' = "20200101" /\
  m_value_edit_placeholder v' = value_placeholder /\
  mode v' = Mode_set.
Proof.
  apply (short_tag_path_is_open "8,20"
           (mkEdit_all_files_view "8,20" "20200101" false study_date_placeholder
              true false false false false false)).
  left. cbn. lia.
Defined.

(** X24. What the dialog shows after two changes of the tag path depends on
    the widgets before only through the value text and the checked mode: the
    four enabled flags and the placeholder are those the last text alone
    gives, the checked mode is never changed, and the value text is the old
    one unless one of the two texts was taken for StudyDate, in which case
    it is empty and is not restored. *)
Theorem tag_path_changes_compose :
  forall (first last : string) (v : Edit_all_files_view),
    let v1 := tag_path_textChanged first v in
    let v2 := tag_path_textChanged last v1 in
    m_value_edit_enabled v2 = negb (is_study_date last) /\
    m_set_button_enabled v2 = negb (is_study_date last) /\
    m_set_existing_button_enabled v2 = negb (is_study_date last) /\
    m_delete_button_enabled v2 = negb (is_study_date last) /\
    m_value_edit_placeholder v2 = m_value_edit_placeholder (tag_path_textChanged last v) /\
    mode v2 = mode v /\
    value v2 = (if is_study_date first || is_study_date last
                then EmptyString else value v).
Proof.
  intros first last v v1 v2. subst v1 v2. unfold tag_path_textChanged. cbv zeta.
  destruct (is_study_date first), (is_study_date last); repeat split.
Qed.

End Tag_path_field.
